(** * youtube-downloader-pro: the download orchestration engine

    A shallow embedding of the two download engines of the repository,

    - the queue-backed service [app/services/download_service.py]
      (class [DownloadService]) with its Redis publisher
      [app/core/redis_client.py] and the retry endpoint of
      [app/api/downloads.py], and
    - the in-process downloader [youtube_downloader_pro.py]
      (class [AdvancedYouTubeDownloader]),

    followed by the terms the properties speak of and by the properties
    themselves, one theorem for each claim about the engine.  The queue
    of the Redis manager, the reader of the progress, the cancel endpoint
    and the playlist script [download_playlist.py] are embedded as well,
    with further properties of the code at the end.

    Conventions.  A Python [str] is a list of characters with code points
    below 256.  A Python [float] is a rational within the range of
    binary64, or an infinity, or NaN: a number too large for the range is
    an infinity and one too small is zero, as in Python; the rounding of
    the 53 bits of a number within the range is not modelled.  A Python
    exception is a value of an error type, and
    [try]/[except] is a function on results.  What the engines do to Redis
    and to the table of jobs is the list of calls they make, in order. *)

From Stdlib Require Import List String Ascii ZArith QArith Qabs Lia Bool.
From stdpp Require Import gmap.
Import ListNotations.
Open Scope Z_scope.

(** ** Python strings *)

(** A text. *)
Definition str := list ascii.

(** String literals. *)
Definition L (s : string) : str := list_ascii_of_string s.

Module PyStr.

(** [ord(c)] *)
Definition code (c : ascii) : N := N_of_ascii c.

(** [str.isspace] on one character: the code points below 256 that Python
    treats as white space. *)
Definition is_space (c : ascii) : bool :=
  let n := code c in
  ((9 <=? n) && (n <=? 13) || (28 <=? n) && (n <=? 32)
   || (n =? 133) || (n =? 160))%N.

(** [\d] and [str.isdigit] below code point 256: the digits 0 to 9. *)
Definition is_digit (c : ascii) : bool :=
  let n := code c in ((48 <=? n) && (n <=? 57))%N.

(** The value of a digit. *)
Definition digit_val (c : ascii) : Z := Z.of_N (code c) - 48.

(** [c.lower()] on one ASCII character. *)
Definition lower (c : ascii) : ascii :=
  let n := code c in
  if ((65 <=? n) && (n <=? 90))%N then ascii_of_N (n + 32) else c.

(** [a == b] *)
Fixpoint eqb (a b : str) : bool :=
  match a, b with
  | [], [] => true
  | x :: a', y :: b' => Ascii.eqb x y && eqb a' b'
  | _, _ => false
  end.

(** [s.startswith(p)] *)
Fixpoint startswith (s p : str) {struct p} : bool :=
  match p, s with
  | [], _ => true
  | x :: p', y :: s' => Ascii.eqb x y && startswith s' p'
  | _ :: _, [] => false
  end.

(** [s.endswith(p)] *)
Definition endswith (s p : str) : bool := startswith (rev s) (rev p).

(** [sub in s] *)
Fixpoint contains (sub s : str) : bool :=
  startswith s sub ||
  match s with
  | [] => false
  | _ :: s' => contains sub s'
  end.

(** [s.replace(c, empty)] for a one-character [c]: every [c] is removed. *)
Definition remove_char (c : ascii) (s : str) : str :=
  List.filter (fun x => negb (Ascii.eqb x c)) s.

(** [s.lstrip()] *)
Fixpoint lstrip (s : str) : str :=
  match s with
  | c :: s' => if is_space c then lstrip s' else s
  | [] => []
  end.

(** [s.strip()] *)
Definition strip (s : str) : str := rev (lstrip (rev (lstrip s))).

(** [s.split()] with no argument: the maximal runs of non-space
    characters, in order; [cur] is the run being read, reversed. *)
Fixpoint split_from (cur : str) (s : str) : list str :=
  match s with
  | [] => match cur with [] => [] | _ => [rev cur] end
  | c :: s' =>
      if is_space c
      then match cur with
           | [] => split_from [] s'
           | _ => rev cur :: split_from [] s'
           end
      else split_from (c :: cur) s'
  end.

Definition split (s : str) : list str := split_from [] s.

(** [s.split(c)] for a one-character separator: empty fields are kept. *)
Fixpoint split_on_from (c : ascii) (cur : str) (s : str) : list str :=
  match s with
  | [] => [rev cur]
  | x :: s' =>
      if Ascii.eqb x c then rev cur :: split_on_from c [] s'
      else split_on_from c (x :: cur) s'
  end.

Definition split_on (c : ascii) (s : str) : list str := split_on_from c [] s.

(** [sep.join(parts)] *)
Fixpoint join (sep : str) (parts : list str) : str :=
  match parts with
  | [] => []
  | [p] => p
  | p :: rest => p ++ sep ++ join sep rest
  end.

(** [str(n)] for an [int]. *)
Definition digit_char (d : Z) : ascii := ascii_of_N (Z.to_N (d + 48)).

(** The digits of [n], least significant first onto [acc]. *)
Fixpoint digits_from (fuel : nat) (n : Z) (acc : str) : str :=
  let acc' := digit_char (n mod 10) :: acc in
  match fuel with
  | O => acc'
  | S fuel' => if n / 10 =? 0 then acc' else digits_from fuel' (n / 10) acc'
  end.

Definition of_nonneg (n : Z) : str := digits_from (Z.to_nat n) n [].

Definition of_int (n : Z) : str :=
  if n <? 0 then "-"%char :: of_nonneg (- n) else of_nonneg n.

(** [repr(s)] for a text without quotes, backslashes and control
    characters. *)
Definition repr (s : str) : str := "'"%char :: s ++ ["'"%char].

(** [lines[-n:]] *)
Definition last_n {A} (n : nat) (l : list A) : list A :=
  skipn (length l - n) l.

End PyStr.

(** ** Python floats *)

(** A float: a finite value, an infinity or NaN. *)
Inductive pyfloat :=
| PFin (q : Q)          (* a finite value, in lowest terms *)
| PInf (negative : bool)
| PNaN.

Module PyFloat.
Import PyStr.

(** The finite float of a rational. *)
Definition fin (q : Q) : pyfloat := PFin (Qred q).

(** [float(n)] for an [int]. *)
Definition of_Z (n : Z) : pyfloat := fin (inject_Z n).

(** [bool(x)]: every float but zero is true, NaN included. *)
Definition truthy (x : pyfloat) : bool :=
  match x with
  | PFin q => negb (Qeq_bool q 0)
  | _ => true
  end.

(** The range of binary64.  A magnitude of [2^1024 - 2^970] or more,
    half way between the largest float and [2^1024], rounds to an
    infinity; one of [2^-1075] or less, half the smallest float, rounds to
    zero. *)
Definition overflow_at : Q := inject_Z (2 ^ 1024 - 2 ^ 970).
Definition underflow_at : Q := 1 # (2 ^ 1075).

(** The float a number is rounded to, as far as the range goes. *)
Definition rounded (q : Q) : pyfloat :=
  if Qle_bool overflow_at (Qabs q) then PInf (Qnum q <? 0)
  else if Qle_bool (Qabs q) underflow_at then PFin 0
  else fin q.

(** [x * n] for a float and a positive [int]. *)
Definition mul_int (x : pyfloat) (n : Z) : pyfloat :=
  match x with
  | PFin q => rounded (q * inject_Z n)
  | other => other
  end.

(** [-x] when [b], else [x]. *)
Definition neg (b : bool) (x : pyfloat) : pyfloat :=
  if b then
    match x with
    | PFin q => fin (- q)
    | PInf s => PInf (negb s)
    | PNaN => PNaN
    end
  else x.

(** [x <= y] on floats; every comparison with NaN is false. *)
Definition leb (x y : pyfloat) : bool :=
  match x, y with
  | PNaN, _ | _, PNaN => false
  | PInf true, _ => true
  | _, PInf false => true
  | PInf false, _ => false
  | _, PInf true => false
  | PFin a, PFin b => Qle_bool a b
  end.

(** The grammar of [float(s)]:
    [sign? (inf | infinity | nan | number exponent?)] between optional
    white space, where a run of digits may hold single underscores between
    digits, [number] is [digits], [digits.], [digits.digits] or [.digits],
    and [exponent] is [e sign? digits]. *)

(** The rest of a digit run: (value so far, digits read, rest). *)
Fixpoint digitpart_rest (s : str) (acc : Z) (n : nat) : Z * nat * str :=
  match s with
  | c :: s' =>
      if is_digit c then digitpart_rest s' (acc * 10 + digit_val c) (S n)
      else if Ascii.eqb c "_" then
        match s' with
        | d :: s'' =>
            if is_digit d
            then digitpart_rest s'' (acc * 10 + digit_val d) (S n)
            else (acc, n, s)
        | [] => (acc, n, s)
        end
      else (acc, n, s)
  | [] => (acc, n, s)
  end.

(** A run of digits at the start of [s]. *)
Definition digitpart (s : str) : option (Z * nat * str) :=
  match s with
  | c :: s' => if is_digit c then Some (digitpart_rest s' (digit_val c) 1%nat)
               else None
  | [] => None
  end.

(** An optional sign: whether it is a minus, and the rest. *)
Definition sign (s : str) : bool * str :=
  match s with
  | c :: s' =>
      if Ascii.eqb c "-" then (true, s')
      else if Ascii.eqb c "+" then (false, s')
      else (false, s)
  | [] => (false, s)
  end.

(** [10 ** e] *)
Definition pow10 (e : Z) : Q :=
  if e <? 0 then 1 # (Z.to_pos (10 ^ (- e))) else inject_Z (10 ^ e).

(** An optional exponent: its value (0 when absent) and the rest. *)
Definition exponent (s : str) : option (Z * str) :=
  match s with
  | c :: s' =>
      if Ascii.eqb (lower c) "e" then
        let '(negative, s1) := sign s' in
        match digitpart s1 with
        | Some (e, _, rest) => Some (if negative then - e else e, rest)
        | None => None
        end
      else Some (0, s)
  | [] => Some (0, s)
  end.

(** mantissa and number of fraction digits *)
Definition number (s : str) : option (Z * nat * str) :=
  match digitpart s with
  | Some (i, _, r1) =>
      match r1 with
      | c :: r2 =>
          if Ascii.eqb c "." then
            match digitpart r2 with
            | Some (f, fl, r3) => Some (i * 10 ^ Z.of_nat fl + f, fl, r3)
            | None => Some (i, O, r2)
            end
          else Some (i, O, r1)
      | [] => Some (i, O, r1)
      end
  | None =>
      match s with
      | c :: r2 =>
          if Ascii.eqb c "." then
            match digitpart r2 with
            | Some (f, fl, r3) => Some (f, fl, r3)
            | None => None
            end
          else None
      | [] => None
      end
  end.

(** [float(s)]; [None] is [ValueError]. *)
Definition of_str (s : str) : option pyfloat :=
  let '(negative, body) := sign (strip s) in
  let low := map lower body in
  if eqb low (L "inf") || eqb low (L "infinity") then Some (PInf negative)
  else if eqb low (L "nan") then Some PNaN
  else
    match number body with
    | Some (m, fl, r) =>
        match exponent r with
        | Some (e, []) =>
            Some (neg negative
                    (rounded (inject_Z m * pow10 (e - Z.of_nat fl))))
        | _ => None
        end
    | None => None
    end.

End PyFloat.

(** ** Exceptions *)

(** The exceptions the engines meet. *)
Inductive pyexc :=
| ValueError (message : str)
| KeyError (key : str)
| CancelledError                (* a [BaseException], not an [Exception] *)
| OSError (message : str)
| AttributeError (message : str).

(** [isinstance(e, Exception)] *)
Definition is_Exception (e : pyexc) : bool :=
  match e with
  | CancelledError => false
  | _ => true
  end.

(** [str(e)] *)
Definition exc_str (e : pyexc) : str :=
  match e with
  | ValueError m => m
  | KeyError k => L "'" ++ k ++ L "'"
  | CancelledError => []
  | OSError m => m
  | AttributeError m => m
  end.

(** A reading of the clock ([datetime.utcnow()], [time.time()]). *)
Definition timestamp := Z.

(** A stream of lines that raises when the line of a given index is read
    or decoded, with a given message; [later] is the stream one line
    further on. *)
Definition later (failing : option (nat * str)) : option (nat * str) :=
  match failing with
  | Some (S j, message) => Some (j, message)
  | _ => None
  end.

(** ** app/core/redis_client.py *)

Module RedisManager.

(** The dictionary of [_update_download_status]; an absent key is [None]. *)
Record snapshot := {
  status : str;
  updated_at : timestamp;
  progress : option pyfloat;
  error_message : option str;
  completed_at : option timestamp;
  started_at : option timestamp
}.

(** What the service stores: a status snapshot or a speed sample. *)
Inductive value :=
| VStatus (s : snapshot)
| VSpeed (speed : pyfloat) (sampled_at : timestamp).

(** One call [redis_manager.set(key, value, expire=...)]. *)
Record set_call := { key : str; val : value; expire : option Z }.

(** [settings.REDIS_EXPIRE] *)
Definition REDIS_EXPIRE : Z := 3600.

(** [client] is [self.client]; [kv] holds each key's value and its time
    to live.  Expiry itself is not modelled: a key is read before its
    time to live has passed. *)
Record redis := {
  client : bool;
  kv : gmap str (value * Z);
  lists : gmap str (list (Z * timestamp))
}.

(** [expire or settings.REDIS_EXPIRE] *)
Definition ttl (e : option Z) : Z :=
  match e with
  | Some n => if n =? 0 then REDIS_EXPIRE else n
  | None => REDIS_EXPIRE
  end.

(** [set]: without a client nothing is written and the result is
    [False]; so it is when the server refuses the time to live, which it
    does unless that is positive, the error being caught. *)
Definition set (r : redis) (c : set_call) : redis * bool :=
  if client r
  then if 0 <? ttl (expire c)
       then ({| client := true;
                kv := <[key c := (val c, ttl (expire c))]> (kv r);
                lists := lists r |},
             true)
       else (r, false)
  else (r, false).

(** A list of calls, made in order. *)
Definition set_all (r : redis) (cs : list set_call) : redis :=
  fold_left (fun r c => fst (set r c)) cs r.

(** [await redis_manager.get(key)] *)
Definition get (r : redis) (k : str) : option value :=
  if client r then fst <$> kv r !! k else None.

(** [push_to_queue]: [LPUSH] puts the item at the head of the list. *)
Definition push_to_queue (r : redis) (queue_name : str)
    (item : Z * timestamp) : redis * bool :=
  if client r
  then ({| client := true;
           kv := kv r;
           lists := <[queue_name := item :: default [] (lists r !! queue_name)]>
                      (lists r) |},
        true)
  else (r, false).

(** [get_queue_length] *)
Definition get_queue_length (r : redis) (queue_name : str) : Z :=
  if client r
  then Z.of_nat (length (default [] (lists r !! queue_name)))
  else 0.

(** A server that is connected and holds nothing. *)
Definition connected : redis := {| client := true; kv := ∅; lists := ∅ |}.

(** [redis_manager = RedisManager()], run when the module is imported:
    [__init__] copies the global [redis_client], which is [None] then,
    and nothing assigns the attribute afterwards. *)
Definition redis_manager : redis := {| client := false; kv := ∅; lists := ∅ |}.

End RedisManager.

(** ** app/services/download_service.py *)

Module DownloadService.
Import PyStr RedisManager.

(** The keys [download_status:{download_id}] and
    [download_speed:{download_id}]. *)
Definition status_key (download_id : Z) : str :=
  L "download_status:" ++ of_int download_id.

Definition speed_key (download_id : Z) : str :=
  L "download_speed:" ++ of_int download_id.

(** [if error_message:] *)
Definition nonempty (o : option str) : option str :=
  match o with
  | Some [] => None
  | other => other
  end.

(** [_update_download_status]: the whole dictionary is rebuilt on every
    call and replaces the stored one. *)
Definition _update_download_status (now : timestamp) (download_id : Z)
    (st : str) (prog : option pyfloat) (err : option str)
  : list set_call :=
  let completed := eqb st (L "completed") in
  let downloading := eqb st (L "downloading") in
  [ {| key := status_key download_id;
       val := VStatus
         {| status := st;
            updated_at := now;
            progress := prog;
            error_message := nonempty err;
            completed_at := if completed then Some now else None;
            started_at :=
              if completed then None
              else if downloading then Some now else None |};
       expire := Some 3600 |} ].

(** [_update_download_progress] *)
Definition _update_download_progress (now : timestamp) (download_id : Z)
    (p : pyfloat) : list set_call :=
  _update_download_status now download_id (L "downloading") (Some p) None.

(** [_update_download_speed] *)
Definition _update_download_speed (now : timestamp) (download_id : Z)
    (speed : pyfloat) : list set_call :=
  [ {| key := speed_key download_id;
       val := VSpeed speed now;
       expire := Some 300 |} ].

(** *** The speed pattern

    [speed_pattern] is one or more digits, an optional dot and any number
    of digits (group 1), then one of K, M and G (group 2), then the text
    iB/s.  The matcher backtracks as [re] does, in continuation style:
    every quantifier is greedy, and gives characters back one at a time
    while the rest of the pattern fails.  A continuation receives the
    text its piece matched and the text that is left. *)
Section Matcher.
Context {R : Type}.

(** any number of digits, as many as possible first *)
Fixpoint star_digit (s : str) (k : str -> str -> option R) : option R :=
  match s with
  | c :: s' =>
      if is_digit c then
        match star_digit s' (fun m r => k (c :: m) r) with
        | Some x => Some x
        | None => k [] s
        end
      else k [] s
  | [] => k [] s
  end.

(** one or more digits *)
Definition plus_digit (s : str) (k : str -> str -> option R) : option R :=
  match s with
  | c :: s' =>
      if is_digit c then star_digit s' (fun m r => k (c :: m) r) else None
  | [] => None
  end.

(** an optional dot, taken first when present *)
Definition opt_dot (s : str) (k : str -> str -> option R) : option R :=
  match s with
  | c :: s' =>
      if Ascii.eqb c "." then
        match k [c] s' with
        | Some x => Some x
        | None => k [] s
        end
      else k [] s
  | [] => k [] s
  end.

(** one of the letters K, M and G *)
Definition unit_letter (s : str) (k : ascii -> str -> option R) : option R :=
  match s with
  | c :: s' =>
      if Ascii.eqb c "K" || Ascii.eqb c "M" || Ascii.eqb c "G"
      then k c s' else None
  | [] => None
  end.
End Matcher.

(** The pattern matched at the start of [s]: groups 1 and 2. *)
Definition match_here (s : str) : option (str * ascii) :=
  plus_digit s (fun m1 r1 =>
  opt_dot r1 (fun m2 r2 =>
  star_digit r2 (fun m3 r3 =>
  unit_letter r3 (fun u r4 =>
  if startswith r4 (L "iB/s") then Some (m1 ++ m2 ++ m3, u) else None)))).

(** [re.search(speed_pattern, line)]: the leftmost match. *)
Fixpoint re_search (s : str) : option (str * ascii) :=
  match match_here s with
  | Some g => Some g
  | None =>
      match s with
      | [] => None
      | _ :: s' => re_search s'
      end
  end.

(** [multipliers.get(unit, 1)] *)
Definition multiplier (u : ascii) : Z :=
  if Ascii.eqb u "K" then 1024
  else if Ascii.eqb u "M" then 1024 ^ 2
  else if Ascii.eqb u "G" then 1024 ^ 3
  else 1.

(** A [try] block whose handler is [except Exception: return None]. *)
Definition or_none {A} (r : option A + pyexc) : option A + pyexc :=
  match r with
  | inr e => if is_Exception e then inl None else inr e
  | ok => ok
  end.

(** [float(s)] *)
Definition float_ (s : str) : pyfloat + pyexc :=
  match PyFloat.of_str s with
  | Some x => inl x
  | None =>
      inr (ValueError (L "could not convert string to float: " ++ repr s))
  end.

(** [_extract_speed]; the right injection is an exception that leaves
    the function. *)
Definition _extract_speed (line : str) : option pyfloat + pyexc :=
  or_none
    match re_search line with
    | Some (g1, g2) =>
        match float_ g1 with
        | inl value => inl (Some (PyFloat.mul_int value (multiplier g2)))
        | inr e => inr e
        end
    | None => inl None
    end.

(** The loop [for part in parts] of [_parse_progress]: the calls made,
    and the exception that leaves the loop, if any. *)
Fixpoint scan_parts (now : timestamp) (download_id : Z) (parts : list str)
  : list set_call * option pyexc :=
  match parts with
  | [] => ([], None)
  | part :: rest =>
      if endswith part (L "%") then
        match float_ (remove_char "%" part) with
        | inl percentage =>
            (_update_download_progress now download_id percentage, None)
        | inr (ValueError _) => scan_parts now download_id rest
        | inr e => ([], Some e)
        end
      else scan_parts now download_id rest
  end.

(** [_parse_progress]: the calls made on Redis and the exception that
    leaves the method, if any. *)
Definition _parse_progress (now : timestamp) (download_id : Z) (line : str)
  : list set_call * option pyexc :=
  let tagged := contains (L "[download]") line in
  let '(calls1, e1) :=
    if tagged && contains (L "%") line
    then scan_parts now download_id (split line)
    else ([], None) in
  let '(calls2, e2) :=
    match e1 with
    | Some e => ([], Some e)
    | None =>
        if tagged && (contains (L "/s") line || contains (L "iB/s") line)
        then
          match _extract_speed line with
          | inl (Some speed_info) =>
              if PyFloat.truthy speed_info
              then (_update_download_speed now download_id speed_info, None)
              else ([], None)
          | inl None => ([], None)
          | inr e => ([], Some e)
          end
        else ([], None)
    end in
  (calls1 ++ calls2,
   match e2 with
   | Some e => if is_Exception e then None else Some e
   | None => None
   end).

(** *** The command builder *)

(** The [config] dictionary; [None] is an absent key. *)
Record config := {
  url : option str;
  output_directory : option str;
  audio_only : option bool;
  quality : option str;
  fps : option Z;
  extract_audio : option bool;
  audio_format : option str;
  format : option str;
  include_subtitles : option bool;
  subtitle_languages : option (list str);
  auto_subtitles : option bool;
  include_thumbnail : option bool;
  include_metadata : option bool;
  start_time : option str;
  end_time : option str;
  playlist_start : option Z;
  playlist_end : option Z
}.

(** Truth values of [config.get(key)]. *)
Definition true_b (o : option bool) : bool := default false o.

Definition true_s (o : option str) : bool :=
  match o with
  | Some (_ :: _) => true
  | _ => false
  end.

Definition true_i (o : option Z) : bool :=
  match o with
  | Some n => negb (n =? 0)
  | None => false
  end.

(** [str(Path(d) / name)] for a one-component [name]: empty and dot
    components of [d] vanish, as do repeated and trailing slashes. *)
Definition path_root (d : str) : str :=
  if startswith d (L "//") && negb (startswith d (L "///")) then L "//"
  else if startswith d (L "/") then L "/"
  else [].

Definition path_parts (d : str) : list str :=
  List.filter (fun p => negb (eqb p [] || eqb p (L ".")))
              (split_on "/" d).

Definition path_join (d name : str) : str :=
  path_root d ++ join (L "/") (path_parts d ++ [name]).

(** [format_str] *)
Definition format_str (q : str) (f : option Z) : str :=
  let fps_filter :=
    if true_i f then L "[fps<=" ++ of_int (default 0 f) ++ L "]" else [] in
  L "bestvideo[height<=" ++ q ++ L "]" ++ fps_filter
    ++ L "+bestaudio/best[height<=" ++ q ++ L "]".

(** Format selection *)
Definition format_selection (c : config) : list str :=
  if true_b (audio_only c) then [L "-f"; L "bestaudio"]
  else [L "-f"; format_str (default (L "1080") (quality c)) (fps c)].

(** Audio extraction *)
Definition audio_extraction (c : config) : list str :=
  if true_b (extract_audio c)
  then [L "--extract-audio"; L "--audio-format";
        default (L "mp3") (audio_format c)]
  else [].

(** Video format *)
Definition video_format (c : config) : list str :=
  if negb (true_b (audio_only c)) && negb (true_b (extract_audio c))
  then [L "--remux-video"; default (L "mp4") (format c)]
  else [].

(** Subtitles *)
Definition subtitles (c : config) : list str :=
  (if true_b (include_subtitles c)
   then L "--write-subs" ::
        match default [L "en"] (subtitle_languages c) with
        | [] => []
        | langs => [L "--sub-langs"; join (L ",") langs]
        end
   else [])
  ++ (if true_b (auto_subtitles c) then [L "--write-auto-subs"] else []).

(** Thumbnail and metadata *)
Definition thumbnail_metadata (c : config) : list str :=
  (if true_b (include_thumbnail c) then [L "--write-thumbnail"] else [])
  ++ (if default true (include_metadata c)
      then [L "--write-info-json"; L "--write-description"] else []).

(** Time range *)
Definition time_range (c : config) : list str :=
  if true_s (start_time c) || true_s (end_time c) then
    [L "--external-downloader"; L "ffmpeg"]
    ++ (if true_s (start_time c)
        then [L "--external-downloader-args";
              L "-ss " ++ default [] (start_time c)]
        else [])
    ++ (if true_s (end_time c)
        then [L "--external-downloader-args";
              L "-to " ++ default [] (end_time c)]
        else [])
  else [].

(** Playlist range *)
Definition playlist_range (c : config) : list str :=
  (if true_i (playlist_start c)
   then [L "--playlist-start"; of_int (default 0 (playlist_start c))]
   else [])
  ++ (if true_i (playlist_end c)
      then [L "--playlist-end"; of_int (default 0 (playlist_end c))]
      else []).

(** Additional options *)
Definition additional_options : list str :=
  [L "--embed-chapters"; L "--ignore-errors"; L "--no-warnings";
   L "--progress"; L "--newline"].

(** [self.yt_dlp_path] *)
Definition yt_dlp_path : str := L "yt-dlp".

(** [_build_download_command]; [config["url"]] raises [KeyError] when
    the key is absent. *)
Definition _build_download_command (c : config) : list str + pyexc :=
  let cmd :=
    [yt_dlp_path; L "-o";
     path_join (default (L "downloads") (output_directory c))
               (L "%(title)s.%(ext)s")]
    ++ format_selection c
    ++ audio_extraction c
    ++ video_format c
    ++ subtitles c
    ++ thumbnail_metadata c
    ++ time_range c
    ++ playlist_range c
    ++ additional_options in
  match url c with
  | Some u => inl (cmd ++ [u])
  | None => inr (KeyError (L "url"))
  end.

End DownloadService.

(** ** The supervised subprocess

    What [asyncio.subprocess.Process] shows of the tool: its return code,
    the signals sent to it, and how it reacts to them.  Time passes in
    ticks of the event loop. *)

Module Subprocess.

(** The signals a supervisor can send. *)
Inductive signal := SIGTERM | SIGKILL.

Record process := {
  returncode : option Z;           (* [None] while the process runs *)
  exits_in : option (nat * Z);     (* the exit it is heading for: ticks
                                      left and exit code; [None]: it
                                      runs on *)
  on_sigterm : option (nat * Z);   (* its reaction to SIGTERM; [None]:
                                      the signal is ignored *)
  received : list signal
}.

(** One tick of the event loop passes. *)
Definition tick (p : process) : process :=
  match returncode p, exits_in p with
  | None, Some (O, c) =>
      {| returncode := Some c; exits_in := None;
         on_sigterm := on_sigterm p; received := received p |}
  | None, Some (S n, c) =>
      {| returncode := None; exits_in := Some (n, c);
         on_sigterm := on_sigterm p; received := received p |}
  | _, _ => p
  end.

(** [process.terminate()] *)
Definition terminate (p : process) : process :=
  {| returncode := returncode p;
     exits_in := match on_sigterm p with
                 | Some reaction => Some reaction
                 | None => exits_in p
                 end;
     on_sigterm := on_sigterm p;
     received := received p ++ [SIGTERM] |}.

(** [await process.wait()], watched for [fuel] ticks: [None] when the
    call has not returned by then. *)
Fixpoint wait (fuel : nat) (p : process) : option process :=
  match returncode p with
  | Some _ => Some p
  | None =>
      match fuel with
      | O => None
      | S fuel' => wait fuel' (tick p)
      end
  end.

End Subprocess.

Module DownloadServiceRun.
Import PyStr RedisManager Subprocess DownloadService.

(** How a coroutine ends. *)
Inductive outcome :=
| Returned (success : bool)
| Raised (e : pyexc).

(** What one call of [_execute_download] did. *)
Record trace := {
  calls : list set_call;           (* the calls made on Redis, in order *)
  handle : option process;         (* the process when the method ends *)
  result : outcome
}.

(** One run of the tool as [_execute_download] meets it. *)
Record run := {
  spawn_error : option str;        (* [create_subprocess_exec] raises *)
  output : list str;               (* the lines of its output *)
  read_error : option (nat * str); (* the line of that index cannot be
                                      read or decoded: [ValueError] with
                                      that message *)
  proc : process;                  (* the process once spawned *)
  cancel_after : option nat        (* [task.cancel()] takes effect when
                                      that many lines have been read *)
}.

(** The literals [0.0] and [100.0]. *)
Definition zero : pyfloat := PFin 0.
Definition hundred : pyfloat := PFin 100.

(** [async for line in process.stdout]: the calls made, and the
    exception that ends the loop, if any.  A cancellation that has not
    struck by the end of the output strikes in [process.wait()].  A line
    longer than the limit of the stream makes the iteration raise
    [ValueError], and so does [line.decode()] for a line that is not
    UTF-8, [UnicodeDecodeError] being one. *)
Fixpoint read_output (now : timestamp) (download_id : Z)
    (lines : list str) (cancel : option nat) (failing : option (nat * str))
  : list set_call * option pyexc :=
  match cancel, lines with
  | Some O, _ => ([], Some CancelledError)
  | Some _, [] => ([], Some CancelledError)
  | None, [] => ([], None)
  | _, line :: rest =>
      match failing with
      | Some (O, message) => ([], Some (ValueError message))
      | _ =>
          let line_str := strip line in
          let '(cs, e) :=
            match line_str with
            | [] => ([], None)
            | _ => _parse_progress now download_id line_str
            end in
          match e with
          | Some e => (cs, Some e)
          | None =>
              let '(cs', e') :=
                read_output now download_id rest (Nat.pred <$> cancel)
                  (later failing) in
              (cs ++ cs', e')
          end
      end
  end.

(** The handlers of [_execute_download]. *)
Definition handler (fuel : nat) (now : timestamp) (download_id : Z)
    (p : option process) (before : list set_call) (e : pyexc)
  : option trace :=
  match e with
  | CancelledError =>
      let waited :=
        match p with
        | Some q =>
            match returncode q with
            | None => option_map Some (wait fuel (terminate q))
            | Some _ => Some p
            end
        | None => Some None
        end in
      match waited with
      | Some p' =>
          Some {| calls := before ++
                    _update_download_status now download_id (L "cancelled")
                      (Some zero) None;
                  handle := p';
                  result := Raised CancelledError |}
      | None => None
      end
  | _ =>
      Some {| calls := before ++
                _update_download_status now download_id (L "failed")
                  (Some zero) (Some (exc_str e));
              handle := p;
              result := Returned false |}
  end.

(** [_execute_download], watched for [fuel] ticks: [None] when it is
    still waiting for the process by then. *)
Definition _execute_download (fuel : nat) (now : timestamp)
    (download_id : Z) (r : run) : option trace :=
  match spawn_error r with
  | Some msg => handler fuel now download_id None [] (OSError msg)
  | None =>
      let p := proc r in
      match read_output now download_id (output r) (cancel_after r)
              (read_error r) with
      | (cs, Some e) => handler fuel now download_id (Some p) cs e
      | (cs, None) =>
          match wait fuel p with
          | None => None
          | Some p' =>
              let success :=
                match returncode p' with
                | Some c => c =? 0
                | None => false
                end in
              Some {| calls := cs ++
                        (if success
                         then _update_download_status now download_id
                                (L "completed") (Some hundred) None
                         else _update_download_status now download_id
                                (L "failed") (Some zero) None);
                      handle := Some p';
                      result := Returned success |}
          end
      end
  end.

(** [self.active_downloads]: a task is known by the process it
    supervises. *)
Definition active := gmap Z process.

(** [process_download]: [except Exception] turns every exception but a
    cancellation into [False]; [finally] drops the entry. *)
Definition process_download (fuel : nat) (now : timestamp)
    (download_id : Z) (c : config) (r : run) (a : active)
  : option (active * trace) :=
  match _build_download_command c with
  | inr e =>
      Some (delete download_id a,
            {| calls := []; handle := None; result := Returned false |})
  | inl cmd =>
      match _execute_download fuel now download_id r with
      | Some t => Some (delete download_id a, t)
      | None => None
      end
  end.

(** [cancel_download]: [task.cancel()] raises [CancelledError] in the
    task, [await task] waits for its handler and for the [finally] of
    [process_download], which drops the entry; the [del] that follows
    then raises [KeyError], which [except Exception] turns into
    [False]. *)
Definition cancel_download (fuel : nat) (now : timestamp)
    (download_id : Z) (a : active)
  : option (active * list set_call * option process * bool) :=
  match a !! download_id with
  | Some p =>
      match handler fuel now download_id (Some p) [] CancelledError with
      | Some t => Some (delete download_id a, calls t, handle t, false)
      | None => None
      end
  | None => Some (a, [], None, false)
  end.

(** *** The service as a transition system *)

(** [settings.MAX_CONCURRENT_DOWNLOADS] *)
Definition MAX_CONCURRENT_DOWNLOADS : Z := 10.

(** [self.download_queue] *)
Definition download_queue : str := L "download_queue".

(** [queue_download]: the result of [push_to_queue] is not looked at. *)
Definition queue_download (now : timestamp) (r : redis) (download_id : Z)
  : redis * bool :=
  (fst (push_to_queue r download_queue (download_id, now)), true).

(** The service: its tasks and the Redis server. *)
Record service := {
  active_downloads : active;
  store : redis
}.

(** The service when it is created: no task, and the [redis_manager]
    of the module. *)
Definition init : service :=
  {| active_downloads := ∅; store := redis_manager |}.

(** What can happen to the service.  Nothing stands between a job and
    its subprocess but the call of [process_download]. *)
Inductive event :=
| QueueDownload (download_id : Z)          (* [queue_download] *)
| Spawn (download_id : Z) (p : process)    (* the subprocess is created
                                              and the task registered *)
| OutputLine (download_id : Z) (line : str)
| Exit (download_id : Z) (code : Z).       (* the process exits and
                                              [process_download] ends *)

(** The effect of one event. *)
Definition step (now : timestamp) (s : service) (e : event) : service :=
  match e with
  | QueueDownload i =>
      {| active_downloads := active_downloads s;
         store := fst (queue_download now (store s) i) |}
  | Spawn i p =>
      {| active_downloads := <[i := p]> (active_downloads s);
         store := store s |}
  | OutputLine i line =>
      match active_downloads s !! i with
      | Some _ =>
          {| active_downloads := active_downloads s;
             store := set_all (store s)
                        (fst (read_output now i [line] None None)) |}
      | None => s
      end
  | Exit i code =>
      match active_downloads s !! i with
      | Some _ =>
          {| active_downloads := delete i (active_downloads s);
             store := set_all (store s)
                        (if code =? 0
                         then _update_download_status now i
                                (L "completed") (Some hundred) None
                         else _update_download_status now i
                                (L "failed") (Some zero) None) |}
      | None => s
      end
  end.

(** The state after a list of events. *)
Definition run_events (now : timestamp) (es : list event) : service :=
  fold_left (step now) es init.

(** The states the service can be in. *)
Definition reachable (s : service) : Prop :=
  exists now es, run_events now es = s.

(** The value stored is a snapshot whose status is downloading. *)
Definition is_downloading (v : value * Z) : bool :=
  match fst v with
  | VStatus sn => eqb (status sn) (L "downloading")
  | VSpeed _ _ => false
  end.

(** The number of jobs whose published status is downloading. *)
Definition downloading_count (s : service) : nat :=
  length (List.filter (fun kv => is_downloading (snd kv))
                      (map_to_list (kv (store s)))).

(** [get_queue_status] *)
Record queue_status := {
  queue_length : Z;
  active_count : Z;
  total_capacity : Z;
  available_slots : Z
}.

Definition get_queue_status (s : service) : queue_status :=
  let n := Z.of_nat (size (active_downloads s)) in
  {| queue_length := get_queue_length (store s) download_queue;
     active_count := n;
     total_capacity := MAX_CONCURRENT_DOWNLOADS;
     available_slots := Z.max 0 (MAX_CONCURRENT_DOWNLOADS - n) |}.

End DownloadServiceRun.

(** ** youtube_downloader_pro.py *)

Module AdvancedYouTubeDownloader.
Import PyStr.

(** The dataclass [DownloadJob]. *)
Record DownloadJob := {
  url : str;
  output_dir : str;
  resolution : str;
  fps : option Z;
  format : str;
  audio_only : bool;
  extract_audio : bool;
  audio_format : str;
  subtitles : bool;
  auto_subtitles : bool;
  subtitle_langs : list str;
  thumbnail : bool;
  metadata : bool;
  start_time : option str;
  end_time : option str;
  speed : option pyfloat;
  playlist_start : option Z;
  playlist_end : option Z;
  status : str;
  progress : pyfloat;
  error_message : option str;
  completed_at : option timestamp
}.

(** Truth values of the optional fields. *)
Definition true_s (o : option str) : bool :=
  match o with
  | Some (_ :: _) => true
  | _ => false
  end.

Definition true_i (o : option Z) : bool :=
  match o with
  | Some n => negb (n =? 0)
  | None => false
  end.

Definition true_f (o : option pyfloat) : bool :=
  match o with
  | Some x => PyFloat.truthy x
  | None => false
  end.

(** [os.path.join(d, name)] for a relative [name]. *)
Definition os_path_join (d name : str) : str :=
  match d with
  | [] => name
  | _ => if endswith d (L "/") then d ++ name else d ++ L "/" ++ name
  end.

(** [format_str] *)
Definition format_str (q : str) (f : option Z) : str :=
  let fps_filter :=
    if true_i f then L "[fps<=" ++ of_int (default 0 f) ++ L "]" else [] in
  L "bestvideo[height<=" ++ q ++ L "]" ++ fps_filter
    ++ L "+bestaudio/best[height<=" ++ q ++ L "]".

(** Format selection *)
Definition format_selection (job : DownloadJob) : list str :=
  if audio_only job then [L "-f"; L "bestaudio"]
  else [L "-f"; format_str (resolution job) (fps job)].

(** Audio extraction *)
Definition audio_extraction (job : DownloadJob) : list str :=
  if extract_audio job
  then [L "--extract-audio"; L "--audio-format"; audio_format job]
  else [].

(** Remux to specified format if not audio-only *)
Definition remux (job : DownloadJob) : list str :=
  if negb (audio_only job) && negb (extract_audio job)
  then [L "--remux-video"; format job]
  else [].

(** Subtitles *)
Definition subtitle_options (job : DownloadJob) : list str :=
  (if subtitles job
   then L "--write-subs" ::
        match subtitle_langs job with
        | [] => []
        | langs => [L "--sub-langs"; join (L ",") langs]
        end
   else [])
  ++ (if auto_subtitles job then [L "--write-auto-subs"] else []).

(** Thumbnail and metadata *)
Definition thumbnail_metadata (job : DownloadJob) : list str :=
  (if thumbnail job then [L "--write-thumbnail"] else [])
  ++ (if metadata job
      then [L "--write-info-json"; L "--write-description"] else []).

(** Time range *)
Definition time_range (job : DownloadJob) : list str :=
  (if true_s (start_time job)
   then [L "--external-downloader"; L "ffmpeg";
         L "--external-downloader-args";
         L "-ss " ++ default [] (start_time job)]
   else [])
  ++ (if true_s (end_time job)
      then (if true_s (start_time job) then []
            else [L "--external-downloader"; L "ffmpeg"])
           ++ [L "--external-downloader-args";
               L "-to " ++ default [] (end_time job)]
      else []).

(** Playlist range *)
Definition playlist_range (job : DownloadJob) : list str :=
  (if true_i (playlist_start job)
   then [L "--playlist-start"; of_int (default 0 (playlist_start job))]
   else [])
  ++ (if true_i (playlist_end job)
      then [L "--playlist-end"; of_int (default 0 (playlist_end job))]
      else []).

(** Additional options *)
Definition additional_options : list str :=
  [L "--embed-chapters"; L "--ignore-errors"; L "--no-warnings";
   L "--progress"; L "--newline"].

Section Builder.
(** [str(x)] for a float, which the rate limit is printed with. *)
Variable float_str : pyfloat -> str.

(** Speed limit *)
Definition speed_limit (job : DownloadJob) : list str :=
  if true_f (speed job)
  then [L "--limit-rate";
        float_str (default (PFin 0) (speed job)) ++ L "M"]
  else [].

(** [build_command] *)
Definition build_command (job : DownloadJob) : list str :=
  [L "yt-dlp"; L "-o";
   os_path_join (output_dir job) (L "%(title)s.%(ext)s")]
  ++ format_selection job
  ++ audio_extraction job
  ++ remux job
  ++ subtitle_options job
  ++ thumbnail_metadata job
  ++ time_range job
  ++ playlist_range job
  ++ speed_limit job
  ++ additional_options
  ++ [url job].
End Builder.

(** *** [download_with_progress] *)

(** The keyword arguments of one [update_job] call. *)
Record db_update := {
  set_status : option str;
  set_progress : option pyfloat;
  set_error_message : option str;
  set_completed_at : option timestamp
}.

(** One run of the tool as [download_with_progress] meets it. *)
Record run := {
  build_error : option str;     (* [os.makedirs] raises *)
  spawn_error : option str;     (* [subprocess.Popen] raises *)
  output : list str;            (* the lines of its output *)
  read_error : option (nat * str);
                                (* the line of that index cannot be
                                   decoded: [UnicodeDecodeError] with
                                   that message *)
  returncode : Z                (* its exit code *)
}.

(** The first part that ends with a percent sign decides: a part that
    is no float raises [ValueError], which ends the loop. *)
Fixpoint first_percent (parts : list str) : option pyfloat :=
  match parts with
  | [] => None
  | part :: rest =>
      if endswith part (L "%")
      then PyFloat.of_str (remove_char "%" part)
      else first_percent rest
  end.

(** The [update_job] call one line of output causes, if any. *)
Definition line_update (line : str) : list db_update :=
  if contains (L "[download]") line && contains (L "%") line then
    match first_percent (split line) with
    | Some percentage =>
        [ {| set_status := None; set_progress := Some percentage;
             set_error_message := None; set_completed_at := None |} ]
    | None => []
    end
  else [].

(** The call that records a failure. *)
Definition failed (now : timestamp) (msg : str) : db_update :=
  {| set_status := Some (L "failed"); set_progress := None;
     set_error_message := Some msg; set_completed_at := Some now |}.

(** The line feed. *)
Definition newline : str := ["010"%char].

(** [for line in process.stdout]: the [update_job] calls made, the
    lines appended to [output_lines], and the message of the exception
    that ends the loop, if any: in text mode the iteration decodes each
    line and raises for one it cannot decode. *)
Fixpoint read_lines (lines : list str) (failing : option (nat * str))
  : list db_update * list str * option str :=
  match lines with
  | [] => ([], [], None)
  | line :: rest =>
      match failing with
      | Some (O, message) => ([], [], Some message)
      | _ =>
          let '(updates, output_lines, e) := read_lines rest (later failing) in
          (line_update line ++ updates, strip line :: output_lines, e)
      end
  end.

(** The [update_job] calls of one run, in order, and the result. *)
Definition download_with_progress (now : timestamp) (r : run)
  : list db_update * bool :=
  match build_error r with
  | Some msg => ([failed now msg], false)
  | None =>
      let started :=
        {| set_status := Some (L "downloading");
           set_progress := Some (PFin 0);
           set_error_message := None; set_completed_at := None |} in
      match spawn_error r with
      | Some msg => ([started; failed now msg], false)
      | None =>
          let '(updates, output_lines, e) :=
            read_lines (output r) (read_error r) in
          match e with
          | Some msg => (started :: updates ++ [failed now msg], false)
          | None =>
              if returncode r =? 0 then
                (started :: updates ++
                   [ {| set_status := Some (L "completed");
                        set_progress := Some (PFin 100);
                        set_error_message := None;
                        set_completed_at := Some now |} ],
                 true)
              else
                (started :: updates ++
                   [failed now (join newline (last_n 10 output_lines))],
                 false)
          end
      end
  end.

(** *** The queue thread and the thread pool *)

(** A row of the table [downloads]: the columns the engine writes.
    [None] is [NULL]. *)
Record row := {
  row_status : str;
  row_progress : option pyfloat;
  row_error_message : option str;
  row_completed_at : option timestamp
}.

(** A float bound to a column of type [REAL]: SQLite stores NaN as
    [NULL], and every other float as it is. *)
Definition sql_real (x : pyfloat) : option pyfloat :=
  match x with
  | PNaN => None
  | _ => Some x
  end.

(** [UPDATE downloads SET ... WHERE id = job_id] *)
Definition update_row (u : db_update) (r : row) : row :=
  {| row_status := default (row_status r) (set_status u);
     row_progress :=
       match set_progress u with
       | Some p => sql_real p
       | None => row_progress r
       end;
     row_error_message :=
       match set_error_message u with
       | Some m => Some m
       | None => row_error_message r
       end;
     row_completed_at :=
       match set_completed_at u with
       | Some t => Some t
       | None => row_completed_at r
       end |}.

Definition update_job (db : gmap Z row) (job_id : Z) (u : db_update)
  : gmap Z row :=
  alter (update_row u) job_id db.

(** A worker thread of the pool inside [download_with_progress]: its
    job and the [update_job] calls it has still to make. *)
Record worker := { job_id : Z; todo : list db_update }.

(** The downloader: its queue, its thread pool, its futures and its
    table of jobs. *)
Record downloader := {
  download_queue : list (DownloadJob * Z);   (* [queue.Queue] *)
  work_queue : list (DownloadJob * Z);       (* submitted, not started *)
  running : list worker;                     (* the busy threads *)
  active_downloads : gset Z;                 (* job ids with a future *)
  db : gmap Z row;
  lastrowid : Z
}.

(** The downloader when it is created, on an empty table. *)
Definition init : downloader :=
  {| download_queue := []; work_queue := []; running := [];
     active_downloads := ∅; db := ∅; lastrowid := 0 |}.

(** [fut.done()] *)
Definition done (d : downloader) (jid : Z) : bool :=
  negb (existsb (fun w => job_id w =? jid) (running d)
        || existsb (fun q => snd q =? jid) (work_queue d)).

Section Pool.
(** [self.max_workers], the size of the [ThreadPoolExecutor]. *)
Variable max_workers : nat.

(** What the queue thread and the pool can do. *)
Inductive step : downloader -> downloader -> Prop :=
(** [add_download]: [save_job] inserts the job as it is and returns
    the new row id; the job is put on the queue.  The callers create
    jobs with the default status, pending; a job that is created as
    downloading already is left out. *)
| step_add d job :
    eqb (status job) (L "downloading") = false ->
    step d
      {| download_queue := download_queue d ++ [(job, lastrowid d + 1)];
         work_queue := work_queue d;
         running := running d;
         active_downloads := active_downloads d;
         db := <[lastrowid d + 1 :=
                  {| row_status := status job;
                     row_progress := sql_real (progress job);
                     row_error_message := error_message job;
                     row_completed_at := completed_at job |}]> (db d);
         lastrowid := lastrowid d + 1 |}
(** [_process_queue], one turn: the job is taken off the queue and
    submitted to the pool, its future recorded, the futures that are done
    dropped.  The turn is one step here: what another thread sees between
    two of its statements is no state of the model. *)
| step_submit d job jid rest :
    download_queue d = (job, jid) :: rest ->
    let d' :=
      {| download_queue := rest;
         work_queue := work_queue d ++ [(job, jid)];
         running := running d;
         active_downloads := {[jid]} ∪ active_downloads d;
         db := db d;
         lastrowid := lastrowid d |} in
    step d
      {| download_queue := download_queue d';
         work_queue := work_queue d';
         running := running d';
         active_downloads :=
           filter (fun j => done d' j = false) (active_downloads d');
         db := db d';
         lastrowid := lastrowid d' |}
(** A free thread of the pool takes the next work item and enters
    [download_with_progress]; the pool has [max_workers] threads. *)
| step_start d job jid rest now r :
    work_queue d = (job, jid) :: rest ->
    (length (running d) < max_workers)%nat ->
    step d
      {| download_queue := download_queue d;
         work_queue := rest;
         running := running d ++
           [ {| job_id := jid;
                todo := fst (download_with_progress now r) |} ];
         active_downloads := active_downloads d;
         db := db d;
         lastrowid := lastrowid d |}
(** A worker makes its next [update_job] call. *)
| step_update d ws1 jid u us ws2 :
    running d = ws1 ++ {| job_id := jid; todo := u :: us |} :: ws2 ->
    step d
      {| download_queue := download_queue d;
         work_queue := work_queue d;
         running := ws1 ++ {| job_id := jid; todo := us |} :: ws2;
         active_downloads := active_downloads d;
         db := update_job (db d) jid u;
         lastrowid := lastrowid d |}
(** A worker returns from [download_with_progress]; its thread is
    free again. *)
| step_return d ws1 jid ws2 :
    running d = ws1 ++ {| job_id := jid; todo := [] |} :: ws2 ->
    step d
      {| download_queue := download_queue d;
         work_queue := work_queue d;
         running := ws1 ++ ws2;
         active_downloads := active_downloads d;
         db := db d;
         lastrowid := lastrowid d |}.

(** The states the downloader can be in. *)
Inductive reachable : downloader -> Prop :=
| reach_init : reachable init
| reach_step d d' : reachable d -> step d d' -> reachable d'.

End Pool.

(** The status of a row is downloading. *)
Definition is_downloading (r : row) : bool :=
  eqb (row_status r) (L "downloading").

(** The number of jobs whose status is downloading. *)
Definition downloading_count (d : downloader) : nat :=
  size (filter (fun kv => is_downloading (snd kv) = true) (db d)).

(** [get_queue_status] *)
Record queue_status := {
  queue_size : nat;
  active_count : nat;
  total_capacity : nat
}.

Definition get_queue_status (max_workers : nat) (d : downloader)
  : queue_status :=
  {| queue_size := length (download_queue d);
     active_count := size (active_downloads d);
     total_capacity := max_workers |}.

End AdvancedYouTubeDownloader.

(** ** app/models/downloads.py and app/api/downloads.py *)

Module DownloadsApi.

(** [DownloadStatus] *)
Inductive DownloadStatus :=
| PENDING | QUEUED | DOWNLOADING | PROCESSING
| COMPLETED | FAILED | CANCELLED | PAUSED.

(** The columns of [Download] the retry endpoint reads or writes, and
    the identity of the record; it touches no other column. *)
Record Download := {
  id : Z;
  url : str;
  status : DownloadStatus;
  progress : pyfloat;
  error_message : option str;
  priority : Z;
  retry_count : Z;
  max_retries : Z;
  updated_at : timestamp
}.

(** What an endpoint answers. *)
Inductive response :=
| HTTP404                                   (* Download not found *)
| HTTP400                                   (* Can only retry failed or
                                               cancelled downloads *)
| HTTP500                                   (* an exception other than
                                               [HTTPException] leaves the
                                               endpoint *)
| OK (d : Download).

(** [Download.video_metadata]: the class [Download] of
    app/models/downloads.py has no attribute of that name, its
    relationships being [metadata], [files] and [user]; reading it raises
    [AttributeError]. *)
Definition Download_video_metadata : unit + pyexc :=
  inr (AttributeError
         (L "type object 'Download' has no attribute 'video_metadata'")).

(** [_get_download_with_relations]: the options of the query,
    [selectinload(Download.video_metadata)] the first, are evaluated
    before the query is run. *)
Definition _get_download_with_relations (table : gmap Z Download)
    (download_id : Z) : option Download + pyexc :=
  match Download_video_metadata with
  | inr e => inr e
  | inl _ => inl (table !! download_id)
  end.

(** [return await _get_download_with_relations(db, download_id)] at the
    end of an endpoint that has committed [table]: the response, and the
    background tasks that run.  The tasks added to [background_tasks] run
    after the response has been sent; when an exception leaves the
    endpoint there is no such response and they do not run.  [None] is no
    [DownloadResponse], so returning it fails as well. *)
Definition respond (table : gmap Z Download) (background_tasks : list Z)
    (download_id : Z) : list Z * response :=
  match _get_download_with_relations table download_id with
  | inl (Some download) => (background_tasks, OK download)
  | inl None => ([], HTTP500)
  | inr _ => ([], HTTP500)
  end.



End DownloadsApi.

(** ** app/core/redis_client.py: the module and its other operations *)

Module RedisClient.
Import RedisManager.

(** The two places a connection is kept in: the global [redis_client]
    and the attribute [client] of the global [redis_manager]; [false]
    is [None]. *)
Record globals := {
  redis_client : bool;
  redis_manager_client : bool
}.

(** The module body, run once when the module is imported:
    [redis_client = None] and, at the end,
    [redis_manager = RedisManager()], whose [__init__] copies the
    global as it is then. *)
Definition import_module : globals :=
  let redis_client := false in
  {| redis_client := redis_client; redis_manager_client := redis_client |}.

(** [init_redis]: the global is bound anew, to the connection when
    [from_url] and [ping] succeed and to [None] when they raise. *)
Definition init_redis (connects : bool) (g : globals) : globals :=
  {| redis_client := connects;
     redis_manager_client := redis_manager_client g |}.

(** [get_redis] *)
Definition get_redis (g : globals) : bool := redis_client g.

(** [pop_from_queue]: [BRPOP] takes the item at the tail of the list
    and removes a list that becomes empty; on an empty queue the call
    times out, no other client pushing in between. *)
Definition pop_from_queue (r : redis) (queue_name : str)
  : redis * option (Z * timestamp) :=
  if client r
  then match default [] (lists r !! queue_name) with
       | [] => (r, None)
       | x :: l =>
           ({| client := true;
               kv := kv r;
               lists := match List.removelast (x :: l) with
                        | [] => base.delete queue_name (lists r)
                        | rest => <[queue_name := rest]> (lists r)
                        end |},
            Some (List.last l x))
       end
  else (r, None).

End RedisClient.

(** ** app/services/download_service.py: reading the progress *)

Module DownloadServiceQueries.
Import PyStr RedisManager DownloadService.

(** [get_download_progress]: the dictionary stored under the status
    key and, when a dictionary is stored under the speed key, the entry
    [current_speed] added to it, which is that dictionary's [speed] or
    [None]. *)
Definition get_download_progress (r : redis) (download_id : Z)
  : option (value * option (option pyfloat)) :=
  let status_data := get r (status_key download_id) in
  let speed_data := get r (speed_key download_id) in
  match status_data with
  | Some data =>
      Some (data,
            match speed_data with
            | Some (VSpeed speed _) => Some (Some speed)
            | Some (VStatus _) => Some None
            | None => None
            end)
  | None => None
  end.

End DownloadServiceQueries.

(** ** app/api/downloads.py: the other endpoints *)

Module DownloadsEndpoints.
Import RedisManager DownloadServiceRun DownloadsApi.


(** [download.status in [PENDING, QUEUED, DOWNLOADING]] *)
Definition cancellable (s : DownloadStatus) : bool :=
  match s with
  | PENDING | QUEUED | DOWNLOADING => true
  | _ => false
  end.

(** [cancel_download], the endpoint: the tasks of the service and the
    calls it made on Redis at time [now], the table and the response at
    time [now']; [None] while the service's [cancel_download] has not
    returned after [fuel] ticks.  The change of the status is committed
    before the response is built. *)
Definition cancel_download (fuel : nat) (now now' : timestamp)
    (a : active) (table : gmap Z Download) (download_id : Z)
  : option (active * list set_call * gmap Z Download * response) :=
  match table !! download_id with
  | None => Some (a, [], table, HTTP404)
  | Some download =>
      if cancellable (status download) then
        match DownloadServiceRun.cancel_download fuel now download_id a with
        | Some (a', cs, _, _) =>
            let download' :=
              {| id := id download;
                 url := url download;
                 status := CANCELLED;
                 progress := progress download;
                 error_message := error_message download;
                 priority := priority download;
                 retry_count := retry_count download;
                 max_retries := max_retries download;
                 updated_at := now' |} in
            let committed := <[download_id := download']> table in
            Some (a', cs, committed, snd (respond committed [] download_id))
        | None => None
        end
      else Some (a, [], table, HTTP400)
  end.

End DownloadsEndpoints.

(** ** download_playlist.py *)

Module DownloadPlaylist.
Import PyStr.

(** [if fps] *)
Definition true_i (o : option Z) : bool :=
  match o with
  | Some n => negb (n =? 0)
  | None => false
  end.

(** [fps_filter] of [download_video] *)
Definition fps_filter (fps : option Z) : str :=
  if true_i fps then L "[fps=" ++ of_int (default 0 fps) ++ L "]" else [].

(** [format_string] of [download_video] *)
Definition format_string (resolution video_format : str) (fps : option Z)
  : str :=
  L "bestvideo[height<=" ++ resolution ++ L "]" ++ fps_filter fps
    ++ L "[ext=" ++ video_format ++ L "]+bestaudio[ext=m4a]/"
  ++ L "bestvideo[height<=" ++ resolution ++ L "]" ++ fps_filter fps
    ++ L "+bestaudio[ext=m4a]/"
  ++ L "bestvideo[height<=" ++ resolution ++ L "][ext=" ++ video_format
    ++ L "]+bestaudio[ext=m4a]/"
  ++ L "bestvideo[height<=" ++ resolution ++ L "]+bestaudio[ext=m4a]/"
  ++ L "best[height<=" ++ resolution ++ L "]" ++ fps_filter fps ++ L "/"
  ++ L "best[height<=" ++ resolution ++ L "]".

(** The arguments of [download_video] that enter the command. *)
Record task := {
  video_url_or_id : str;
  output_dir : str;
  resolution : str;
  video_format : str;
  fps : option Z;
  verbose : bool
}.

(** [video_url] of [download_video] *)
Definition video_url (t : task) : str :=
  if contains (L "://") (video_url_or_id t) then video_url_or_id t
  else L "https://www.youtube.com/watch?v=" ++ video_url_or_id t.

(** [command] of [download_video] *)
Definition command (t : task) : list str :=
  [L "yt-dlp";
   L "-f"; format_string (resolution t) (video_format t) (fps t);
   L "-o"; AdvancedYouTubeDownloader.os_path_join (output_dir t)
             (L "%(title)s.%(ext)s");
   L "--merge-output-format"; video_format t]
  ++ [L "--no-playlist"]
  ++ (if verbose t then [] else [L "--quiet"; L "--progress"])
  ++ [video_url t].

(** How [subprocess.run(command, check=True)] ends. *)
Inductive ran :=
| Exited (code : Z)            (* [CalledProcessError] unless 0 *)
| NotStarted (message : str).  (* any other exception *)

(** [download_video]: [inr] is the exception it raises again. *)
Definition download_video (ignore_errors : bool) (r : ran) : bool + ran :=
  match r with
  | Exited 0 => inl true
  | _ => if ignore_errors then inl false else inr r
  end.

(** The loop of [main] over the futures, in submission order:
    [successful_downloads] and [failed_downloads]. *)
Fixpoint tally (ignore_errors : bool) (futures : list (bool + ran))
    (successful failed : nat) : nat * nat :=
  match futures with
  | [] => (successful, failed)
  | inl true :: rest => tally ignore_errors rest (S successful) failed
  | inl false :: rest => tally ignore_errors rest successful (S failed)
  | inr _ :: rest =>
      if ignore_errors then tally ignore_errors rest successful (S failed)
      else (successful, S failed)
  end.

(** [main] from the futures on: every task runs [download_video]. *)
Definition session (ignore_errors : bool) (runs : list ran) : nat * nat :=
  tally ignore_errors (map (download_video ignore_errors) runs) 0 0.

End DownloadPlaylist.

(** * The terms of the properties

    What the statements below speak of: the tokens of a line, what a run
    publishes, the example tools and jobs the statements are tried on. *)

(** ** Terms for the queue-backed service *)

Module ServiceTerms.
Import PyStr RedisManager Subprocess DownloadService DownloadServiceRun.

(** A run of digits. *)
Definition digits (m : str) : Prop := Forall (fun c => is_digit c = true) m.

(** The unit letters of the speed pattern. *)
Definition is_unit (u : ascii) : Prop :=
  u = "K"%char \/ u = "M"%char \/ u = "G"%char.

(** The texts group 1 can hold: digits, an optional dot, digits. *)
Definition is_value (v : str) : Prop :=
  exists d1 dot d2,
    v = d1 ++ dot ++ d2 /\ d1 <> [] /\ digits d1 /\
    (dot = [] \/ dot = ["."%char]) /\ digits d2.

(** A transfer-rate token starts [s]: value [v], unit letter [u]. *)
Definition token_at (s v : str) (u : ascii) : Prop :=
  is_value v /\ is_unit u /\ exists post, s = v ++ u :: L "iB/s" ++ post.

(** No transfer-rate token starts inside [pre], read in front of [rest]. *)
Definition none_before (pre rest : str) : Prop :=
  forall p1 p2 v u, pre = p1 ++ p2 -> p2 <> [] -> ~ token_at (p2 ++ rest) v u.

(** [none_before], as a test. *)
Fixpoint no_match_before (pre rest : str) : bool :=
  match pre with
  | [] => true
  | _ :: pre' =>
      match match_here (pre ++ rest) with
      | Some _ => false
      | None => no_match_before pre' rest
      end
  end.

(** The characters of a value, which no unit letter is. *)
Definition value_char (c : ascii) : Prop := is_digit c = true \/ c = "."%char.

(** The percentage a white-space delimited part carries, if any: the part
    ends with a percent sign and is a float once its percent signs are
    removed. *)
Definition percent_token (part : str) : option pyfloat :=
  if endswith part (L "%") then PyFloat.of_str (remove_char "%" part)
  else None.

(** The percentage of the first part that carries one. *)
Fixpoint first_percent_token (parts : list str) : option pyfloat :=
  match parts with
  | [] => None
  | part :: rest =>
      match percent_token part with
      | Some p => Some p
      | None => first_percent_token rest
      end
  end.

(** The progress values of the downloading snapshots among the calls
    made. *)
Definition published_progress (cs : list set_call) : list pyfloat :=
  flat_map (fun c =>
    match val c with
    | VStatus sn =>
        if eqb (status sn) (L "downloading")
        then match progress sn with Some p => [p] | None => [] end
        else []
    | VSpeed _ _ => []
    end) cs.

(** The progress fields of all the status snapshots among the calls
    made, whatever their status. *)
Definition progress_fields (cs : list set_call) : list pyfloat :=
  flat_map (fun c =>
    match val c with
    | VStatus sn => match progress sn with Some p => [p] | None => [] end
    | VSpeed _ _ => []
    end) cs.

(** The speed values among the calls made. *)
Definition published_speed (cs : list set_call) : list pyfloat :=
  flat_map (fun c =>
    match val c with
    | VSpeed s _ => [s]
    | VStatus _ => []
    end) cs.

(** The lines [_execute_download] reads: those before a cancellation
    strikes, after [k] lines, and before the line of index [j], which
    cannot be read. *)
Definition lines_read (lines : list str) (cancel : option nat)
    (failing : option (nat * str)) : list str :=
  match cancel, failing with
  | Some k, Some (j, _) => firstn (Nat.min k j) lines
  | Some k, None => firstn k lines
  | None, Some (j, _) => firstn j lines
  | None, None => lines
  end.

(** How the reading ends: with the error of the line that cannot be read
    when there is such a line and no cancellation strikes before it is
    reached, else with the cancellation, if any. *)
Definition reading_ends (lines : list str) (cancel : option nat)
    (failing : option (nat * str)) : option pyexc :=
  match cancel, failing with
  | Some k, Some (j, message) =>
      if (j <? k)%nat && (j <? length lines)%nat
      then Some (ValueError message) else Some CancelledError
  | Some _, None => Some CancelledError
  | None, Some (j, message) =>
      if (j <? length lines)%nat then Some (ValueError message) else None
  | None, None => None
  end.

(** The percentage the tool reports on one line of its output: the line is
    tagged and [p] is its first percent token. *)
Definition reported (line : str) : option pyfloat :=
  let line_str := strip line in
  if contains (L "[download]") line_str
  then first_percent_token (split line_str)
  else None.

(** The percentages reported on a list of lines, in order. *)
Definition reports (lines : list str) : list pyfloat :=
  flat_map (fun line =>
    match reported line with
    | Some p => [p]
    | None => []
    end) lines.

(** A tool that reports 50 percent and then 10 percent, and exits with
    code 0 two ticks later. *)
Definition fifty_then_ten : run :=
  {| spawn_error := None;
     output := [L "[download]  50.0% of 10.00MiB";
                L "[download]  10.0% of 10.00MiB"];
     proc := {| returncode := None; exits_in := Some (2%nat, 0);
                on_sigterm := Some (0%nat, -15); received := [] |};
     read_error := None;
     cancel_after := None |}.

(** The snapshot a call stores. *)
Definition stores (c : set_call) (sn : snapshot) : Prop := val c = VStatus sn.

(** The snapshot of a run that failed or was cancelled. *)
Definition terminal_failure (sn : snapshot) : Prop :=
  status sn = L "failed" \/ status sn = L "cancelled".

(** A tool that reports 50 percent and exits with code 1. *)
Definition half_then_fails : run :=
  {| spawn_error := None;
     output := [L "[download]  50.0% of 10.00MiB"];
     proc := {| returncode := None; exits_in := Some (1%nat, 1);
                on_sigterm := Some (0%nat, -15); received := [] |};
     read_error := None;
     cancel_after := None |}.

(** A tool that ignores SIGTERM and does not exit on its own. *)
Definition stubborn : process :=
  {| returncode := None; exits_in := None; on_sigterm := None;
     received := [] |}.

(** A tool that exits with code -15 two ticks after SIGTERM. *)
Definition obedient : process :=
  {| returncode := None; exits_in := None; on_sigterm := Some (2%nat, -15);
     received := [] |}.


End ServiceTerms.

(** ** Terms for the retry endpoint *)

Module ApiTerms.
Import DownloadsApi.


End ApiTerms.

(** ** Terms for the in-process downloader *)

Module DownloaderTerms.
Import PyStr AdvancedYouTubeDownloader.




(** A job as the command line creates it. *)
Definition a_job : DownloadJob :=
  {| url := L "https://youtu.be/dQw4w9WgXcQ"; output_dir := L "downloads";
     resolution := L "1080"; fps := None; format := L "mp4";
     audio_only := false; extract_audio := false; audio_format := L "mp3";
     subtitles := false; auto_subtitles := false; subtitle_langs := [L "en"];
     thumbnail := false; metadata := true; start_time := None;
     end_time := None; speed := None; playlist_start := None;
     playlist_end := None; status := L "pending"; progress := PFin 0;
     error_message := None; completed_at := None |}.

(** A tool that reports 50 percent and exits with code 0. *)
Definition a_run : run :=
  {| build_error := None; spawn_error := None;
     output := [L "[download]  50.0% of 10.00MiB"]; read_error := None;
     returncode := 0 |}.

(** The pool with that job taken by a thread and marked downloading. *)
Definition one_downloading : downloader :=
  {| download_queue := []; work_queue := [];
     running :=
       [ {| job_id := 1;
            todo := tl (fst (download_with_progress 0 a_run)) |} ];
     active_downloads := {[ 1 ]};
     db := {[ 1 := {| row_status := L "downloading";
                      row_progress := Some (PFin 0);
                      row_error_message := None;
                      row_completed_at := None |} ]};
     lastrowid := 1 |}.

End DownloaderTerms.

(** ** Terms for the command builders and the exit codes *)

Module CommonTerms.
Import PyStr.




(** The two flags. *)
Definition extract_flag : str := L "--extract-audio".
Definition remux_flag : str := L "--remux-video".

(** One of the two flags of the claim. *)
Definition flag (f : str) : Prop := f = extract_flag \/ f = remux_flag.

(** A text that is neither flag. *)
Definition plain (s : str) : Prop := s <> extract_flag /\ s <> remux_flag.

(** The texts a configuration passes to the tool as they are. *)
Definition service_free_text_plain (c : DownloadService.config) : Prop :=
  (forall u, DownloadService.url c = Some u -> plain u) /\
  plain (default (L "mp3") (DownloadService.audio_format c)) /\
  plain (default (L "mp4") (DownloadService.format c)) /\
  plain (join (L ",")
           (default [L "en"] (DownloadService.subtitle_languages c))).

(** The texts a job passes to the tool as they are. *)
Definition job_free_text_plain (job : AdvancedYouTubeDownloader.DownloadJob)
  : Prop :=
  plain (AdvancedYouTubeDownloader.url job) /\
  plain (AdvancedYouTubeDownloader.audio_format job) /\
  plain (AdvancedYouTubeDownloader.format job) /\
  plain (join (L ",") (AdvancedYouTubeDownloader.subtitle_langs job)).

(** The frame-rate filter for a frame rate that is given and not zero. *)
Definition fps_filter (f : option Z) : str :=
  match f with
  | Some n => if n =? 0 then [] else L "[fps<=" ++ of_int n ++ L "]"
  | None => []
  end.

(** The selector tried first: the best video stream within the height
    and frame-rate bounds, with the best audio stream. *)
Definition primary (q : str) (f : option Z) : str :=
  L "bestvideo[height<=" ++ q ++ L "]" ++ fps_filter f ++ L "+bestaudio".

(** The fallback: the best single file within the height bound. *)
Definition fallback (q : str) : str := L "best[height<=" ++ q ++ L "]".

(** A chain of at least two fallbacks behind the first selector. *)
Definition two_fallbacks (selector : str) : Prop :=
  exists first second third rest,
    split_on "/" selector = first :: second :: third :: rest.

(** Scenario B of the specification: quality 720, video, container mp4. *)
Definition scenario_b : DownloadService.config :=
  {| DownloadService.url := Some (L "https://youtu.be/dQw4w9WgXcQ");
     DownloadService.output_directory := None;
     DownloadService.audio_only := Some false;
     DownloadService.quality := Some (L "720");
     DownloadService.fps := None;
     DownloadService.extract_audio := None;
     DownloadService.audio_format := None;
     DownloadService.format := Some (L "mp4");
     DownloadService.include_subtitles := None;
     DownloadService.subtitle_languages := None;
     DownloadService.auto_subtitles := None;
     DownloadService.include_thumbnail := None;
     DownloadService.include_metadata := None;
     DownloadService.start_time := None;
     DownloadService.end_time := None;
     DownloadService.playlist_start := None;
     DownloadService.playlist_end := None |}.

(** A request for the video behind [u] at quality 720 in an mp4
    container, with given values of audio_only and extract_audio. *)
Definition request (u : str) (audio extract : option bool)
  : DownloadService.config :=
  {| DownloadService.url := Some u;
     DownloadService.output_directory := None;
     DownloadService.audio_only := audio;
     DownloadService.quality := Some (L "720");
     DownloadService.fps := None;
     DownloadService.extract_audio := extract;
     DownloadService.audio_format := None;
     DownloadService.format := Some (L "mp4");
     DownloadService.include_subtitles := None;
     DownloadService.subtitle_languages := None;
     DownloadService.auto_subtitles := None;
     DownloadService.include_thumbnail := None;
     DownloadService.include_metadata := None;
     DownloadService.start_time := None;
     DownloadService.end_time := None;
     DownloadService.playlist_start := None;
     DownloadService.playlist_end := None |}.

(** A request for the audio only. *)
Definition audio_request : DownloadService.config :=
  request (L "https://youtu.be/dQw4w9WgXcQ") (Some true) None.

(** A request for a video whose audio is to be extracted. *)
Definition extract_request : DownloadService.config :=
  request (L "https://youtu.be/dQw4w9WgXcQ") (Some false) (Some true).

(** A request whose URL is the text of the extraction flag, with
    extract_audio not set. *)
Definition flag_as_url : DownloadService.config :=
  request extract_flag (Some false) None.

(** The command the service builds for scenario B. *)
Definition scenario_b_command : list str :=
  map L [ "yt-dlp"; "-o"; "downloads/%(title)s.%(ext)s"; "-f";
          "bestvideo[height<=720]+bestaudio/best[height<=720]";
          "--remux-video"; "mp4"; "--write-info-json"; "--write-description";
          "--embed-chapters"; "--ignore-errors"; "--no-warnings";
          "--progress"; "--newline"; "https://youtu.be/dQw4w9WgXcQ" ]%string.

End CommonTerms.

(** ** Terms for texts *)

Module TextTerms.
Import PyStr.

(** The number a run of digits denotes. *)
Definition value_of (s : str) : Z :=
  fold_left (fun a c => a * 10 + digit_val c) s 0.

(** The text behind the first dot. *)
Fixpoint behind_dot (s : str) : str :=
  match s with
  | [] => []
  | c :: s' => if Ascii.eqb c "." then s' else behind_dot s'
  end.

(** The number a value denotes: the number its digits spell, the dot
    left out, over ten to the number of digits behind the dot. *)
Definition decimal (v : str) : Q :=
  inject_Z (value_of (remove_char "." v))
  / inject_Z (10 ^ Z.of_nat (length (behind_dot v))).

(** A text of white space. *)
Definition spaces (s : str) : Prop := Forall (fun c => is_space c = true) s.

(** A text without white space. *)
Definition no_space (s : str) : Prop := Forall (fun c => is_space c = false) s.

(** A text without a slash. *)
Definition no_slash (s : str) : Prop := ~ In "/"%char s.

End TextTerms.

(** ** Terms for the store and the queue *)

Module StoreTerms.
Import PyStr RedisManager RedisClient DownloadService DownloadServiceRun.

(** The items of a queue, the oldest first. *)
Definition queued (r : redis) (queue_name : str) : list (Z * timestamp) :=
  rev (default [] (lists r !! queue_name)).

(** The items are pushed one after the other. *)
Definition push_all (r : redis) (queue_name : str)
    (items : list (Z * timestamp)) : redis :=
  fold_left (fun r item => fst (push_to_queue r queue_name item)) items r.

(** [n] calls of [pop_from_queue]: the server after them and what they
    returned, in order. *)
Fixpoint pop_n (n : nat) (r : redis) (queue_name : str)
  : redis * list (option (Z * timestamp)) :=
  match n with
  | O => (r, [])
  | S n' =>
      let '(r1, item) := pop_from_queue r queue_name in
      let '(r2, rest) := pop_n n' r1 queue_name in
      (r2, item :: rest)
  end.

(** The module after it is imported and [init_redis] has run once for
    each element of [attempts]. *)
Definition after_startup (attempts : list bool) : globals :=
  fold_left (fun g connects => init_redis connects g) attempts import_module.

(** The service after a list of events, from any state. *)
Definition run_from (now : timestamp) (s : service) (es : list event)
  : service :=
  fold_left (step now) es s.

(** The download ids handed to [queue_download] among the events. *)
Definition queued_ids (es : list event) : list Z :=
  flat_map (fun e =>
    match e with
    | QueueDownload i => [i]
    | _ => []
    end) es.

End StoreTerms.

(** ** Terms for the reader of the progress *)

Module ReaderTerms.
Import PyStr RedisManager DownloadService.

(** A call of the parser for job [i] at time [now]: a downloading
    snapshot or a speed sample. *)
Definition parser_call (now : timestamp) (i : Z) (c : set_call) : Prop :=
  (exists p, In c (_update_download_progress now i p)) \/
  (exists s, In c (_update_download_speed now i s)).

(** The statuses a run ends with. *)
Definition terminal (st : str) : Prop :=
  st = L "completed" \/ st = L "failed" \/ st = L "cancelled".


End ReaderTerms.

(** ** Terms for the ids of the in-process downloader *)

Module PoolTerms.
Import PyStr AdvancedYouTubeDownloader.

(** The ids of the jobs that wait for a thread: those handed to the
    pool first, then those still on the queue, each in order of
    arrival. *)
Definition waiting (d : downloader) : list Z :=
  map snd (work_queue d ++ download_queue d).

(** The number of jobs a thread has taken so far. *)
Definition started (d : downloader) : Z :=
  lastrowid d - Z.of_nat (length (waiting d)).

(** The ids of the jobs the threads are busy with. *)
Definition in_hand (d : downloader) : list Z := map job_id (running d).

(** What holds of the ids at every reachable state. *)
Definition ids_invariant (d : downloader) : Prop :=
  0 <= started d /\
  waiting d = seqZ (started d + 1) (Z.of_nat (length (waiting d))) /\
  Forall (fun j => 1 <= j <= started d) (in_hand d) /\
  NoDup (in_hand d) /\
  (forall j, is_Some (db d !! j) <-> 1 <= j <= lastrowid d) /\
  (forall j, In j (map snd (work_queue d)) \/ In j (in_hand d) ->
             j ∈ active_downloads d) /\
  (active_downloads d = ∅ ->
   lastrowid d = Z.of_nat (length (download_queue d))).

End PoolTerms.

(** ** Terms for the rows of the in-process downloader *)

Module RowTerms.
Import PyStr AdvancedYouTubeDownloader.

(** The row after a list of [update_job] calls, made in order. *)
Definition apply_updates (us : list db_update) (r : row) : row :=
  fold_left (fun r u => update_row u r) us r.

(** The percentages the in-process downloader records for a list of
    output lines, in order. *)
Definition recorded (lines : list str) : list pyfloat :=
  flat_map (fun line =>
    flat_map (fun u =>
      match set_progress u with
      | Some p => [p]
      | None => []
      end) (line_update line)) lines.

(** The lines of the output the in-process downloader reads: those
    before the line that cannot be decoded, if there is one. *)
Definition lines_seen (r : run) : list str :=
  match read_error r with
  | Some (j, _) => firstn j (output r)
  | None => output r
  end.

(** A tool that reports not a number as its percentage and exits with
    code 1. *)
Definition nan_then_fails : run :=
  {| build_error := None; spawn_error := None;
     output := [L "[download]  50.0% of 10.00MiB";
                L "[download]  nan% of Unknown size"];
     read_error := None; returncode := 1 |}.

(** A row as [add_download] inserts it for a job of the command line. *)
Definition pending_row : row :=
  {| row_status := L "pending"; row_progress := Some (PFin 0);
     row_error_message := None; row_completed_at := None |}.

(** The call that records a percentage. *)
Definition progress_update (p : pyfloat) : db_update :=
  {| set_status := None; set_progress := Some p;
     set_error_message := None; set_completed_at := None |}.

(** A part that ends with a percent sign and is no number without it. *)
Definition bad_percent_part (part : str) : Prop :=
  endswith part (L "%") = true /\
  PyFloat.of_str (remove_char "%" part) = None.

End RowTerms.

(** ** Terms for the comparison of the builders *)

Module BuilderTerms.
Import PyStr.

(** A configuration of the service and a job of the in-process
    downloader carry the same request: every option has the same
    value, once the defaults of the configuration are filled in. *)
Definition same_request (c : DownloadService.config)
    (job : AdvancedYouTubeDownloader.DownloadJob) : Prop :=
  DownloadService.url c = Some (AdvancedYouTubeDownloader.url job) /\
  default (L "downloads") (DownloadService.output_directory c)
    = AdvancedYouTubeDownloader.output_dir job /\
  DownloadService.true_b (DownloadService.audio_only c)
    = AdvancedYouTubeDownloader.audio_only job /\
  default (L "1080") (DownloadService.quality c)
    = AdvancedYouTubeDownloader.resolution job /\
  DownloadService.fps c = AdvancedYouTubeDownloader.fps job /\
  DownloadService.true_b (DownloadService.extract_audio c)
    = AdvancedYouTubeDownloader.extract_audio job /\
  default (L "mp3") (DownloadService.audio_format c)
    = AdvancedYouTubeDownloader.audio_format job /\
  default (L "mp4") (DownloadService.format c)
    = AdvancedYouTubeDownloader.format job /\
  DownloadService.true_b (DownloadService.include_subtitles c)
    = AdvancedYouTubeDownloader.subtitles job /\
  default [L "en"] (DownloadService.subtitle_languages c)
    = AdvancedYouTubeDownloader.subtitle_langs job /\
  DownloadService.true_b (DownloadService.auto_subtitles c)
    = AdvancedYouTubeDownloader.auto_subtitles job /\
  DownloadService.true_b (DownloadService.include_thumbnail c)
    = AdvancedYouTubeDownloader.thumbnail job /\
  default true (DownloadService.include_metadata c)
    = AdvancedYouTubeDownloader.metadata job /\
  DownloadService.start_time c = AdvancedYouTubeDownloader.start_time job /\
  DownloadService.end_time c = AdvancedYouTubeDownloader.end_time job /\
  DownloadService.playlist_start c
    = AdvancedYouTubeDownloader.playlist_start job /\
  DownloadService.playlist_end c
    = AdvancedYouTubeDownloader.playlist_end job.

(** A directory given by one relative name: not empty, no slash, not
    the dot. *)
Definition simple_dir (d : str) : Prop :=
  d <> [] /\ ~ In "/"%char d /\ d <> L ".".

(** The job of scenario B. *)
Definition scenario_b_job : AdvancedYouTubeDownloader.DownloadJob :=
  {| AdvancedYouTubeDownloader.url := L "https://youtu.be/dQw4w9WgXcQ";
     AdvancedYouTubeDownloader.output_dir := L "downloads";
     AdvancedYouTubeDownloader.resolution := L "720";
     AdvancedYouTubeDownloader.fps := None;
     AdvancedYouTubeDownloader.format := L "mp4";
     AdvancedYouTubeDownloader.audio_only := false;
     AdvancedYouTubeDownloader.extract_audio := false;
     AdvancedYouTubeDownloader.audio_format := L "mp3";
     AdvancedYouTubeDownloader.subtitles := false;
     AdvancedYouTubeDownloader.auto_subtitles := false;
     AdvancedYouTubeDownloader.subtitle_langs := [L "en"];
     AdvancedYouTubeDownloader.thumbnail := false;
     AdvancedYouTubeDownloader.metadata := true;
     AdvancedYouTubeDownloader.start_time := None;
     AdvancedYouTubeDownloader.end_time := None;
     AdvancedYouTubeDownloader.speed := None;
     AdvancedYouTubeDownloader.playlist_start := None;
     AdvancedYouTubeDownloader.playlist_end := None;
     AdvancedYouTubeDownloader.status := L "pending";
     AdvancedYouTubeDownloader.progress := PFin 0;
     AdvancedYouTubeDownloader.error_message := None;
     AdvancedYouTubeDownloader.completed_at := None |}.

End BuilderTerms.

(** ** Terms for the playlist script *)

Module PlaylistTerms.
Import PyStr DownloadPlaylist.

(** The six alternatives of the selector, in order. *)
Definition alternatives (q ext : str) (f : str) : list str :=
  [ L "bestvideo[height<=" ++ q ++ L "]" ++ f ++ L "[ext=" ++ ext
      ++ L "]+bestaudio[ext=m4a]";
    L "bestvideo[height<=" ++ q ++ L "]" ++ f ++ L "+bestaudio[ext=m4a]";
    L "bestvideo[height<=" ++ q ++ L "][ext=" ++ ext
      ++ L "]+bestaudio[ext=m4a]";
    L "bestvideo[height<=" ++ q ++ L "]+bestaudio[ext=m4a]";
    L "best[height<=" ++ q ++ L "]" ++ f;
    L "best[height<=" ++ q ++ L "]" ].

(** The runs that exit with code 0 before the first that does not. *)
Fixpoint leading_successes (runs : list ran) : nat :=
  match runs with
  | Exited 0 :: rest => S (leading_successes rest)
  | _ => O
  end.

(** The runs that exit with code 0. *)
Definition successes (runs : list ran) : nat :=
  length (List.filter (fun r => match r with Exited 0 => true | _ => false end)
                      runs).

End PlaylistTerms.

(** ** Example runs, events and records *)

Module ExampleTerms.
Import PyStr RedisManager Subprocess DownloadService DownloadServiceRun.
Import DownloadsApi.

(** A manager without a client. *)
Definition no_client : redis := {| client := false; kv := ∅; lists := ∅ |}.

(** A service without tasks whose manager is connected to a server that
    holds nothing. *)
Definition with_server : service :=
  {| active_downloads := ∅; store := connected |}.

(** A job is queued, spawned, reports once and exits with code 0. *)
Definition a_session : list event :=
  [ QueueDownload 1; Spawn 1 ServiceTerms.obedient;
    OutputLine 1 (L "[download]  50.0% of 10.00MiB at 1.5MiB/s");
    Exit 1 0 ].

(** A tool that reports 50 percent at 1.5 MiB/s and exits with code 0. *)
Definition with_speed : run :=
  {| spawn_error := None;
     output := [L "[download]  50.0% of 10.00MiB at 1.5MiB/s"];
     proc := {| returncode := None; exits_in := Some (1%nat, 0);
                on_sigterm := Some (0%nat, -15); received := [] |};
     read_error := None;
     cancel_after := None |}.


(** A download record with a given id and status. *)
Definition a_download (i : Z) (st : DownloadStatus) : Download :=
  {| id := i; url := L "https://youtu.be/dQw4w9WgXcQ"; status := st;
     progress := PFin 40; error_message := None;
     priority := 0; retry_count := 0; max_retries := 3; updated_at := 0 |}.

End ExampleTerms.

(** * Properties *)

(** ** Strings *)

Module PyStrFacts.
Import PyStr.

Lemma startswith_app (p r : str) : startswith (p ++ r) p = true.
Proof.
  induction p as [|x p IH]; simpl; [reflexivity|].
  rewrite Ascii.eqb_refl. exact IH.
Qed.

Lemma startswith_inv (s p : str) :
  startswith s p = true -> exists r, s = p ++ r.
Proof.
  revert s. induction p as [|x p IH]; intros s H; simpl in *.
  - exists s. reflexivity.
  - destruct s as [|y s]; [discriminate|].
    apply andb_true_iff in H as [Hxy Hp].
    apply Ascii.eqb_eq in Hxy. subst y.
    destruct (IH _ Hp) as [r ->]. exists r. reflexivity.
Qed.

Lemma contains_inv (sub s : str) :
  contains sub s = true -> exists pre post, s = pre ++ sub ++ post.
Proof.
  induction s as [|c s IH]; simpl; intros H.
  - apply orb_true_iff in H as [H|H]; [|discriminate].
    apply startswith_inv in H as [r ->]. exists [], r. reflexivity.
  - apply orb_true_iff in H as [H|H].
    + apply startswith_inv in H as [r ->]. exists [], r. reflexivity.
    + destruct (IH H) as (pre & post & ->). exists (c :: pre), post.
      reflexivity.
Qed.

Lemma contains_head (sub s : str) :
  startswith s sub = true -> contains sub s = true.
Proof. intros H. destruct s; simpl; rewrite H; reflexivity. Qed.

Lemma contains_app (sub pre post : str) :
  contains sub (pre ++ sub ++ post) = true.
Proof.
  induction pre as [|c pre IH]; simpl.
  - apply contains_head, startswith_app.
  - rewrite IH. apply orb_true_r.
Qed.

Lemma eqb_eq (a b : str) : eqb a b = true <-> a = b.
Proof.
  revert b. induction a as [|x a IH]; intros [|y b]; simpl;
    try (split; [discriminate|discriminate]); [tauto|].
  rewrite andb_true_iff, Ascii.eqb_eq, IH. split.
  - intros [-> ->]. reflexivity.
  - intros [= -> ->]. tauto.
Qed.

Lemma eqb_refl (a : str) : eqb a a = true.
Proof. apply eqb_eq. reflexivity. Qed.

Lemma eqb_neq (a b : str) : eqb a b = false <-> a <> b.
Proof.
  rewrite <- eqb_eq. destruct (eqb a b); split; congruence.
Qed.

End PyStrFacts.

(** ** The speed pattern *)

Module SpeedPattern.
Import PyStr DownloadService ServiceTerms.

Section Matcher.
Context {R : Type}.
Implicit Types (k : str -> str -> option R).

Lemma star_digit_sound s k x :
  star_digit s k = Some x ->
  exists m r, s = m ++ r /\ digits m /\ k m r = Some x.
Proof.
  revert k. induction s as [|c s IH]; intros k H; simpl in H.
  - exists [], []. repeat split; [constructor | exact H].
  - destruct (is_digit c) eqn:Hc.
    + destruct (star_digit s _) as [y|] eqn:Hs.
      * injection H as ->.
        apply IH in Hs as (m & r & -> & Hm & Hk).
        exists (c :: m), r. repeat split; [constructor; assumption | exact Hk].
      * exists [], (c :: s). repeat split; [constructor | exact H].
    + exists [], (c :: s). repeat split; [constructor | exact H].
Qed.

Lemma star_digit_complete m r k :
  digits m -> is_Some (k m r) -> is_Some (star_digit (m ++ r) k).
Proof.
  revert k. induction m as [|c m IH]; intros k Hm Hk; simpl.
  - destruct r as [|c r]; simpl; [exact Hk|].
    destruct (is_digit c); [|exact Hk].
    destruct (star_digit r _); [eexists; reflexivity | exact Hk].
  - inversion Hm as [|? ? Hc Hm']; subst. rewrite Hc.
    destruct (IH (fun m0 r0 => k (c :: m0) r0) Hm' Hk) as [y ->].
    eexists; reflexivity.
Qed.

Lemma plus_digit_sound s k x :
  plus_digit s k = Some x ->
  exists m r, s = m ++ r /\ m <> [] /\ digits m /\ k m r = Some x.
Proof.
  destruct s as [|c s]; simpl; [discriminate|].
  destruct (is_digit c) eqn:Hc; [|discriminate].
  intros H. apply star_digit_sound in H as (m & r & -> & Hm & Hk).
  exists (c :: m), r.
  repeat split; [discriminate | constructor; assumption | exact Hk].
Qed.

Lemma plus_digit_complete m r k :
  m <> [] -> digits m -> is_Some (k m r) -> is_Some (plus_digit (m ++ r) k).
Proof.
  destruct m as [|c m]; [congruence|]. intros _ Hm Hk.
  inversion Hm as [|? ? Hc Hm']; subst. simpl. rewrite Hc.
  apply (star_digit_complete m r (fun m0 r0 => k (c :: m0) r0)); assumption.
Qed.

Lemma opt_dot_sound s k x :
  opt_dot s k = Some x ->
  exists m r, s = m ++ r /\ (m = [] \/ m = ["."%char]) /\ k m r = Some x.
Proof.
  destruct s as [|c s]; simpl.
  - intros H. exists [], []. auto.
  - destruct (Ascii.eqb c ".") eqn:Hc.
    + apply Ascii.eqb_eq in Hc. subst c.
      destruct (k ["."%char] s) as [y|] eqn:Hk.
      * intros [= ->]. exists ["."%char], s. auto.
      * intros H. exists [], ("."%char :: s). auto.
    + intros H. exists [], (c :: s). auto.
Qed.

Lemma opt_dot_complete m r k :
  (m = [] \/ m = ["."%char]) -> is_Some (k m r) -> is_Some (opt_dot (m ++ r) k).
Proof.
  intros [-> | ->] Hk; simpl.
  - destruct r as [|c r]; simpl; [exact Hk|].
    destruct (Ascii.eqb c "."); [|exact Hk].
    destruct (k _ r); [eexists; reflexivity | exact Hk].
  - destruct Hk as [y ->]. eexists; reflexivity.
Qed.

End Matcher.

Lemma unit_eqb u :
  Ascii.eqb u "K" || Ascii.eqb u "M" || Ascii.eqb u "G" = true <-> is_unit u.
Proof.
  unfold is_unit. rewrite !orb_true_iff, !Ascii.eqb_eq. tauto.
Qed.

Lemma match_here_sound s v u : match_here s = Some (v, u) -> token_at s v u.
Proof.
  unfold match_here. intros H.
  apply plus_digit_sound in H as (m1 & r1 & -> & Hne & Hm1 & H).
  apply opt_dot_sound in H as (m2 & r2 & -> & Hm2 & H).
  apply star_digit_sound in H as (m3 & r3 & -> & Hm3 & H).
  unfold unit_letter in H.
  destruct r3 as [|c r4]; [discriminate|].
  destruct (Ascii.eqb c "K" || Ascii.eqb c "M" || Ascii.eqb c "G") eqn:Hu;
    [|discriminate].
  destruct (startswith r4 (L "iB/s")) eqn:Hs; [|discriminate].
  injection H as <- <-.
  apply unit_eqb in Hu. apply PyStrFacts.startswith_inv in Hs as [post ->].
  split; [|split].
  - exists m1, m2, m3. auto.
  - exact Hu.
  - exists post. rewrite <- !app_assoc. reflexivity.
Qed.

Lemma match_here_complete s v u : token_at s v u -> is_Some (match_here s).
Proof.
  intros ((d1 & dot & d2 & -> & Hne & Hd1 & Hdot & Hd2) & Hu & post & ->).
  unfold match_here. rewrite <- !app_assoc.
  apply plus_digit_complete; [assumption..|].
  apply opt_dot_complete; [assumption|].
  apply star_digit_complete; [assumption|].
  unfold unit_letter. apply unit_eqb in Hu. rewrite Hu.
  rewrite (PyStrFacts.startswith_app (L "iB/s") post).
  eexists; reflexivity.
Qed.

Lemma value_chars v : is_value v -> Forall value_char v.
Proof.
  intros (d1 & dot & d2 & -> & _ & Hd1 & Hdot & Hd2).
  rewrite !Forall_app. repeat split.
  - eapply Forall_impl; [exact Hd1|]. intros c Hc. left. exact Hc.
  - destruct Hdot as [-> | ->]; [constructor|].
    constructor; [right; reflexivity | constructor].
  - eapply Forall_impl; [exact Hd2|]. intros c Hc. left. exact Hc.
Qed.

Lemma unit_not_value u : is_unit u -> ~ value_char u.
Proof. intros [-> | [-> | ->]] [H | H]; discriminate. Qed.

Lemma split_unique {A} (P : A -> Prop) a a' x x' (r r' : list A) :
  Forall P a -> Forall P a' -> ~ P x -> ~ P x' ->
  a ++ x :: r = a' ++ x' :: r' -> a = a' /\ x = x' /\ r = r'.
Proof.
  intros Ha. revert a'. induction Ha as [|y a Hy Ha IH];
    intros a' Ha' Hx Hx' E.
  - destruct Ha' as [|y' a' Hy' Ha']; simpl in E.
    + injection E as -> ->. auto.
    + injection E as -> _. contradiction.
  - destruct Ha' as [|y' a' Hy' Ha']; simpl in E.
    + injection E as -> _. contradiction.
    + injection E as -> E. destruct (IH a' Ha' Hx Hx' E) as (-> & -> & ->).
      auto.
Qed.

Lemma token_unique s v u v' u' :
  token_at s v u -> token_at s v' u' -> v = v' /\ u = u'.
Proof.
  intros (Hv & Hu & post & ->) (Hv' & Hu' & post' & E).
  apply (split_unique value_char) in E as (-> & -> & _);
    auto using value_chars, unit_not_value.
Qed.

Lemma match_here_token s v u : match_here s = Some (v, u) <-> token_at s v u.
Proof.
  split; [apply match_here_sound|].
  intros H. destruct (match_here_complete _ _ _ H) as [[v' u'] E].
  rewrite E. apply match_here_sound in E.
  destruct (token_unique _ _ _ _ _ H E) as [-> ->]. reflexivity.
Qed.

Lemma match_here_none s : match_here s = None <-> forall v u, ~ token_at s v u.
Proof.
  split.
  - intros E v u H. apply match_here_token in H. congruence.
  - intros H. destruct (match_here s) as [[v u]|] eqn:E; [|reflexivity].
    apply match_here_token in E. destruct (H _ _ E).
Qed.

Lemma no_match_before_sound pre rest :
  no_match_before pre rest = true -> none_before pre rest.
Proof.
  induction pre as [|c pre IH]; intros H p1 p2 v u E Hp2.
  - destruct p1, p2; try discriminate E. congruence.
  - cbn [no_match_before] in H.
    destruct (match_here ((c :: pre) ++ rest)) eqn:Em; [discriminate H|].
    destruct p1 as [|x p1]; cbn [app] in E.
    + subst p2. apply match_here_none. exact Em.
    + injection E as _ E. exact (IH H p1 p2 v u E Hp2).
Qed.

(** [re.search] finds the leftmost token. *)
Lemma re_search_leftmost pre rest v u :
  none_before pre rest -> token_at rest v u ->
  re_search (pre ++ rest) = Some (v, u).
Proof.
  induction pre as [|c pre IH]; intros Hnone Htok; cbn [app re_search].
  - apply match_here_token in Htok. destruct rest; cbn [re_search];
      rewrite Htok; reflexivity.
  - replace (match_here (c :: pre ++ rest)) with (@None (str * ascii)).
    + apply IH; [|exact Htok].
      intros p1 p2 v' u' -> Hp2.
      apply (Hnone (c :: p1) p2); [reflexivity|exact Hp2].
    + symmetry. apply match_here_none. intros v' u'.
      apply (Hnone [] (c :: pre)); [reflexivity|discriminate].
Qed.

Lemma re_search_sound s v u :
  re_search s = Some (v, u) ->
  exists pre rest, s = pre ++ rest /\ token_at rest v u.
Proof.
  induction s as [|c s IH]; cbn [re_search].
  - destruct (match_here []) as [g|] eqn:E; [|discriminate].
    intros [= ->]. exists [], []. split; [reflexivity|].
    apply match_here_token, E.
  - destruct (match_here (c :: s)) as [g|] eqn:E.
    + intros [= ->]. exists [], (c :: s). split; [reflexivity|].
      apply match_here_token, E.
    + intros H. destruct (IH H) as (pre & rest & -> & Ht).
      exists (c :: pre), rest. auto.
Qed.

End SpeedPattern.

(** ** Digits and floats *)

Module PyFloatFacts.
Import PyStr PyFloat SpeedPattern ServiceTerms TextTerms.

Lemma digit_cases c :
  is_digit c = true ->
  In c [ "0"; "1"; "2"; "3"; "4"; "5"; "6"; "7"; "8"; "9" ]%char.
Proof.
  destruct c as [[] [] [] [] [] [] [] []]; intros H;
    try discriminate H; simpl; tauto.
Qed.

Ltac by_digit c H :=
  apply digit_cases in H; simpl in H;
  repeat (destruct H as [<- | H]; [reflexivity|]); destruct H.

Lemma digit_not_space c : is_digit c = true -> is_space c = false.
Proof. intros H. by_digit c H. Qed.

Lemma digit_lower c : is_digit c = true -> lower c = c.
Proof. intros H. by_digit c H. Qed.

Lemma digit_not_sign c :
  is_digit c = true -> Ascii.eqb c "-" = false /\ Ascii.eqb c "+" = false.
Proof. intros H. split; by_digit c H. Qed.

Lemma digit_not_letter c :
  is_digit c = true -> Ascii.eqb c "i" = false /\ Ascii.eqb c "n" = false.
Proof. intros H. split; by_digit c H. Qed.

Lemma value_char_not_space c : value_char c -> is_space c = false.
Proof. intros [H | ->]; [apply digit_not_space, H | reflexivity]. Qed.

Lemma lstrip_head c s : is_space c = false -> lstrip (c :: s) = c :: s.
Proof. intros H. simpl. rewrite H. reflexivity. Qed.

(** A text without white space at either end is its own [strip]. *)
Lemma strip_id s :
  Forall (fun c => is_space c = false) s -> strip s = s.
Proof.
  intros H. unfold strip.
  assert (E : lstrip s = s).
  { destruct H as [|c s Hc Hs]; [reflexivity | apply lstrip_head, Hc]. }
  rewrite E.
  assert (Hr : Forall (fun c => is_space c = false) (rev s)).
  { apply List.Forall_forall. intros c Hc. apply in_rev in Hc.
    rewrite List.Forall_forall in H. apply H, Hc. }
  destruct (rev s) as [|c r] eqn:Er.
  - simpl. apply (f_equal (@rev ascii)) in Er.
    rewrite rev_involutive in Er. symmetry. exact Er.
  - inversion Hr as [|? ? Hc _]; subst.
    rewrite lstrip_head by exact Hc.
    rewrite <- Er. apply rev_involutive.
Qed.

(** The digits of a run, read onto [acc]. *)
Lemma digitpart_rest_digits ds rest acc n :
  digits ds -> (rest = [] \/ exists r, rest = "."%char :: r) ->
  digitpart_rest (ds ++ rest) acc n =
    (fold_left (fun a c => a * 10 + digit_val c) ds acc,
     (n + length ds)%nat, rest).
Proof.
  intros Hds Hrest. revert acc n.
  induction Hds as [|c ds Hc Hds IH]; intros acc n; simpl.
  - rewrite Nat.add_0_r. destruct Hrest as [-> | [r ->]]; reflexivity.
  - rewrite Hc, IH.
    replace (S n + length ds)%nat with (n + S (length ds))%nat by lia.
    reflexivity.
Qed.

Lemma digitpart_digits ds rest :
  ds <> [] -> digits ds -> (rest = [] \/ exists r, rest = "."%char :: r) ->
  digitpart (ds ++ rest) = Some (value_of ds, length ds, rest).
Proof.
  intros Hne Hds Hrest. destruct Hds as [|c ds Hc Hds]; [congruence|].
  simpl. rewrite Hc.
  rewrite (digitpart_rest_digits ds rest (digit_val c) 1 Hds Hrest).
  reflexivity.
Qed.

(** The two shapes of a value: digits alone, or digits, a dot, digits. *)
Lemma value_shape v :
  is_value v ->
  (v <> [] /\ digits v) \/
  (exists ds fs,
      v = ds ++ "."%char :: fs /\ ds <> [] /\ digits ds /\ digits fs).
Proof.
  intros (d1 & dot & d2 & -> & Hne & Hd1 & [-> | ->] & Hd2).
  - left. split.
    + destruct d1; [congruence | discriminate].
    + apply Forall_app. split; assumption.
  - right. exists d1, d2. auto.
Qed.

Lemma value_of_from s acc :
  fold_left (fun a c => a * 10 + digit_val c) s acc =
  acc * 10 ^ Z.of_nat (length s) + value_of s.
Proof.
  unfold value_of. revert acc. induction s as [|c s IH]; intros acc.
  - simpl. lia.
  - cbn [fold_left length]. rewrite IH, (IH (0 * 10 + digit_val c)).
    rewrite Nat2Z.inj_succ, Z.pow_succ_r by lia. ring.
Qed.

Lemma value_of_app a b :
  value_of (a ++ b) = value_of a * 10 ^ Z.of_nat (length b) + value_of b.
Proof.
  unfold value_of at 1. rewrite fold_left_app. apply value_of_from.
Qed.

Lemma digit_not_dot c : is_digit c = true -> Ascii.eqb c "." = false.
Proof. intros H. by_digit c H. Qed.

Lemma digits_remove_dot ds : digits ds -> remove_char "." ds = ds.
Proof.
  intros H. induction H as [|c ds Hc _ IH]; [reflexivity|].
  unfold remove_char in *. cbn [List.filter].
  rewrite (digit_not_dot c Hc). cbn [negb]. rewrite IH. reflexivity.
Qed.

Lemma digits_behind_dot ds rest :
  digits ds -> behind_dot (ds ++ rest) = behind_dot rest.
Proof.
  intros H. induction H as [|c ds Hc _ IH]; [reflexivity|].
  cbn [app behind_dot]. rewrite (digit_not_dot c Hc). exact IH.
Qed.

(** What [float] reads of a value: its digits and the number of digits
    behind the dot. *)
Lemma number_value v :
  is_value v ->
  number v =
    Some (value_of (remove_char "." v), length (behind_dot v), []).
Proof.
  intros Hv. apply value_shape in Hv
    as [[Hne Hd] | (ds & fs & -> & Hne & Hds & Hfs)]; unfold number.
  - pose proof (digitpart_digits v [] Hne Hd) as E.
    rewrite app_nil_r in E. rewrite E by auto.
    rewrite (digits_remove_dot v Hd).
    pose proof (digits_behind_dot v [] Hd) as B. rewrite app_nil_r in B.
    rewrite B. reflexivity.
  - rewrite (digitpart_digits ds ("."%char :: fs) Hne Hds) by eauto.
    change (Ascii.eqb "." ".") with true. cbv iota.
    rewrite (digits_behind_dot ds _ Hds). cbn [behind_dot].
    change (Ascii.eqb "." ".") with true. cbv iota.
    assert (R : remove_char "." (ds ++ "."%char :: fs) = ds ++ fs).
    { unfold remove_char. rewrite List.filter_app. cbn [List.filter].
      change (Ascii.eqb "." ".") with true. cbn [negb].
      fold (remove_char "." ds). fold (remove_char "." fs).
      rewrite (digits_remove_dot ds Hds), (digits_remove_dot fs Hfs).
      reflexivity. }
    rewrite R.
    destruct fs as [|f fs].
    + simpl. rewrite app_nil_r. reflexivity.
    + pose proof (digitpart_digits (f :: fs) []) as E'.
      rewrite app_nil_r in E'. rewrite E' by (auto; discriminate).
      rewrite value_of_app. reflexivity.
Qed.

Lemma value_head v :
  is_value v -> exists c s, v = c :: s /\ is_digit c = true.
Proof.
  intros (d1 & dot & d2 & -> & Hne & Hd1 & _).
  destruct Hd1 as [|c d1 Hc _]; [congruence|]. simpl. eauto.
Qed.

(** *** The range of a float *)

Local Open Scope Q_scope.

Lemma underflow_below_overflow : underflow_at < overflow_at.
Proof. unfold Qlt. vm_compute. reflexivity. Qed.

Lemma underflow_positive : 0 < underflow_at.
Proof. reflexivity. Qed.

Lemma Qle_bool_false a b : b < a -> Qle_bool a b = false.
Proof.
  intros H. apply not_true_is_false. intros E. apply Qle_bool_iff in E.
  apply (Qlt_not_le _ _ H E).
Qed.

Lemma Qle_bool_true a b : a <= b -> Qle_bool a b = true.
Proof. apply Qle_bool_iff. Qed.

Lemma Qnum_nonneg q : 0 <= q -> (Qnum q <? 0)%Z = false.
Proof. unfold Qle. simpl. intros H. apply Z.ltb_ge. lia. Qed.

(** A number too small for the range is zero. *)
Lemma rounded_zero q :
  0 <= q -> q <= underflow_at -> rounded q = PFin 0.
Proof.
  intros H0 H. unfold rounded.
  assert (A : Qabs q == q) by (apply Qabs_pos, H0).
  rewrite Qle_bool_false, Qle_bool_true; [reflexivity | |].
  - rewrite A. exact H.
  - rewrite A. eapply Qle_lt_trans; [exact H|].
    apply underflow_below_overflow.
Qed.

(** A number within the range is kept. *)
Lemma rounded_fin q :
  underflow_at < q -> q < overflow_at -> rounded q = PFin (Qred q).
Proof.
  intros H0 H. unfold rounded.
  assert (A : Qabs q == q).
  { apply Qabs_pos, Qlt_le_weak. eapply Qlt_trans; [|exact H0]. reflexivity. }
  rewrite !Qle_bool_false; [reflexivity | |]; rewrite A; assumption.
Qed.

(** A number too large for the range is an infinity. *)
Lemma rounded_inf q : overflow_at <= q -> rounded q = PInf false.
Proof.
  intros H. unfold rounded.
  assert (P : 0 <= q).
  { eapply Qle_trans; [|exact H]. unfold Qle. vm_compute. discriminate. }
  assert (A : Qabs q == q) by (apply Qabs_pos, P).
  rewrite Qle_bool_true, Qnum_nonneg; [reflexivity | exact P |].
  rewrite A. exact H.
Qed.

(** Rounding looks at the number only, not at the fraction it is
    written as. *)
Lemma rounded_wd q q' : 0 <= q -> q == q' -> rounded q = rounded q'.
Proof.
  intros P E.
  assert (P' : 0 <= q') by (rewrite <- E; exact P).
  destruct (Qlt_le_dec underflow_at q) as [Hu | Hu].
  - destruct (Qlt_le_dec q overflow_at) as [Ho | Ho].
    + rewrite (rounded_fin q), (rounded_fin q') by (rewrite <- ?E; assumption).
      f_equal. apply Qred_complete, E.
    + rewrite (rounded_inf q), (rounded_inf q') by (rewrite <- ?E; assumption).
      reflexivity.
  - rewrite (rounded_zero q), (rounded_zero q') by (rewrite <- ?E; assumption).
    reflexivity.
Qed.

Lemma value_of_nonneg s : digits s -> (0 <= value_of s)%Z.
Proof.
  intros H. unfold value_of.
  assert (G : forall acc, (0 <= acc)%Z ->
            (0 <= fold_left (fun a c => a * 10 + digit_val c) s acc)%Z).
  { induction H as [|c s Hc _ IH]; intros acc Ha; [exact Ha|].
    cbn [fold_left]. apply IH.
    assert (0 <= digit_val c)%Z; [|lia].
    apply digit_cases in Hc. simpl in Hc.
    repeat (destruct Hc as [<- | Hc]; [vm_compute; discriminate|]).
    destruct Hc. }
  apply G. lia.
Qed.

Lemma pow10_positive n : (0 < 10 ^ Z.of_nat n)%Z.
Proof. apply Z.pow_pos_nonneg; lia. Qed.

Lemma value_digits v : is_value v -> digits (remove_char "." v).
Proof.
  intros Hv. apply value_chars in Hv.
  unfold remove_char. induction Hv as [|c v Hc _ IH]; [constructor|].
  cbn [List.filter]. destruct Hc as [Hc | ->].
  - rewrite (digit_not_dot c Hc). constructor; assumption.
  - exact IH.
Qed.

(** The number a value denotes is not negative. *)
Lemma decimal_nonneg v : is_value v -> 0 <= decimal v.
Proof.
  intros Hv. unfold decimal.
  pose proof (value_of_nonneg _ (value_digits v Hv)) as Hn.
  pose proof (pow10_positive (length (behind_dot v))) as Hp.
  apply Qle_shift_div_l.
  - change 0 with (inject_Z 0). rewrite <- Zlt_Qlt. exact Hp.
  - rewrite Qmult_0_l. change 0 with (inject_Z 0). rewrite <- Zle_Qle.
    exact Hn.
Qed.

Lemma pow10_inv n : pow10 (0 - Z.of_nat n) == / inject_Z (10 ^ Z.of_nat n).
Proof.
  unfold pow10. destruct n as [|n].
  - reflexivity.
  - replace (0 - Z.of_nat (S n) <? 0)%Z with true by (symmetry; apply Z.ltb_lt; lia).
    replace (- (0 - Z.of_nat (S n)))%Z with (Z.of_nat (S n)) by lia.
    pose proof (pow10_positive (S n)) as Hp.
    destruct (10 ^ Z.of_nat (S n))%Z as [|p|p]; try lia.
    reflexivity.
Qed.

(** [float] accepts every value the speed pattern captures, and reads the
    number it denotes. *)
Lemma of_str_value v : is_value v -> of_str v = Some (rounded (decimal v)).
Proof.
  intros Hv. unfold of_str.
  rewrite strip_id.
  2:{ eapply Forall_impl; [apply value_chars, Hv|].
      intros c Hc. apply value_char_not_space, Hc. }
  pose proof (number_value v Hv) as N.
  destruct (value_head v Hv) as (c & s & -> & Hc).
  destruct (digit_not_sign c Hc) as [E1 E2].
  destruct (digit_not_letter c Hc) as [E3 E4].
  unfold sign. rewrite E1, E2.
  cbn [map eqb L list_ascii_of_string]. rewrite (digit_lower c Hc), E3, E4.
  cbn [andb orb].
  rewrite N. cbn [exponent neg]. f_equal.
  apply rounded_wd.
  - apply Qmult_le_0_compat.
    + change 0 with (inject_Z 0). rewrite <- Zle_Qle.
      apply value_of_nonneg, (value_digits _ Hv).
    + rewrite pow10_inv. apply Qlt_le_weak, Qinv_lt_0_compat.
      change 0 with (inject_Z 0). rewrite <- Zlt_Qlt. apply pow10_positive.
  - unfold decimal, Qdiv. rewrite pow10_inv. reflexivity.
Qed.

(** A number of the range times a factor between 1 and [1024^3]: zero
    stays zero, the product is kept while it is within the range, and is
    an infinity beyond. *)
Lemma speed_cases D k :
  0 <= D -> (1 <= k <= 1073741824)%Z ->
  (D <= underflow_at -> mul_int (rounded D) k = PFin 0) /\
  (underflow_at < D -> D * inject_Z k < overflow_at ->
   mul_int (rounded D) k = PFin (Qred (D * inject_Z k))) /\
  (overflow_at <= D * inject_Z k -> mul_int (rounded D) k = PInf false).
Proof.
  intros P [Hk1 Hk2].
  assert (K1 : 1 <= inject_Z k)
    by (change 1 with (inject_Z 1); rewrite <- Zle_Qle; exact Hk1).
  assert (K2 : inject_Z k <= inject_Z 1073741824)
    by (rewrite <- Zle_Qle; exact Hk2).
  assert (K0 : 0 <= inject_Z k)
    by (eapply Qle_trans; [|exact K1]; discriminate).
  assert (Hge : D <= D * inject_Z k).
  { rewrite <- (Qmult_1_r D) at 1.
    rewrite !(Qmult_comm D). apply Qmult_le_compat_r; assumption. }
  assert (Hmul : forall q, q == D ->
            rounded (q * inject_Z k) = rounded (D * inject_Z k)).
  { intros q E. apply rounded_wd.
    - apply Qmult_le_0_compat; [rewrite E; exact P | exact K0].
    - rewrite E. reflexivity. }
  split; [|split].
  - intros Hu. rewrite (rounded_zero D P Hu). cbn [mul_int].
    apply rounded_zero; rewrite Qmult_0_l;
      [apply Qle_refl | apply Qlt_le_weak, underflow_positive].
  - intros Hu Ho.
    rewrite (rounded_fin D Hu) by (eapply Qle_lt_trans; eassumption).
    cbn [mul_int]. rewrite (Hmul _ (Qred_correct D)).
    apply rounded_fin; [eapply Qlt_le_trans; eassumption | exact Ho].
  - intros Ho.
    destruct (Qlt_le_dec D overflow_at) as [Hlt | Hle].
    + assert (Hu : underflow_at < D).
      { apply Qnot_le_lt. intros Hu.
        assert (B : D * inject_Z k
                    <= underflow_at * inject_Z 1073741824).
        { eapply Qle_trans.
          - apply Qmult_le_compat_r; [exact Hu | exact K0].
          - rewrite !(Qmult_comm underflow_at).
            apply Qmult_le_compat_r;
              [exact K2 | apply Qlt_le_weak, underflow_positive]. }
        apply (Qle_not_lt _ _ (Qle_trans _ _ _ Ho B)).
        unfold Qlt. vm_compute. reflexivity. }
      rewrite (rounded_fin D Hu Hlt). cbn [mul_int].
      rewrite (Hmul _ (Qred_correct D)). apply rounded_inf, Ho.
    + rewrite (rounded_inf D Hle). reflexivity.
Qed.

(** A number in lowest terms is zero when the number is. *)
Lemma truthy_fin q : 0 < q -> truthy (PFin (Qred q)) = true.
Proof.
  intros H. unfold truthy. apply negb_true_iff, not_true_is_false.
  intros E. apply Qeq_bool_iff in E. rewrite Qred_correct in E.
  rewrite E in H. discriminate H.
Qed.

Local Close Scope Q_scope.

(** *** [str(n)] *)

Lemma digit_char_digit d : 0 <= d < 10 -> is_digit (digit_char d) = true.
Proof.
  intros H.
  assert (E : d = 0 \/ d = 1 \/ d = 2 \/ d = 3 \/ d = 4 \/ d = 5 \/ d = 6
              \/ d = 7 \/ d = 8 \/ d = 9) by lia.
  repeat (destruct E as [-> | E]; [reflexivity|]). subst d. reflexivity.
Qed.

Lemma digits_from_head fuel n acc :
  exists c s, digits_from fuel n acc = c :: s /\ is_digit c = true.
Proof.
  revert n acc. induction fuel as [|fuel IH]; intros n acc; simpl.
  - eexists _, _. split; [reflexivity|].
    apply digit_char_digit, Z.mod_pos_bound. lia.
  - destruct (n / 10 =? 0).
    + eexists _, _. split; [reflexivity|].
      apply digit_char_digit, Z.mod_pos_bound. lia.
    + apply IH.
Qed.

(** [str(n)] starts with a digit, or with a minus sign and a digit. *)
Lemma of_int_not_option n s : of_int n <> "-"%char :: "-"%char :: s.
Proof.
  unfold of_int, of_nonneg. destruct (n <? 0).
  - destruct (digits_from_head (Z.to_nat (- n)) (- n) []) as (c & r & -> & Hc).
    intros [= -> _]. discriminate Hc.
  - destruct (digits_from_head (Z.to_nat n) n []) as (c & r & -> & Hc).
    intros [= -> _]. discriminate Hc.
Qed.

End PyFloatFacts.

(** ** The progress parser of the queue-backed service *)

Module ParserFacts.
Import PyStr RedisManager DownloadService SpeedPattern ServiceTerms TextTerms.

Lemma scan_parts_first now i parts :
  scan_parts now i parts =
  (match first_percent_token parts with
   | Some p => _update_download_progress now i p
   | None => []
   end, None).
Proof.
  induction parts as [|part rest IH];
    cbn [scan_parts first_percent_token]; [reflexivity|].
  unfold percent_token, float_.
  destruct (endswith part (L "%")); [|exact IH].
  destruct (PyFloat.of_str _); [reflexivity | exact IH].
Qed.

Lemma first_percent_token_Some parts p :
  first_percent_token parts = Some p <->
  exists before part after,
    parts = before ++ part :: after /\ percent_token part = Some p /\
    Forall (fun q => percent_token q = None) before.
Proof.
  induction parts as [|x rest IH]; simpl.
  - split; [discriminate|]. intros ([|? ?] & ? & ? & E & _); discriminate E.
  - destruct (percent_token x) as [px|] eqn:Ex.
    + split.
      * intros [= ->]. exists [], x, rest. auto.
      * intros ([|y before] & part & after & E & Hp & Hb).
        -- injection E as -> _. congruence.
        -- injection E as -> _. inversion Hb; congruence.
    + rewrite IH. split.
      * intros (before & part & after & -> & Hp & Hb).
        exists (x :: before), part, after. auto.
      * intros ([|y before] & part & after & E & Hp & Hb).
        -- injection E as -> _. congruence.
        -- injection E as -> ->. inversion Hb; subst.
           exists before, part, after. auto.
Qed.

Lemma first_percent_token_None parts :
  first_percent_token parts = None <->
  Forall (fun q => percent_token q = None) parts.
Proof.
  induction parts as [|x rest IH]; simpl.
  - split; [constructor | reflexivity].
  - destruct (percent_token x) eqn:Ex.
    + split; [discriminate|]. intros H. inversion H; congruence.
    + rewrite IH. split.
      * intros H. constructor; assumption.
      * intros H. inversion H; assumption.
Qed.

(** Every part of [s.split()] lies in [s]. *)
Lemma split_from_part cur s part :
  In part (split_from cur s) ->
  exists pre post, rev cur ++ s = pre ++ part ++ post.
Proof.
  revert cur. induction s as [|c s IH]; intros cur; simpl.
  - destruct cur as [|x cur]; [intros []|].
    intros [<- | []]. exists [], []. rewrite !app_nil_r. reflexivity.
  - destruct (is_space c).
    + destruct cur as [|x cur].
      * intros H. destruct (IH [] H) as (pre & post & E). simpl in E.
        exists (c :: pre), post. simpl. rewrite E. reflexivity.
      * intros [<- | H].
        -- exists [], (c :: s). reflexivity.
        -- destruct (IH [] H) as (pre & post & E). simpl in E.
           exists (rev (x :: cur) ++ c :: pre), post.
           rewrite E, <- app_assoc. reflexivity.
    + intros H. destruct (IH (c :: cur) H) as (pre & post & E).
      exists pre, post. rewrite <- E. simpl. rewrite <- app_assoc.
      reflexivity.
Qed.

Lemma endswith_percent part :
  endswith part (L "%") = true -> exists body, part = body ++ L "%".
Proof.
  unfold endswith. intros H. apply PyStrFacts.startswith_inv in H as [r E].
  exists (rev r). apply (f_equal (@rev ascii)) in E.
  rewrite rev_involutive in E. rewrite E. simpl. reflexivity.
Qed.

(** A line with a percent token holds a percent sign. *)
Lemma percent_token_in_line line part p :
  In part (split line) -> percent_token part = Some p ->
  contains (L "%") line = true.
Proof.
  intros Hin Hp. unfold percent_token in Hp.
  destruct (endswith part (L "%")) eqn:He; [|discriminate].
  apply endswith_percent in He as [body ->].
  apply split_from_part in Hin as (pre & post & E). simpl in E. subst line.
  rewrite <- app_assoc, app_assoc. apply PyStrFacts.contains_app.
Qed.

Lemma extract_speed_ok line :
  _extract_speed line =
  inl match re_search line with
      | Some (g1, g2) =>
          match PyFloat.of_str g1 with
          | Some value => Some (PyFloat.mul_int value (multiplier g2))
          | None => None
          end
      | None => None
      end.
Proof.
  unfold _extract_speed, float_.
  destruct (re_search line) as [[g1 g2]|]; [|reflexivity].
  destruct (PyFloat.of_str g1); reflexivity.
Qed.

(** [_parse_progress] in one equation. *)
Lemma parse_progress_eq now i line :
  _parse_progress now i line =
  ((if contains (L "[download]") line && contains (L "%") line
    then match first_percent_token (split line) with
         | Some p => _update_download_progress now i p
         | None => []
         end
    else [])
   ++
   (if contains (L "[download]") line
       && (contains (L "/s") line || contains (L "iB/s") line)
    then match _extract_speed line with
         | inl (Some speed_info) =>
             if PyFloat.truthy speed_info
             then _update_download_speed now i speed_info
             else []
         | _ => []
         end
    else []),
   None).
Proof.
  unfold _parse_progress. rewrite scan_parts_first, extract_speed_ok.
  destruct (contains (L "[download]") line), (contains (L "%") line),
    (contains (L "/s") line), (contains (L "iB/s") line),
    (re_search line) as [[g1 g2]|]; try reflexivity;
    destruct (PyFloat.of_str g1) as [x|]; try reflexivity;
    destruct (PyFloat.truthy _); reflexivity.
Qed.

Lemma published_progress_app a b :
  published_progress (a ++ b) = published_progress a ++ published_progress b.
Proof. unfold published_progress. apply flat_map_app. Qed.

(** The progress values one line publishes. *)
Lemma published_progress_line now i line :
  published_progress (fst (_parse_progress now i line)) =
  if contains (L "[download]") line
  then match first_percent_token (split line) with
       | Some p => [p]
       | None => []
       end
  else [].
Proof.
  rewrite parse_progress_eq. cbn [fst]. rewrite published_progress_app.
  assert (E : forall (b : bool) (x : option pyfloat + pyexc), published_progress
            (if b then match x with
                       | inl (Some s) =>
                           if PyFloat.truthy s
                           then _update_download_speed now i s else []
                       | _ => []
                       end
             else []) = []).
  { intros [] [[s|]|e]; try reflexivity.
    destruct (PyFloat.truthy s); reflexivity. }
  rewrite E, app_nil_r.
  destruct (contains (L "[download]") line); [|reflexivity].
  destruct (first_percent_token (split line)) as [p|] eqn:Ep.
  - apply first_percent_token_Some in Ep
      as (before & part & after & Es & Hp & _).
    rewrite (percent_token_in_line line part p); [reflexivity | | exact Hp].
    rewrite Es. apply in_elt.
  - destruct (contains (L "%") line); reflexivity.
Qed.

Lemma token_in_line pre rest v u :
  token_at rest v u -> contains (L "iB/s") (pre ++ rest) = true.
Proof.
  intros (_ & _ & post & ->).
  replace (pre ++ v ++ u :: L "iB/s" ++ post)
    with ((pre ++ v ++ [u]) ++ L "iB/s" ++ post)
    by (rewrite <- !app_assoc; reflexivity).
  apply PyStrFacts.contains_app.
Qed.

Lemma multiplier_unit u : is_unit u -> 1 <= multiplier u <= 1073741824.
Proof. intros [-> | [-> | ->]]; vm_compute; split; discriminate. Qed.

(** What [_extract_speed] returns for the leftmost token: the number its
    value denotes, as a float, times the factor of its unit. *)
Lemma extract_speed_token pre rest v u :
  none_before pre rest -> token_at rest v u ->
  _extract_speed (pre ++ rest) =
    inl (Some (PyFloat.mul_int (PyFloat.rounded (decimal v)) (multiplier u))).
Proof.
  intros Hnone Htok.
  rewrite extract_speed_ok, (re_search_leftmost pre rest v u Hnone Htok),
    (PyFloatFacts.of_str_value v) by apply Htok.
  reflexivity.
Qed.

(** The speed a tagged line publishes. *)
Lemma published_speed_line now i pre rest v u :
  none_before pre rest -> token_at rest v u ->
  contains (L "[download]") (pre ++ rest) = true ->
  published_speed (fst (_parse_progress now i (pre ++ rest))) =
    let x := PyFloat.mul_int (PyFloat.rounded (decimal v)) (multiplier u) in
    if PyFloat.truthy x then [x] else [].
Proof.
  intros Hnone Htok Htag.
  rewrite parse_progress_eq, Htag, (extract_speed_token pre rest v u Hnone Htok),
    (token_in_line pre rest v u Htok), orb_true_r.
  cbn [fst andb]. unfold published_speed. rewrite flat_map_app.
  replace (flat_map _ (if contains (L "%") (pre ++ rest) then _ else _))
    with (@nil pyfloat).
  - cbn zeta. destruct (PyFloat.truthy _); reflexivity.
  - destruct (contains (L "%") (pre ++ rest)); [|reflexivity].
    destruct (first_percent_token _); reflexivity.
Qed.

(** An untagged line publishes no speed. *)
Lemma published_speed_untagged now i line :
  contains (L "[download]") line = false ->
  published_speed (fst (_parse_progress now i line)) = [].
Proof. intros H. rewrite parse_progress_eq, H. reflexivity. Qed.

End ParserFacts.

(** ** Properties of the queue-backed progress parser *)

Module QueueBackedParser.
Import PyStr RedisManager DownloadService SpeedPattern ParserFacts.
Import ServiceTerms TextTerms.

(** C7: the progress parser of the queue-backed service never raises (no
    exception leaves [_parse_progress] or [_extract_speed]).  On a line
    whose leftmost transfer-rate token is a value followed by KiB/s, MiB/s
    or GiB/s, [_extract_speed] returns the number the value denotes times
    1024, 1024 * 1024 or 1024 * 1024 * 1024, in bytes per second: zero
    when the value is too small for a float, positive infinity when the
    product is too large for one, and the product itself between the two;
    [_parse_progress] publishes that speed when the line is tagged, and
    publishes no speed when it is zero.  A line with no percentage token
    and no transfer-rate token makes no call on Redis, so what was
    published stays as it is. *)
Theorem C7_parser_total_speed_units :
  (forall now i line,
      snd (_parse_progress now i line) = None /\
      exists o, _extract_speed line = inl o) /\
  (forall now i pre rest v u k,
      none_before pre rest -> token_at rest v u ->
      (u = "K"%char /\ k = 1024 \/
       u = "M"%char /\ k = 1024 * 1024 \/
       u = "G"%char /\ k = 1024 * 1024 * 1024) ->
      let line := pre ++ rest in
      let bytes := (decimal v * inject_Z k)%Q in
      let published := published_speed (fst (_parse_progress now i line)) in
      ((decimal v <= (1 # 2 ^ 1075))%Q ->
       _extract_speed line = inl (Some (PFin 0)) /\ published = []) /\
      (((1 # 2 ^ 1075) < decimal v)%Q ->
       (bytes < inject_Z (2 ^ 1024 - 2 ^ 970))%Q ->
       _extract_speed line = inl (Some (PFin (Qred bytes))) /\
       (contains (L "[download]") line = true ->
        published = [PFin (Qred bytes)])) /\
      ((inject_Z (2 ^ 1024 - 2 ^ 970) <= bytes)%Q ->
       _extract_speed line = inl (Some (PInf false)) /\
       (contains (L "[download]") line = true ->
        published = [PInf false]))) /\
  (forall now i line,
      (forall part, In part (split line) -> percent_token part = None) ->
      (forall pre rest v u, line = pre ++ rest -> ~ token_at rest v u) ->
      _parse_progress now i line = ([], None) /\
      forall r, set_all r (fst (_parse_progress now i line)) = r).
Proof.
  split; [|split].
  - intros now i line. split.
    + rewrite parse_progress_eq. reflexivity.
    + rewrite extract_speed_ok. eexists. reflexivity.
  - intros now i pre rest v u k Hnone Htok Hk line bytes published.
    assert (Ek : k = multiplier u)
      by (destruct Hk as [[-> ->] | [[-> ->] | [-> ->]]]; reflexivity).
    pose proof (PyFloatFacts.decimal_nonneg v (proj1 Htok)) as P.
    destruct (PyFloatFacts.speed_cases (decimal v) k P) as (C0 & C1 & C2);
      [rewrite Ek; apply multiplier_unit, Htok|].
    pose proof (extract_speed_token pre rest v u Hnone Htok) as E.
    rewrite <- Ek in E. fold line in E.
    assert (Hp : contains (L "[download]") line = true ->
                 published =
                 let x := PyFloat.mul_int (PyFloat.rounded (decimal v)) k in
                 if PyFloat.truthy x then [x] else []).
    { intros Htag. subst published line. rewrite Ek.
      apply published_speed_line; assumption. }
    split; [|split].
    + intros Hu. rewrite (C0 Hu) in E, Hp. split; [exact E|].
      destruct (contains (L "[download]") line) eqn:Htag.
      * apply Hp. reflexivity.
      * apply published_speed_untagged, Htag.
    + intros Hu Ho. rewrite (C1 Hu Ho) in E, Hp. split; [exact E|].
      intros Htag. rewrite (Hp Htag). cbv zeta.
      rewrite PyFloatFacts.truthy_fin; [reflexivity|].
      eapply Qlt_le_trans; [apply PyFloatFacts.underflow_positive|].
      eapply Qle_trans; [apply Qlt_le_weak, Hu|].
      subst bytes. rewrite <- (Qmult_1_r (decimal v)) at 1.
      rewrite !(Qmult_comm (decimal v)). apply Qmult_le_compat_r; [|exact P].
      change 1%Q with (inject_Z 1). rewrite <- Zle_Qle.
      rewrite Ek. apply multiplier_unit, Htok.
    + intros Ho. rewrite (C2 Ho) in E, Hp. split; [exact E|].
      intros Htag. rewrite (Hp Htag). reflexivity.
  - intros now i line Hpct Hspeed.
    assert (E : _parse_progress now i line = ([], None)).
    { rewrite parse_progress_eq.
      replace (first_percent_token (split line)) with (@None pyfloat).
      2:{ symmetry. apply first_percent_token_None, List.Forall_forall, Hpct. }
      rewrite extract_speed_ok.
      replace (re_search line) with (@None (str * ascii)).
      2:{ symmetry. destruct (re_search line) as [[v u]|] eqn:E; [|reflexivity].
          apply re_search_sound in E as (pre & rest & E & Ht).
          destruct (Hspeed pre rest v u E Ht). }
      destruct (_ && _), (_ && _); reflexivity. }
    split; [exact E|]. intros r. rewrite E. reflexivity.
Qed.

(** C7 at a line of the tool: 1.20 MiB/s are 1258291.2 bytes per second,
    which is what is returned and published. *)
Lemma C7_witness :
  _extract_speed (L "[download]  45.2% of 100.00MiB at 1.20MiB/s ETA 00:30")
    = inl (Some (PFin (6291456 # 5))) /\
  published_speed
    (fst (_parse_progress 0 1
            (L "[download]  45.2% of 100.00MiB at 1.20MiB/s ETA 00:30")))
    = [PFin (6291456 # 5)].
Proof.
  assert (Hnone : none_before (L "[download]  45.2% of 100.00MiB at ")
                    (L "1.20MiB/s ETA 00:30"))
    by (apply no_match_before_sound; vm_compute; reflexivity).
  assert (Htok : token_at (L "1.20MiB/s ETA 00:30") (L "1.20") "M").
  { split; [|split].
    - exists (L "1"), (L "."), (L "20"). repeat split.
      + discriminate.
      + repeat constructor.
      + right. reflexivity.
      + repeat constructor.
    - right. left. reflexivity.
    - exists (L " ETA 00:30"). reflexivity. }
  destruct (proj1 (proj2 C7_parser_total_speed_units) 0 1
              (L "[download]  45.2% of 100.00MiB at ")
              (L "1.20MiB/s ETA 00:30") (L "1.20") "M"%char (1024 * 1024)
              Hnone Htok (or_intror (or_introl (conj eq_refl eq_refl))))
    as (_ & H & _).
  destruct H as [E Hp]; [vm_compute; reflexivity | vm_compute; reflexivity |].
  split; [exact E | apply Hp; vm_compute; reflexivity].
Defined.

(** C10: the queue-backed parser makes a call on Redis only for a line
    that contains the text [download] in square brackets; and the progress
    it publishes is the percentage of the first white-space delimited part
    that ends with a percent sign and is a float once the percent signs
    are removed. *)
Theorem C10_tagged_lines_first_percent now i line :
  (contains (L "[download]") line = false ->
   _parse_progress now i line = ([], None)) /\
  (forall p,
      published_progress (fst (_parse_progress now i line)) = [p] <->
      contains (L "[download]") line = true /\
      exists before part after,
        split line = before ++ part :: after /\
        endswith part (L "%") = true /\
        PyFloat.of_str (remove_char "%" part) = Some p /\
        Forall (fun q => endswith q (L "%") = true ->
                         PyFloat.of_str (remove_char "%" q) = None) before) /\
  (published_progress (fst (_parse_progress now i line)) = [] \/
   exists p, published_progress (fst (_parse_progress now i line)) = [p]).
Proof.
  split; [|split].
  - intros H. rewrite parse_progress_eq, H. reflexivity.
  - intros p. rewrite published_progress_line.
    destruct (contains (L "[download]") line).
    + split.
      * intros H. split; [reflexivity|].
        destruct (first_percent_token (split line)) as [p'|] eqn:E;
          [|discriminate].
        injection H as ->.
        apply first_percent_token_Some in E
          as (before & part & after & Es & Hp & Hb).
        exists before, part, after. unfold percent_token in Hp.
        destruct (endswith part (L "%")) eqn:He; [|discriminate].
        repeat split; try assumption.
        eapply Forall_impl; [exact Hb|]. intros q Hq Hq'.
        unfold percent_token in Hq. rewrite Hq' in Hq. exact Hq.
      * intros (_ & before & part & after & Es & He & Hp & Hb).
        replace (first_percent_token (split line)) with (Some p);
          [reflexivity|].
        symmetry. apply first_percent_token_Some.
        exists before, part, after. unfold percent_token.
        rewrite He. repeat split; try assumption.
        eapply Forall_impl; [exact Hb|]. intros q Hq. unfold percent_token.
        destruct (endswith q (L "%")) eqn:Eq; [apply Hq, Eq | reflexivity].
    + split; [discriminate|]. intros [H _]. discriminate H.
  - rewrite published_progress_line.
    destruct (contains (L "[download]") line); [|left; reflexivity].
    destruct (first_percent_token (split line)) as [p|]; eauto.
Qed.

End QueueBackedParser.

(** ** Runs of the queue-backed service *)

Module DownloadServiceRunFacts.
Import PyStr RedisManager Subprocess DownloadService DownloadServiceRun.
Import ServiceTerms.
Import ParserFacts.

Lemma parse_progress_no_exc now i line :
  snd (_parse_progress now i line) = None.
Proof. rewrite parse_progress_eq. reflexivity. Qed.

(** One turn of the loop: the parser raises nothing, so the loop goes
    on. *)
Lemma line_then now i line (rest : list set_call) (e : option pyexc) :
  (let '(cs, e0) :=
     match strip line with
     | [] => ([], None)
     | _ :: _ => _parse_progress now i (strip line)
     end in
   match e0 with
   | Some e1 => (cs, Some e1)
   | None => (cs ++ rest, e)
   end) =
  (fst (_parse_progress now i (strip line)) ++ rest, e).
Proof.
  destruct (strip line) as [|c s] eqn:E; [reflexivity|].
  rewrite (surjective_pairing (_parse_progress now i (c :: s))).
  rewrite parse_progress_no_exc. reflexivity.
Qed.

Lemma read_output_eq now i lines cancel failing :
  read_output now i lines cancel failing =
  (flat_map (fun line => fst (_parse_progress now i (strip line)))
            (lines_read lines cancel failing),
   reading_ends lines cancel failing).
Proof.
  revert cancel failing.
  induction lines as [|line rest IH]; intros cancel failing.
  - destruct cancel as [[|k]|], failing as [[[|j] m]|];
      cbn [read_output lines_read reading_ends firstn flat_map length];
      try reflexivity;
      rewrite ?firstn_nil, ?andb_false_r; reflexivity.
  - destruct cancel as [[|k]|], failing as [[[|j] m]|];
      cbn [read_output lines_read reading_ends firstn flat_map length later
           Nat.min fmap option_fmap option_map Nat.pred];
      try reflexivity;
      rewrite IH; cbn [lines_read reading_ends]; apply line_then.
Qed.

(** The reading ends with a cancellation or with the error of the
    stream. *)
Lemma reading_ends_cases lines cancel failing e :
  reading_ends lines cancel failing = Some e ->
  e = CancelledError \/ exists message, e = ValueError message.
Proof.
  unfold reading_ends.
  destruct cancel as [k|], failing as [[j m]|];
    repeat match goal with
           | |- context [if ?b then _ else _] => destruct b
           end;
    intros [= <-]; eauto.
Qed.




Lemma set_all_app r a b : set_all (set_all r a) b = set_all r (a ++ b).
Proof. unfold set_all. symmetry. apply fold_left_app. Qed.

Lemma set_client r c : client (fst (set r c)) = client r.
Proof.
  unfold set. destruct (client r) eqn:E; [|exact E].
  destruct (0 <? ttl (expire c)); [reflexivity | exact E].
Qed.

Lemma set_all_client r cs : client (set_all r cs) = client r.
Proof.
  revert r. induction cs as [|c cs IH]; intros r; [reflexivity|].
  cbn [set_all fold_left]. fold (set_all (fst (set r c)) cs). rewrite IH.
  apply set_client.
Qed.

(** The last call on a key decides what is stored under it, when the
    server accepts its time to live. *)
Lemma get_last_call r cs c :
  client r = true -> 0 < ttl (expire c) ->
  get (set_all r (cs ++ [c])) (key c) = Some (val c).
Proof.
  intros Hr Ht. rewrite <- set_all_app. cbn [set_all fold_left].
  unfold set, get. rewrite set_all_client, Hr.
  replace (0 <? ttl (expire c)) with true by (symmetry; apply Z.ltb_lt, Ht).
  cbn [fst client kv].
  rewrite lookup_insert_eq. reflexivity.
Qed.

(** Every call the parser makes stores a downloading snapshot or a speed
    sample. *)
Lemma parse_calls now i line c :
  In c (fst (_parse_progress now i line)) ->
  (exists p, In c (_update_download_progress now i p)) \/
  (exists s, In c (_update_download_speed now i s)).
Proof.
  rewrite parse_progress_eq. cbn [fst]. intros H.
  apply in_app_or in H as [H | H].
  - destruct (_ && _); [|destruct H].
    destruct (first_percent_token _) as [p|]; [|destruct H]. eauto.
  - destruct (_ && _); [|destruct H].
    destruct (_extract_speed line) as [[s|]|]; try destruct H.
    destruct (PyFloat.truthy s); [eauto | destruct H].
Qed.

Lemma read_calls now i lines cancel failing c :
  In c (fst (read_output now i lines cancel failing)) ->
  (exists p, In c (_update_download_progress now i p)) \/
  (exists s, In c (_update_download_speed now i s)).
Proof.
  rewrite read_output_eq. cbn [fst]. intros H.
  apply in_flat_map in H as (line & _ & H). eapply parse_calls, H.
Qed.

(** *** [process.wait()] *)

Lemma wait_Some fuel p p' :
  wait fuel p = Some p' ->
  received p' = received p /\ is_Some (returncode p') /\
  on_sigterm p' = on_sigterm p.
Proof.
  revert p. induction fuel as [|fuel IH]; intros p; cbn [wait].
  - destruct (returncode p) as [c|] eqn:E; [|discriminate].
    intros [= <-]. rewrite E. eauto.
  - destruct (returncode p) as [c|] eqn:E.
    + intros [= <-]. rewrite E. eauto.
    + intros H. apply IH in H as (H1 & H2 & H3).
      rewrite H1, H3. unfold tick. rewrite E.
      destruct (exits_in p) as [[[|n] c]|]; auto.
Qed.

Lemma wait_enough fuel p n c :
  returncode p = None -> exits_in p = Some (n, c) -> (n < fuel)%nat ->
  is_Some (wait fuel p).
Proof.
  revert p n. induction fuel as [|fuel IH]; intros p n Hr He Hn; [lia|].
  cbn [wait]. rewrite Hr. destruct n as [|n].
  - unfold tick. rewrite Hr, He. destruct fuel; cbn [wait returncode]; eauto.
  - apply (IH _ n); [| |lia]; unfold tick; rewrite Hr, He; reflexivity.
Qed.

Lemma wait_never fuel p :
  returncode p = None -> exits_in p = None -> wait fuel p = None.
Proof.
  intros Hr He. induction fuel as [|fuel IH]; cbn [wait]; rewrite Hr;
    [reflexivity|].
  unfold tick. rewrite Hr, He. exact IH.
Qed.

End DownloadServiceRunFacts.

(** ** Properties of the runs of the queue-backed service *)

Module QueueBackedRuns.
Import PyStr RedisManager Subprocess DownloadService DownloadServiceRun.
Import ServiceTerms.
Import ParserFacts DownloadServiceRunFacts.

(** C8, refuted as stated: in one run the service publishes 50 percent and
    then 10 percent. *)
Lemma C8_counterexample :
  exists t,
    _execute_download 5 0 1 fifty_then_ten = Some t /\
    published_progress (calls t) = [PFin 50; PFin 10] /\
    PyFloat.leb (PFin 50) (PFin 10) = false.
Proof. eexists. repeat split; vm_compute; reflexivity. Qed.

Lemma published_progress_flat now i lines :
  published_progress
    (flat_map (fun line => fst (_parse_progress now i (strip line))) lines) =
  reports lines.
Proof.
  induction lines as [|line rest IH]; [reflexivity|].
  unfold reports in *. cbn [flat_map].
  rewrite published_progress_app, IH.
  rewrite published_progress_line. unfold reported.
  destruct (contains _ _); [|reflexivity].
  destruct (first_percent_token _); reflexivity.
Qed.

Lemma progress_fields_app a b :
  progress_fields (a ++ b) = progress_fields a ++ progress_fields b.
Proof. unfold progress_fields. apply flat_map_app. Qed.

(** Every progress field the parser stores is that of a downloading
    snapshot. *)
Lemma progress_fields_flat now i lines :
  progress_fields
    (flat_map (fun line => fst (_parse_progress now i (strip line))) lines) =
  published_progress
    (flat_map (fun line => fst (_parse_progress now i (strip line))) lines).
Proof.
  set (cs := flat_map _ lines).
  assert (H : forall c, In c cs ->
            (exists p, In c (_update_download_progress now i p)) \/
            (exists s, In c (_update_download_speed now i s))).
  { intros c Hc. apply in_flat_map in Hc as (line & _ & Hc).
    eapply parse_calls, Hc. }
  clearbody cs. induction cs as [|c cs IH]; [reflexivity|].
  unfold progress_fields, published_progress in *. cbn [flat_map].
  rewrite IH by (intros c' Hc'; apply H; right; exact Hc').
  f_equal.
  destruct (H c (or_introl eq_refl)) as [[p [<- | []]] | [sp [<- | []]]];
    reflexivity.
Qed.

(** C8, amended: within one run the progress values published under the
    status key of the job are the percentages the tool reported on the
    lines read, each unchanged and in the order of arrival, followed by
    the one value the engine adds when the run ends: 100.0 when the run
    succeeded, 0.0 when it failed or was cancelled.  The snapshots whose
    status is downloading carry the tool's percentages and nothing
    else. *)
Theorem C8_progress_as_reported fuel now i r t :
  _execute_download fuel now i r = Some t ->
  progress_fields (calls t) =
    match spawn_error r with
    | Some _ => []
    | None => reports (lines_read (output r) (cancel_after r) (read_error r))
    end
    ++ [match result t with
        | Returned true => PFin 100
        | _ => PFin 0
        end] /\
  published_progress (calls t) =
    match spawn_error r with
    | Some _ => []
    | None => reports (lines_read (output r) (cancel_after r) (read_error r))
    end.
Proof.
  intros H. unfold _execute_download in H.
  destruct (spawn_error r) as [msg|].
  { injection H as <-. split; reflexivity. }
  rewrite read_output_eq in H.
  destruct (reading_ends _ _ _) as [e|] eqn:Ee.
  - apply reading_ends_cases in Ee as [-> | [m ->]].
    + unfold handler in H.
      destruct (match returncode (proc r) with
                | Some _ => _ | None => _ end) as [p'|]; [|discriminate].
      injection H as <-. cbn [calls result].
      rewrite progress_fields_app, published_progress_app,
        progress_fields_flat, published_progress_flat.
      split; [reflexivity | apply app_nil_r].
    + injection H as <-. cbn [calls result].
      rewrite progress_fields_app, published_progress_app,
        progress_fields_flat, published_progress_flat.
      split; [reflexivity | apply app_nil_r].
  - destruct (wait fuel (proc r)) as [p'|]; [|discriminate].
    injection H as <-. cbn [calls result].
    rewrite progress_fields_app, published_progress_app,
      progress_fields_flat, published_progress_flat.
    destruct (match returncode p' with Some c => c =? 0 | None => false end);
      (split; [reflexivity | apply app_nil_r]).
Qed.

(** C8 at the run that reports 50 percent and then fails: 50 and then
    0.0 are published. *)
Lemma C8_witness :
  exists t,
    _execute_download 5 0 1 half_then_fails = Some t /\
    progress_fields (calls t) = [PFin 50; PFin 0] /\
    published_progress (calls t) = [PFin 50].
Proof.
  eexists. split; [vm_compute; reflexivity|].
  refine (C8_progress_as_reported 5 0 1 half_then_fails _ _).
  vm_compute. reflexivity.
Defined.

(** C9: when a run of [_execute_download] ends in failure or cancellation,
    its last call on Redis stores, under the status key of the download, a
    snapshot whose status is failed or cancelled and whose progress is
    0.0; that snapshot replaces whatever the run published before; and
    every failed or cancelled snapshot of the run has progress 0.0. *)
Theorem C9_failure_resets_progress fuel now i r t :
  _execute_download fuel now i r = Some t ->
  result t <> Returned true ->
  (exists before sn,
      calls t = before ++
        [ {| key := status_key i; val := VStatus sn; expire := Some 3600 |} ] /\
      terminal_failure sn /\
      progress sn = Some (PFin 0) /\
      forall r0, client r0 = true ->
        get (set_all r0 (calls t)) (status_key i) = Some (VStatus sn)) /\
  (forall c sn, In c (calls t) -> stores c sn -> terminal_failure sn ->
      progress sn = Some (PFin 0)).
Proof.
  intros H Hres.
  assert (Hshape : exists before st err,
             calls t = before ++
               _update_download_status now i st (Some (PFin 0)) err /\
             (st = L "failed" \/ st = L "cancelled") /\
             forall c, In c before ->
               (exists p, In c (_update_download_progress now i p)) \/
               (exists s, In c (_update_download_speed now i s))).
  { unfold _execute_download in H.
    destruct (spawn_error r) as [msg|].
    - injection H as <-.
      exists [], (L "failed"), (Some (exc_str (OSError msg))).
      repeat split; [left; reflexivity | intros c []].
    - destruct (read_output now i (output r) (cancel_after r) (read_error r))
        as [cs e] eqn:Er.
      assert (Hcs : forall c, In c cs ->
                 (exists p, In c (_update_download_progress now i p)) \/
                 (exists s, In c (_update_download_speed now i s))).
      { intros c Hc.
        apply (read_calls now i (output r) (cancel_after r) (read_error r)).
        rewrite Er. exact Hc. }
      rewrite read_output_eq in Er. injection Er as _ <-.
      destruct (reading_ends _ _ _) as [e|] eqn:Ee.
      + apply reading_ends_cases in Ee as [-> | [m ->]].
        * unfold handler in H.
          destruct (match returncode (proc r) with
                    | Some _ => _ | None => _ end) as [p'|]; [|discriminate].
          injection H as <-. exists cs, (L "cancelled"), None.
          repeat split; [right; reflexivity | exact Hcs].
        * injection H as <-.
          exists cs, (L "failed"), (Some (exc_str (ValueError m))).
          repeat split; [left; reflexivity | exact Hcs].
      + destruct (wait fuel (proc r)) as [p'|]; [|discriminate].
        injection H as <-. cbn [result calls] in *.
        destruct (match returncode p' with Some c => c =? 0 | None => false end);
          [congruence|].
        exists cs, (L "failed"), None.
        repeat split; [left; reflexivity | exact Hcs]. }
  destruct Hshape as (before & st & err & Ec & Hst & Hbefore).
  assert (Est : forall s, s = L "failed" \/ s = L "cancelled" ->
                  eqb s (L "completed") = false /\ eqb s (L "downloading") = false).
  { intros s [-> | ->]; split; reflexivity. }
  split.
  - eexists before, _. split; [exact Ec|]. split; [exact Hst|].
    split; [reflexivity|].
    intros r0 Hr0. rewrite Ec.
    apply (get_last_call r0 before
             {| key := status_key i; val := VStatus _; expire := Some 3600 |} Hr0).
    reflexivity.
  - intros c sn Hc Hsn Hterm. rewrite Ec in Hc.
    apply in_app_or in Hc as [Hc | [<- | []]].
    + destruct (Est _ Hterm) as [_ Hd].
      destruct (Hbefore c Hc) as [[p [<- | []]] | [s [<- | []]]];
        unfold stores in Hsn; cbn in Hsn; [|discriminate].
      injection Hsn as <-. cbn in Hd. discriminate Hd.
    + unfold stores in Hsn. cbn in Hsn. injection Hsn as <-. reflexivity.
Qed.

(** C9 at a run that fails after it has published 50 percent. *)
Lemma C9_witness :
  exists t,
    _execute_download 5 0 7 half_then_fails = Some t /\
    published_progress (calls t) = [PFin 50] /\
    exists before sn,
      calls t = before ++
        [ {| key := status_key 7; val := VStatus sn; expire := Some 3600 |} ] /\
      terminal_failure sn /\
      progress sn = Some (PFin 0) /\
      forall r0, client r0 = true ->
        get (set_all r0 (calls t)) (status_key 7) = Some (VStatus sn).
Proof.
  eexists. split; [vm_compute; reflexivity|].
  split; [vm_compute; reflexivity|].
  apply (C9_failure_resets_progress 5 0 7 half_then_fails).
  - vm_compute. reflexivity.
  - discriminate.
Defined.

End QueueBackedRuns.

(** ** Cancellation and capacity in the queue-backed service *)

Module QueueBackedControl.
Import PyStr RedisManager Subprocess DownloadService DownloadServiceRun.
Import ServiceTerms.
Import DownloadServiceRunFacts.

(** C3, refuted as stated: for a tool that ignores SIGTERM,
    [cancel_download] is still waiting after any number of ticks, and so
    is the cancelled [_execute_download]; no cancelled snapshot is
    published. *)
Lemma C3_counterexample :
  returncode stubborn = None /\
  (forall fuel, cancel_download fuel 0 1 {[ 1 := stubborn ]} = None) /\
  (forall fuel,
      _execute_download fuel 0 1
        {| spawn_error := None; output := []; read_error := None;
           proc := stubborn; cancel_after := Some 0%nat |} = None).
Proof.
  split; [reflexivity|]. split; intros fuel.
  - unfold cancel_download.
    replace (_ !! _) with (Some stubborn)
      by (symmetry; apply lookup_singleton_eq).
    unfold handler. cbn [returncode stubborn].
    rewrite wait_never; reflexivity.
  - unfold _execute_download, handler. cbn.
    rewrite wait_never; reflexivity.
Qed.

(** C3, amended: cancelling a running job sends the process one SIGTERM
    and then waits for its exit with no time limit and no forced kill.
    When the call returns, the process has received that SIGTERM and
    nothing else, it has exited, the entry of the job is gone and the
    cancelled snapshot with progress 0.0 has been published.  The call
    returns within [n] ticks when the process reacts to SIGTERM by exiting
    after [n] ticks; it never returns when the process ignores SIGTERM and
    does not exit on its own. *)
Theorem C3_cancel_terminates_and_waits fuel now i (a : active) p :
  a !! i = Some p ->
  returncode p = None ->
  (forall a' cs h b,
      cancel_download fuel now i a = Some (a', cs, h, b) ->
      exists p',
        h = Some p' /\
        received p' = received p ++ [SIGTERM] /\
        is_Some (returncode p') /\
        a' !! i = None /\
        cs = _update_download_status now i (L "cancelled")
               (Some (PFin 0)) None) /\
  (forall n c,
      on_sigterm p = Some (n, c) -> (n < fuel)%nat ->
      is_Some (cancel_download fuel now i a)) /\
  (on_sigterm p = None -> exits_in p = None ->
   cancel_download fuel now i a = None).
Proof.
  intros Ha Hr. unfold cancel_download, handler. rewrite Ha, Hr.
  split; [|split].
  - intros a' cs h b H.
    destruct (wait fuel (terminate p)) as [p'|] eqn:Ew; [|discriminate].
    cbn in H. injection H as <- <- <- <-.
    apply wait_Some in Ew as (E1 & E2 & _).
    exists p'. repeat split; try assumption.
    apply lookup_delete_eq.
  - intros n c Hs Hn.
    destruct (wait_enough fuel (terminate p) n c) as [p' ->];
      [exact Hr | unfold terminate; cbn; rewrite Hs; reflexivity | exact Hn |].
    cbn. eauto.
  - intros Hs He. rewrite wait_never; [reflexivity | exact Hr |].
    unfold terminate. cbn. rewrite Hs. exact He.
Qed.

(** C3 at a job whose tool exits two ticks after SIGTERM. *)
Lemma C3_witness : is_Some (cancel_download 3 0 1 {[ 1 := obedient ]}).
Proof.
  apply (proj1 (proj2 (C3_cancel_terminates_and_waits
                         3 0 1 {[ 1 := obedient ]} obedient
                         (lookup_singleton_eq 1 obedient) eq_refl))
           2%nat (-15)).
  - reflexivity.
  - lia.
Defined.


End QueueBackedControl.

(** ** The retry endpoint *)

Module RetryEndpoint.
Import DownloadsApi ApiTerms.




End RetryEndpoint.

(** ** The thread pool of the in-process downloader *)

Module PoolFacts.
Import PyStr AdvancedYouTubeDownloader DownloaderTerms.


(** The loop over the output when every line can be read. *)
Lemma read_lines_all lines failing :
  (forall j message,
      failing = Some (j, message) -> (length lines <= j)%nat) ->
  read_lines lines failing =
    (flat_map line_update lines, map strip lines, None).
Proof.
  revert failing. induction lines as [|line rest IH]; intros failing H;
    [reflexivity|].
  cbn [read_lines flat_map map].
  destruct failing as [[[|j] m]|].
  - specialize (H _ _ eq_refl). simpl in H. lia.
  - rewrite IH; [reflexivity|].
    intros j' m' [= <- <-]. specialize (H _ _ eq_refl). simpl in H. lia.
  - rewrite IH; [reflexivity | discriminate].
Qed.

(** The loop over the output when the line of index [j] cannot be
    read. *)
Lemma read_lines_fails lines j message :
  (j < length lines)%nat ->
  read_lines lines (Some (j, message)) =
    (flat_map line_update (firstn j lines), map strip (firstn j lines),
     Some message).
Proof.
  revert j. induction lines as [|line rest IH]; intros j H;
    [simpl in H; lia|].
  destruct j as [|j]; [reflexivity|].
  cbn [read_lines later firstn flat_map map].
  rewrite IH by (simpl in H; lia). reflexivity.
Qed.



Section Invariant.
Variable max_workers : nat.




End Invariant.



End PoolFacts.

Module InProcessPool.
Import PyStr AdvancedYouTubeDownloader PoolFacts DownloaderTerms.


Lemma one_downloading_reachable : reachable 4 one_downloading.
Proof.
  pose proof (reach_init 4) as H0.
  pose proof (reach_step 4 _ _ H0 (step_add 4 init a_job eq_refl)) as H1.
  match type of H1 with reachable _ ?d =>
    pose proof (reach_step 4 d _ H1 (step_submit 4 d a_job 1 [] eq_refl)) as H2
  end.
  match type of H2 with reachable _ ?d =>
    pose proof (reach_step 4 d _ H2
                  (step_start 4 d a_job 1 [] 0 a_run eq_refl
                     ltac:(simpl; lia))) as H3
  end.
  match type of H3 with reachable _ ?d =>
    pose proof (reach_step 4 d _ H3
                  (step_update 4 d [] 1 _ _ [] eq_refl)) as H4
  end.
  assert (E : forall d, reachable 4 d -> d = one_downloading ->
                reachable 4 one_downloading) by (intros d H <-; exact H).
  apply (E _ H4). reflexivity.
Qed.


End InProcessPool.

(** ** Exit codes *)

Module ExitCodes.
Import PyStr CommonTerms.





End ExitCodes.

(** ** Texts split at a separator *)

Module SplitFacts.
Import PyStr TextTerms.

Lemma split_on_none c cur s :
  ~ In c s -> split_on_from c cur s = [rev cur ++ s].
Proof.
  revert cur. induction s as [|x s IH]; intros cur H.
  - cbn. rewrite app_nil_r. reflexivity.
  - cbn [split_on_from]. destruct (Ascii.eqb x c) eqn:E.
    + apply Ascii.eqb_eq in E. subst x. destruct H. left. reflexivity.
    + rewrite IH by (intros H'; apply H; right; exact H').
      cbn [rev]. rewrite <- app_assoc. reflexivity.
Qed.

Lemma split_on_from_sep c cur a rest :
  ~ In c a ->
  split_on_from c cur (a ++ c :: rest) =
  (rev cur ++ a) :: split_on_from c [] rest.
Proof.
  revert cur. induction a as [|x a IH]; intros cur H.
  - cbn [app split_on_from]. rewrite Ascii.eqb_refl, app_nil_r. reflexivity.
  - cbn [app split_on_from]. destruct (Ascii.eqb x c) eqn:E.
    + apply Ascii.eqb_eq in E. subst x. destruct H. left. reflexivity.
    + rewrite IH by (intros H'; apply H; right; exact H').
      cbn [rev]. rewrite <- app_assoc. reflexivity.
Qed.

Lemma no_slash_app a b : no_slash a -> no_slash b -> no_slash (a ++ b).
Proof. intros Ha Hb H. apply in_app_or in H as [H | H]; auto. Qed.

Lemma digits_from_chars fuel n acc c :
  In c (digits_from fuel n acc) -> is_digit c = true \/ In c acc.
Proof.
  revert n acc. induction fuel as [|fuel IH]; intros n acc; cbn [digits_from].
  - intros [<- | H]; [left | right; exact H].
    apply PyFloatFacts.digit_char_digit, Z.mod_pos_bound. lia.
  - destruct (n / 10 =? 0).
    + intros [<- | H]; [left | right; exact H].
      apply PyFloatFacts.digit_char_digit, Z.mod_pos_bound. lia.
    + intros H. apply IH in H as [H | [<- | H]]; auto.
      left. apply PyFloatFacts.digit_char_digit, Z.mod_pos_bound. lia.
Qed.

Lemma of_int_no_slash n : no_slash (of_int n).
Proof.
  unfold no_slash, of_int, of_nonneg. destruct (n <? 0).
  - intros [H | H]; [discriminate H|].
    apply digits_from_chars in H as [H | []]. discriminate H.
  - intros H. apply digits_from_chars in H as [H | []]. discriminate H.
Qed.

Lemma literal_no_slash (s : string) :
  forallb (fun c => negb (Ascii.eqb c "/")) (L s) = true -> no_slash (L s).
Proof.
  intros H Hin. rewrite forallb_forall in H. specialize (H _ Hin).
  rewrite Ascii.eqb_refl in H. discriminate H.
Qed.

Lemma split_on_join c parts :
  parts <> [] -> Forall (fun p => ~ In c p) parts ->
  split_on c (join [c] parts) = parts.
Proof.
  unfold split_on. induction parts as [|p parts IH]; [congruence|].
  intros _ H. inversion H as [|? ? Hp Hps]; subst.
  destruct parts as [|p' parts].
  - cbn [join]. rewrite (split_on_none c [] p Hp).
    reflexivity.
  - change (join [c] (p :: p' :: parts)) with (p ++ c :: join [c] (p' :: parts)).
    rewrite (split_on_from_sep c [] p _ Hp). cbn [rev app].
    rewrite IH by (congruence || exact Hps). reflexivity.
Qed.

End SplitFacts.

(** ** The command builders *)

Module BuilderFacts.
Import PyStr CommonTerms.

Lemma plain_not_flag s f : plain s -> flag f -> s <> f.
Proof. intros [H1 H2] [-> | ->]; assumption. Qed.

Lemma join_snoc sep ps x : exists pre, join sep (ps ++ [x]) = pre ++ x.
Proof.
  induction ps as [|p ps [pre IH]].
  - exists []. reflexivity.
  - cbn [app join]. destruct (ps ++ [x]) as [|y l] eqn:E.
    + destruct ps; discriminate E.
    + rewrite IH. exists (p ++ sep ++ pre). rewrite <- !app_assoc. reflexivity.
Qed.

(** A text whose last character is neither of the flags' last one. *)
Lemma ends_plain pre c : c <> "o"%char -> plain (pre ++ [c]).
Proof.
  intros Hc. split; intros E; apply (f_equal (@rev ascii)) in E;
    rewrite rev_unit in E; injection E as E _; congruence.
Qed.

Lemma template_plain pre : plain (pre ++ L "%(title)s.%(ext)s").
Proof.
  change (L "%(title)s.%(ext)s") with (L "%(title)s.%(ext)" ++ ["s"%char]).
  rewrite app_assoc. apply ends_plain. discriminate.
Qed.

Lemma of_int_plain n : plain (of_int n).
Proof.
  split; intros E; exact (PyFloatFacts.of_int_not_option n _ E).
Qed.

Ltac not_in_consts :=
  repeat match goal with
         | H : In _ _ |- _ => progress simpl in H
         | H : _ \/ _ |- _ => destruct H as [H | H]
         | H : False |- _ => destruct H
         | H : _ = _ |- _ => discriminate H
         end.

End BuilderFacts.

Module QueueBackedBuilder.
Import PyStr DownloadService BuilderFacts CommonTerms.

Lemma path_join_plain d : plain (path_join d (L "%(title)s.%(ext)s")).
Proof.
  unfold path_join.
  destruct (join_snoc (L "/") (path_parts d) (L "%(title)s.%(ext)s"))
    as [pre ->].
  rewrite app_assoc. apply template_plain.
Qed.

Lemma head_no_flag c f :
  flag f ->
  ~ In f [yt_dlp_path; L "-o";
          path_join (default (L "downloads") (output_directory c))
                    (L "%(title)s.%(ext)s")].
Proof.
  intros Hf [H | [H | [H | []]]].
  - destruct Hf as [-> | ->]; discriminate H.
  - destruct Hf as [-> | ->]; discriminate H.
  - exact (plain_not_flag _ _ (path_join_plain _) Hf H).
Qed.

Lemma format_selection_no_flag c f : flag f -> ~ In f (format_selection c).
Proof.
  intros Hf H. unfold format_selection, format_str in H.
  destruct (true_b (audio_only c)); destruct Hf as [-> | ->];
    not_in_consts.
Qed.

Lemma audio_extraction_flags c :
  plain (default (L "mp3") (audio_format c)) ->
  (In extract_flag (audio_extraction c) <-> true_b (extract_audio c) = true) /\
  ~ In remux_flag (audio_extraction c).
Proof.
  intros [H1 H2]. unfold audio_extraction.
  destruct (true_b (extract_audio c)); split.
  - split; [reflexivity|]. intros _. left. reflexivity.
  - intros [H | [H | [H | []]]]; try discriminate H. congruence.
  - split; [intros [] | discriminate].
  - intros [].
Qed.

Lemma video_format_flags c :
  plain (default (L "mp4") (format c)) ->
  (In remux_flag (video_format c) <->
   true_b (audio_only c) = false /\ true_b (extract_audio c) = false) /\
  ~ In extract_flag (video_format c).
Proof.
  intros [H1 H2]. unfold video_format.
  destruct (true_b (audio_only c)), (true_b (extract_audio c)); cbn [negb andb];
    try (split; [split; [intros [] | intros [? ?]; discriminate] | intros []]).
  split.
  - split; [auto|]. intros _. left. reflexivity.
  - intros [E | [E | []]]; [discriminate E | congruence].
Qed.

Lemma subtitles_no_flag c f :
  plain (join (L ",") (default [L "en"] (subtitle_languages c))) ->
  flag f -> ~ In f (subtitles c).
Proof.
  intros Hp Hf H. unfold subtitles in H.
  apply in_app_or in H as [H | H].
  - destruct (true_b (include_subtitles c)); [|destruct H].
    destruct H as [H | H]; [destruct Hf as [-> | ->]; discriminate H|].
    destruct (default [L "en"] (subtitle_languages c)) as [|l ls] eqn:E;
      [destruct H|].
    destruct H as [H | [H | []]].
    + destruct Hf as [-> | ->]; discriminate H.
    + exact (plain_not_flag _ _ Hp Hf H).
  - destruct (true_b (auto_subtitles c)); destruct Hf as [-> | ->];
      not_in_consts.
Qed.

Lemma thumbnail_metadata_no_flag c f :
  flag f -> ~ In f (thumbnail_metadata c).
Proof.
  intros Hf H. unfold thumbnail_metadata in H.
  destruct (true_b (include_thumbnail c)), (default true (include_metadata c));
    destruct Hf as [-> | ->]; not_in_consts.
Qed.

Lemma time_range_no_flag c f : flag f -> ~ In f (time_range c).
Proof.
  intros Hf H. unfold time_range in H.
  destruct (true_s (start_time c)), (true_s (end_time c));
    destruct Hf as [-> | ->]; not_in_consts.
Qed.

Lemma playlist_range_no_flag c f : flag f -> ~ In f (playlist_range c).
Proof.
  intros Hf H. unfold playlist_range in H.
  apply in_app_or in H as [H | H].
  - destruct (true_i (playlist_start c)); [|destruct H].
    destruct H as [H | [H | []]].
    + destruct Hf as [-> | ->]; discriminate H.
    + exact (plain_not_flag _ _ (of_int_plain _) Hf H).
  - destruct (true_i (playlist_end c)); [|destruct H].
    destruct H as [H | [H | []]].
    + destruct Hf as [-> | ->]; discriminate H.
    + exact (plain_not_flag _ _ (of_int_plain _) Hf H).
Qed.

Lemma additional_options_no_flag f : flag f -> ~ In f additional_options.
Proof.
  intros Hf H. unfold additional_options in H.
  destruct Hf as [-> | ->]; not_in_consts.
Qed.

Lemma command_parts c cmd :
  _build_download_command c = inl cmd ->
  exists u,
    url c = Some u /\
    cmd = [yt_dlp_path; L "-o";
           path_join (default (L "downloads") (output_directory c))
                     (L "%(title)s.%(ext)s")]
          ++ format_selection c ++ audio_extraction c ++ video_format c
          ++ subtitles c ++ thumbnail_metadata c ++ time_range c
          ++ playlist_range c ++ additional_options ++ [u].
Proof.
  unfold _build_download_command. destruct (url c) as [u|]; [|discriminate].
  intros [= <-]. exists u. split; [reflexivity|].
  rewrite <- !app_assoc. reflexivity.
Qed.

(** Where a flag can stand in the command. *)
Lemma flag_in_command c cmd f :
  _build_download_command c = inl cmd ->
  service_free_text_plain c -> flag f ->
  (In f cmd <-> In f (audio_extraction c) \/ In f (video_format c)).
Proof.
  intros Hcmd (Hu & Ha & Hv & Hs) Hf.
  apply command_parts in Hcmd as (u & Eu & ->).
  rewrite !in_app_iff.
  pose proof (head_no_flag c f Hf).
  pose proof (format_selection_no_flag c f Hf).
  pose proof (subtitles_no_flag c f Hs Hf).
  pose proof (thumbnail_metadata_no_flag c f Hf).
  pose proof (time_range_no_flag c f Hf).
  pose proof (playlist_range_no_flag c f Hf).
  pose proof (additional_options_no_flag f Hf).
  assert (~ In f [u]).
  { intros [E | []]. exact (plain_not_flag _ _ (Hu u Eu) Hf E). }
  tauto.
Qed.

End QueueBackedBuilder.

Module InProcessBuilder.
Import PyStr AdvancedYouTubeDownloader BuilderFacts CommonTerms.

Lemma os_path_join_plain d : plain (os_path_join d (L "%(title)s.%(ext)s")).
Proof.
  unfold os_path_join. destruct d as [|x d].
  - apply (template_plain []).
  - destruct (endswith (x :: d) (L "/")).
    + apply template_plain.
    + rewrite app_assoc. apply template_plain.
Qed.

Lemma job_head_no_flag job f :
  flag f ->
  ~ In f [L "yt-dlp"; L "-o";
          os_path_join (output_dir job) (L "%(title)s.%(ext)s")].
Proof.
  intros Hf [H | [H | [H | []]]].
  - destruct Hf as [-> | ->]; discriminate H.
  - destruct Hf as [-> | ->]; discriminate H.
  - exact (plain_not_flag _ _ (os_path_join_plain _) Hf H).
Qed.

Lemma job_format_selection_no_flag job f :
  flag f -> ~ In f (format_selection job).
Proof.
  intros Hf H. unfold format_selection, format_str in H.
  destruct (audio_only job); destruct Hf as [-> | ->]; not_in_consts.
Qed.

Lemma job_audio_extraction_flags job :
  plain (audio_format job) ->
  (In extract_flag (audio_extraction job) <-> extract_audio job = true) /\
  ~ In remux_flag (audio_extraction job).
Proof.
  intros [H1 H2]. unfold audio_extraction.
  destruct (extract_audio job); split.
  - split; [reflexivity|]. intros _. left. reflexivity.
  - intros [H | [H | [H | []]]]; try discriminate H. congruence.
  - split; [intros [] | discriminate].
  - intros [].
Qed.

Lemma remux_flags job :
  plain (format job) ->
  (In remux_flag (remux job) <->
   audio_only job = false /\ extract_audio job = false) /\
  ~ In extract_flag (remux job).
Proof.
  intros [H1 H2]. unfold remux.
  destruct (audio_only job), (extract_audio job); cbn [negb andb];
    try (split; [split; [intros [] | intros [? ?]; discriminate] | intros []]).
  split.
  - split; [auto|]. intros _. left. reflexivity.
  - intros [E | [E | []]]; [discriminate E | congruence].
Qed.

Lemma subtitle_options_no_flag job f :
  plain (join (L ",") (subtitle_langs job)) ->
  flag f -> ~ In f (subtitle_options job).
Proof.
  intros Hp Hf H. unfold subtitle_options in H.
  apply in_app_or in H as [H | H].
  - destruct (subtitles job); [|destruct H].
    destruct H as [H | H]; [destruct Hf as [-> | ->]; discriminate H|].
    destruct (subtitle_langs job) as [|l ls] eqn:E; [destruct H|].
    destruct H as [H | [H | []]].
    + destruct Hf as [-> | ->]; discriminate H.
    + exact (plain_not_flag _ _ Hp Hf H).
  - destruct (auto_subtitles job); destruct Hf as [-> | ->]; not_in_consts.
Qed.

Lemma job_thumbnail_metadata_no_flag job f :
  flag f -> ~ In f (thumbnail_metadata job).
Proof.
  intros Hf H. unfold thumbnail_metadata in H.
  destruct (thumbnail job), (metadata job); destruct Hf as [-> | ->];
    not_in_consts.
Qed.

Lemma job_time_range_no_flag job f : flag f -> ~ In f (time_range job).
Proof.
  intros Hf H. unfold time_range in H.
  destruct (true_s (start_time job)), (true_s (end_time job));
    destruct Hf as [-> | ->]; not_in_consts.
Qed.

Lemma job_playlist_range_no_flag job f : flag f -> ~ In f (playlist_range job).
Proof.
  intros Hf H. unfold playlist_range in H.
  apply in_app_or in H as [H | H].
  - destruct (true_i (playlist_start job)); [|destruct H].
    destruct H as [H | [H | []]].
    + destruct Hf as [-> | ->]; discriminate H.
    + exact (plain_not_flag _ _ (of_int_plain _) Hf H).
  - destruct (true_i (playlist_end job)); [|destruct H].
    destruct H as [H | [H | []]].
    + destruct Hf as [-> | ->]; discriminate H.
    + exact (plain_not_flag _ _ (of_int_plain _) Hf H).
Qed.

Lemma speed_limit_no_flag float_str job f :
  flag f -> ~ In f (speed_limit float_str job).
Proof.
  intros Hf H. unfold speed_limit in H.
  destruct (true_f (speed job)); [|destruct H].
  destruct H as [H | [H | []]].
  - destruct Hf as [-> | ->]; discriminate H.
  - refine (plain_not_flag _ _ _ Hf H). apply ends_plain. discriminate.
Qed.

Lemma job_additional_options_no_flag f : flag f -> ~ In f additional_options.
Proof.
  intros Hf H. unfold additional_options in H.
  destruct Hf as [-> | ->]; not_in_consts.
Qed.

(** Where a flag can stand in the command. *)
Lemma job_flag_in_command float_str job f :
  job_free_text_plain job -> flag f ->
  (In f (build_command float_str job) <->
   In f (audio_extraction job) \/ In f (remux job)).
Proof.
  intros (Hu & Ha & Hv & Hs) Hf. unfold build_command.
  rewrite !in_app_iff.
  pose proof (job_head_no_flag job f Hf).
  pose proof (job_format_selection_no_flag job f Hf).
  pose proof (subtitle_options_no_flag job f Hs Hf).
  pose proof (job_thumbnail_metadata_no_flag job f Hf).
  pose proof (job_time_range_no_flag job f Hf).
  pose proof (job_playlist_range_no_flag job f Hf).
  pose proof (speed_limit_no_flag float_str job f Hf).
  pose proof (job_additional_options_no_flag f Hf).
  assert (~ In f [url job]).
  { intros [E | []]. exact (plain_not_flag _ _ Hu Hf E). }
  tauto.
Qed.

End InProcessBuilder.

(** ** Properties of the command builders *)

Module CommandBuilders.
Import PyStr BuilderFacts CommonTerms TextTerms.

(** C5, refuted as stated: for quality 720 at 30 frames per second both
    builders give a selector with one fallback, not a chain of two, and
    no alternative of it names a container; and a frame rate of 0,
    though given, adds no filter. *)
Lemma C5_counterexample :
  split_on "/" (DownloadService.format_str (L "720") (Some 30)) =
    [L "bestvideo[height<=720][fps<=30]+bestaudio"; L "best[height<=720]"] /\
  split_on "/" (AdvancedYouTubeDownloader.format_str (L "720") (Some 30)) =
    [L "bestvideo[height<=720][fps<=30]+bestaudio"; L "best[height<=720]"] /\
  ~ two_fallbacks (DownloadService.format_str (L "720") (Some 30)) /\
  contains (L "ext") (DownloadService.format_str (L "720") (Some 30)) = false /\
  DownloadService.format_str (L "720") (Some 0) =
    L "bestvideo[height<=720]+bestaudio/best[height<=720]".
Proof.
  repeat split; try (vm_compute; reflexivity).
  intros (a & b & c & rest & E). vm_compute in E. discriminate E.
Qed.

Lemma format_str_service q f :
  DownloadService.format_str q f = primary q f ++ L "/" ++ fallback q.
Proof.
  unfold DownloadService.format_str, primary, fallback, fps_filter,
    DownloadService.true_i.
  destruct f as [n|]; [destruct (n =? 0)|]; cbn [negb default];
    rewrite <- ?app_assoc; reflexivity.
Qed.

Lemma format_str_job q f :
  AdvancedYouTubeDownloader.format_str q f = primary q f ++ L "/" ++ fallback q.
Proof.
  unfold AdvancedYouTubeDownloader.format_str, primary, fallback, fps_filter,
    AdvancedYouTubeDownloader.true_i.
  destruct f as [n|]; [destruct (n =? 0)|]; cbn [negb default];
    rewrite <- ?app_assoc; reflexivity.
Qed.

Lemma primary_no_slash q f : no_slash q -> no_slash (primary q f).
Proof.
  intros Hq. unfold primary, fps_filter.
  destruct f as [n|]; [destruct (n =? 0)|];
    repeat apply SplitFacts.no_slash_app;
    try exact Hq; try apply SplitFacts.of_int_no_slash;
    try (apply SplitFacts.literal_no_slash; reflexivity);
    intros [].
Qed.

Lemma fallback_no_slash q : no_slash q -> no_slash (fallback q).
Proof.
  intros Hq. unfold fallback.
  repeat apply SplitFacts.no_slash_app; try exact Hq;
    apply SplitFacts.literal_no_slash; reflexivity.
Qed.

(** C5, amended: with audio_only true the command selects the format
    bestaudio; with audio_only false or not given its selector is the
    first choice, which bounds the video height by the quality, carries
    the frame-rate filter exactly when a frame rate is given and is not
    zero, and pairs the video with the best audio, followed after a slash
    by one fallback, the best single file within the same height bound
    and with no frame-rate filter.  For a quality without a slash those
    two are all the alternatives of the selector. *)
Theorem C5_format_selector :
  (forall c cmd q,
      DownloadService._build_download_command c = inl cmd ->
      DownloadService.quality c = Some q \/
      (DownloadService.quality c = None /\ q = L "1080") ->
      nth_error cmd 3 = Some (L "-f") /\
      (DownloadService.audio_only c = Some true ->
       nth_error cmd 4 = Some (L "bestaudio")) /\
      (DownloadService.audio_only c = Some false \/
       DownloadService.audio_only c = None ->
       nth_error cmd 4 =
         Some (primary q (DownloadService.fps c) ++ L "/" ++ fallback q))) /\
  (forall float_str job,
      let cmd := AdvancedYouTubeDownloader.build_command float_str job in
      let q := AdvancedYouTubeDownloader.resolution job in
      nth_error cmd 3 = Some (L "-f") /\
      (AdvancedYouTubeDownloader.audio_only job = true ->
       nth_error cmd 4 = Some (L "bestaudio")) /\
      (AdvancedYouTubeDownloader.audio_only job = false ->
       nth_error cmd 4 =
         Some (primary q (AdvancedYouTubeDownloader.fps job)
               ++ L "/" ++ fallback q))) /\
  (forall q f,
      fallback q = L "best[height<=" ++ q ++ L "]" /\
      ((exists n, f = Some n /\ n <> 0 /\
                  primary q f = L "bestvideo[height<=" ++ q ++ L "]"
                                ++ L "[fps<=" ++ of_int n ++ L "]"
                                ++ L "+bestaudio") \/
       ((f = None \/ f = Some 0) /\
        primary q f = L "bestvideo[height<=" ++ q ++ L "]"
                      ++ L "+bestaudio"))) /\
  (forall q f,
      no_slash q ->
      split_on "/" (primary q f ++ L "/" ++ fallback q) =
        [primary q f; fallback q]).
Proof.
  split; [|split; [|split]].
  - intros c cmd q H Hq.
    apply QueueBackedBuilder.command_parts in H as (u & _ & ->).
    unfold DownloadService.format_selection.
    rewrite format_str_service.
    assert (Eq : default (L "1080") (DownloadService.quality c) = q)
      by (destruct Hq as [-> | [-> ->]]; reflexivity).
    rewrite Eq.
    split; [destruct (DownloadService.true_b _); reflexivity|].
    split.
    + intros ->. reflexivity.
    + intros [-> | ->]; reflexivity.
  - intros float_str job cmd q. subst cmd q.
    unfold AdvancedYouTubeDownloader.build_command,
      AdvancedYouTubeDownloader.format_selection.
    rewrite format_str_job.
    split; [destruct (AdvancedYouTubeDownloader.audio_only job); reflexivity|].
    split; intros ->; reflexivity.
  - intros q f. split; [reflexivity|]. unfold primary, fps_filter.
    destruct f as [n|]; [destruct (n =? 0) eqn:E|].
    + apply Z.eqb_eq in E. subst n. right. auto.
    + apply Z.eqb_neq in E. left. exists n. repeat split; [exact E|].
      rewrite <- !app_assoc. reflexivity.
    + right. auto.
  - intros q f Hq.
    apply (SplitFacts.split_on_join "/" [primary q f; fallback q]);
      [discriminate|].
    repeat constructor;
      [apply primary_no_slash | apply fallback_no_slash]; exact Hq.
Qed.

Lemma scenario_b_built :
  DownloadService._build_download_command scenario_b = inl scenario_b_command.
Proof. reflexivity. Qed.

(** C5 at a request for the audio only and at scenario B. *)
Lemma C5_witness :
  (exists cmd,
      DownloadService._build_download_command audio_request = inl cmd /\
      nth_error cmd 3 = Some (L "-f") /\
      nth_error cmd 4 = Some (L "bestaudio")) /\
  nth_error scenario_b_command 4 =
    Some (L "bestvideo[height<=720]+bestaudio/best[height<=720]").
Proof.
  split.
  - eexists. split; [reflexivity|].
    destruct (proj1 C5_format_selector audio_request _ (L "720")
                eq_refl (or_introl eq_refl)) as (H3 & Ha & _).
    split; [exact H3 | exact (Ha eq_refl)].
  - exact (proj2 (proj2 (proj1 C5_format_selector scenario_b
                           scenario_b_command (L "720") scenario_b_built
                           (or_introl eq_refl)))
             (or_introl eq_refl)).
Defined.

(** C6, refuted as stated: a configuration whose URL is the text of the
    extraction flag, with extract_audio not set, has both flags in its
    command, the one as its URL and the other for the container; and so
    has a job of the in-process downloader with that URL. *)
Lemma C6_counterexample :
  (exists cmd,
      DownloadService.extract_audio flag_as_url = None /\
      DownloadService._build_download_command flag_as_url = inl cmd /\
      In extract_flag cmd /\ In remux_flag cmd) /\
  (exists job,
      AdvancedYouTubeDownloader.extract_audio job = false /\
      In extract_flag
         (AdvancedYouTubeDownloader.build_command (fun _ => []) job) /\
      In remux_flag
         (AdvancedYouTubeDownloader.build_command (fun _ => []) job)).
Proof.
  split.
  - eexists. split; [reflexivity|]. split; [reflexivity|].
    split; vm_compute; tauto.
  - exists {| AdvancedYouTubeDownloader.url := extract_flag;
              AdvancedYouTubeDownloader.output_dir := L "downloads";
              AdvancedYouTubeDownloader.resolution := L "720";
              AdvancedYouTubeDownloader.fps := None;
              AdvancedYouTubeDownloader.format := L "mp4";
              AdvancedYouTubeDownloader.audio_only := false;
              AdvancedYouTubeDownloader.extract_audio := false;
              AdvancedYouTubeDownloader.audio_format := L "mp3";
              AdvancedYouTubeDownloader.subtitles := false;
              AdvancedYouTubeDownloader.auto_subtitles := false;
              AdvancedYouTubeDownloader.subtitle_langs := [L "en"];
              AdvancedYouTubeDownloader.thumbnail := false;
              AdvancedYouTubeDownloader.metadata := true;
              AdvancedYouTubeDownloader.start_time := None;
              AdvancedYouTubeDownloader.end_time := None;
              AdvancedYouTubeDownloader.speed := None;
              AdvancedYouTubeDownloader.playlist_start := None;
              AdvancedYouTubeDownloader.playlist_end := None;
              AdvancedYouTubeDownloader.status := L "pending";
              AdvancedYouTubeDownloader.progress := PFin 0;
              AdvancedYouTubeDownloader.error_message := None;
              AdvancedYouTubeDownloader.completed_at := None |}.
    split; [reflexivity|]. split; vm_compute; tauto.
Qed.

Lemma true_b_true o : DownloadService.true_b o = true <-> o = Some true.
Proof. destruct o as [[]|]; split; intros H; try reflexivity; discriminate H. Qed.

Lemma true_b_false o : DownloadService.true_b o = false <-> o <> Some true.
Proof.
  destruct o as [[]|]; split; intros H; try reflexivity; try discriminate H;
    congruence.
Qed.

(** C6, amended: when the texts of the configuration that go into the
    command as they are (the URL, the two formats, the joined subtitle
    languages) are not these flags themselves, then in the command of
    either builder the extraction flag stands exactly when extract_audio
    is true, followed by the audio format option and the codec; the remux
    flag stands exactly when neither audio_only nor extract_audio is
    true, followed by the container; and the two flags never stand
    together. *)
Theorem C6_extract_and_remux_exclusive :
  (forall c cmd,
      DownloadService._build_download_command c = inl cmd ->
      service_free_text_plain c ->
      (In extract_flag cmd <-> DownloadService.extract_audio c = Some true) /\
      (DownloadService.extract_audio c = Some true ->
       exists pre post,
         cmd = pre ++ [extract_flag; L "--audio-format";
                       default (L "mp3") (DownloadService.audio_format c)]
                   ++ post) /\
      (In remux_flag cmd <->
       DownloadService.audio_only c <> Some true /\
       DownloadService.extract_audio c <> Some true) /\
      (DownloadService.audio_only c <> Some true ->
       DownloadService.extract_audio c <> Some true ->
       exists pre post,
         cmd = pre ++ [remux_flag;
                       default (L "mp4") (DownloadService.format c)] ++ post) /\
      ~ (In extract_flag cmd /\ In remux_flag cmd)) /\
  (forall float_str job,
      job_free_text_plain job ->
      let cmd := AdvancedYouTubeDownloader.build_command float_str job in
      let extract := AdvancedYouTubeDownloader.extract_audio job in
      let audio := AdvancedYouTubeDownloader.audio_only job in
      (In extract_flag cmd <-> extract = true) /\
      (extract = true ->
       exists pre post,
         cmd = pre ++ [extract_flag; L "--audio-format";
                       AdvancedYouTubeDownloader.audio_format job] ++ post) /\
      (In remux_flag cmd <-> audio = false /\ extract = false) /\
      (audio = false -> extract = false ->
       exists pre post,
         cmd = pre ++ [remux_flag; AdvancedYouTubeDownloader.format job]
                   ++ post) /\
      ~ (In extract_flag cmd /\ In remux_flag cmd)).
Proof.
  split.
  - intros c cmd Hcmd Hplain.
    set (extract := DownloadService.true_b (DownloadService.extract_audio c)).
    set (audio := DownloadService.true_b (DownloadService.audio_only c)).
    pose proof (true_b_true (DownloadService.extract_audio c)) as Tx.
    pose proof (true_b_false (DownloadService.extract_audio c)) as Fx.
    pose proof (true_b_false (DownloadService.audio_only c)) as Fa.
    fold extract in Tx, Fx. fold audio in Fa.
    pose proof (QueueBackedBuilder.flag_in_command c cmd extract_flag Hcmd
                  Hplain (or_introl eq_refl)) as He.
    pose proof (QueueBackedBuilder.flag_in_command c cmd remux_flag Hcmd
                  Hplain (or_intror eq_refl)) as Hr.
    destruct Hplain as (_ & Ha & Hv & _).
    destruct (QueueBackedBuilder.audio_extraction_flags c Ha) as [Hae Har].
    destruct (QueueBackedBuilder.video_format_flags c Hv) as [Hvr Hve].
    apply QueueBackedBuilder.command_parts in Hcmd as (u & _ & Ecmd).
    fold extract in Hae. fold audio extract in Hvr.
    split; [tauto|]. split; [|split; [tauto|split; [|]]].
    + intros Hx. apply Tx in Hx. rewrite Ecmd.
      unfold DownloadService.audio_extraction. fold extract. rewrite Hx.
      exists ([DownloadService.yt_dlp_path; L "-o";
               DownloadService.path_join
                 (default (L "downloads") (DownloadService.output_directory c))
                 (L "%(title)s.%(ext)s")]
              ++ DownloadService.format_selection c).
      eexists. rewrite <- app_assoc. reflexivity.
    + intros H1 H2. apply Fa in H1. apply Fx in H2. rewrite Ecmd.
      unfold DownloadService.video_format. fold audio extract.
      rewrite H1, H2. cbn [negb andb].
      exists ([DownloadService.yt_dlp_path; L "-o";
               DownloadService.path_join
                 (default (L "downloads") (DownloadService.output_directory c))
                 (L "%(title)s.%(ext)s")]
              ++ DownloadService.format_selection c
              ++ DownloadService.audio_extraction c).
      eexists. rewrite <- !app_assoc. reflexivity.
    + intros [H1 H2]. apply He in H1. apply Hr in H2.
      destruct extract; intuition congruence.
  - intros float_str job Hplain cmd extract audio.
    pose proof (InProcessBuilder.job_flag_in_command float_str job extract_flag
                  Hplain (or_introl eq_refl)) as He.
    pose proof (InProcessBuilder.job_flag_in_command float_str job remux_flag
                  Hplain (or_intror eq_refl)) as Hr.
    destruct Hplain as (_ & Ha & Hv & _).
    destruct (InProcessBuilder.job_audio_extraction_flags job Ha) as [Hae Har].
    destruct (InProcessBuilder.remux_flags job Hv) as [Hvr Hve].
    fold cmd in He, Hr. fold extract in Hae. fold audio extract in Hvr.
    split; [tauto|]. split; [|split; [tauto|split; [|]]].
    + intros Hx. subst cmd.
      unfold AdvancedYouTubeDownloader.build_command,
        AdvancedYouTubeDownloader.audio_extraction. fold extract. rewrite Hx.
      exists ([L "yt-dlp"; L "-o";
               AdvancedYouTubeDownloader.os_path_join
                 (AdvancedYouTubeDownloader.output_dir job)
                 (L "%(title)s.%(ext)s")]
              ++ AdvancedYouTubeDownloader.format_selection job).
      eexists. rewrite <- !app_assoc. reflexivity.
    + intros H1 H2. subst cmd.
      unfold AdvancedYouTubeDownloader.build_command,
        AdvancedYouTubeDownloader.remux. fold audio extract.
      rewrite H1, H2. cbn [negb andb].
      exists ([L "yt-dlp"; L "-o";
               AdvancedYouTubeDownloader.os_path_join
                 (AdvancedYouTubeDownloader.output_dir job)
                 (L "%(title)s.%(ext)s")]
              ++ AdvancedYouTubeDownloader.format_selection job
              ++ AdvancedYouTubeDownloader.audio_extraction job).
      eexists. rewrite <- !app_assoc. reflexivity.
    + intros [H1 H2]. apply He in H1. apply Hr in H2.
      destruct extract; intuition congruence.
Qed.

Lemma scenario_b_plain : service_free_text_plain scenario_b.
Proof.
  split; [intros u [= <-]|]; repeat split; discriminate.
Qed.

Lemma extract_request_plain : service_free_text_plain extract_request.
Proof.
  split; [intros u [= <-]|]; repeat split; discriminate.
Qed.

(** C6 at scenario B, where the remux flag stands and the extraction flag
    does not, and at a request with extract_audio true, where it is the
    other way round. *)
Lemma C6_witness :
  (In remux_flag scenario_b_command /\ ~ In extract_flag scenario_b_command) /\
  (exists cmd,
      DownloadService._build_download_command extract_request = inl cmd /\
      In extract_flag cmd /\ ~ In remux_flag cmd).
Proof.
  split.
  - destruct (proj1 C6_extract_and_remux_exclusive scenario_b
                scenario_b_command scenario_b_built scenario_b_plain)
      as (He & _ & Hr & _ & _).
    split.
    + apply Hr. split; discriminate.
    + intros H. apply He in H. discriminate H.
  - eexists. split; [reflexivity|].
    destruct (proj1 C6_extract_and_remux_exclusive extract_request
                _ eq_refl extract_request_plain)
      as (He & _ & Hr & _ & _).
    split.
    + apply He. reflexivity.
    + intros H. apply Hr in H as [_ H]. apply H. reflexivity.
Defined.

End CommandBuilders.

(** * Further properties of the code *)

(** ** Lists *)

Module ListFacts.

Lemma last_default {A} (l : list A) (x d1 d2 : A) :
  List.last (x :: l) d1 = List.last (x :: l) d2.
Proof.
  revert x. induction l as [|y l IH]; intros x; [reflexivity|].
  change (List.last (y :: l) d1 = List.last (y :: l) d2). apply IH.
Qed.

Lemma last_cons {A} (l : list A) (x d : A) :
  List.last l x = List.last (x :: l) d.
Proof.
  destruct l as [|y l]; [reflexivity|].
  change (List.last (y :: l) x = List.last (y :: l) d). apply last_default.
Qed.

End ListFacts.

(** ** Properties of the Redis manager *)

Module RedisFacts.
Import PyStr RedisManager RedisClient StoreTerms ExampleTerms.
Import ListFacts.

Lemma push_client r q x : client (fst (push_to_queue r q x)) = client r.
Proof.
  unfold push_to_queue. destruct (client r) eqn:E; [reflexivity | exact E].
Qed.

Lemma push_all_client r q xs : client (push_all r q xs) = client r.
Proof.
  revert r. induction xs as [|x xs IH]; intros r; [reflexivity|].
  cbn [push_all fold_left]. fold (push_all (fst (push_to_queue r q x)) q xs).
  rewrite IH. apply push_client.
Qed.

Lemma queued_push r q x :
  client r = true -> queued (fst (push_to_queue r q x)) q = queued r q ++ [x].
Proof.
  intros Hr. unfold queued, push_to_queue. rewrite Hr. cbn [fst lists].
  rewrite lookup_insert_eq. reflexivity.
Qed.

Lemma queued_push_all r q xs :
  client r = true -> queued (push_all r q xs) q = queued r q ++ xs.
Proof.
  revert r. induction xs as [|x xs IH]; intros r Hr.
  - rewrite app_nil_r. reflexivity.
  - cbn [push_all fold_left]. fold (push_all (fst (push_to_queue r q x)) q xs).
    rewrite IH by (rewrite push_client; exact Hr).
    rewrite queued_push by exact Hr. rewrite <- app_assoc. reflexivity.
Qed.

Lemma pop_empty r q :
  queued r q = [] -> pop_from_queue r q = (r, None).
Proof.
  unfold queued, pop_from_queue. intros H.
  destruct (default [] (lists r !! q)) as [|x l].
  - destruct (client r); reflexivity.
  - apply (f_equal (@length _)) in H. rewrite length_rev in H. discriminate H.
Qed.

Lemma pop_oldest r q y ys :
  client r = true -> queued r q = y :: ys ->
  snd (pop_from_queue r q) = Some y /\
  client (fst (pop_from_queue r q)) = true /\
  queued (fst (pop_from_queue r q)) q = ys.
Proof.
  unfold queued, pop_from_queue. intros Hr H. rewrite Hr.
  assert (E : default [] (lists r !! q) = rev ys ++ [y]).
  { rewrite <- (rev_involutive (default [] (lists r !! q))), H. reflexivity. }
  destruct (default [] (lists r !! q)) as [|x l]; [destruct (rev ys); discriminate E|].
  cbn [fst snd client lists].
  rewrite (last_cons l x y), E, last_last, removelast_last.
  split; [reflexivity|]. split; [reflexivity|].
  destruct (rev ys) as [|z zs] eqn:Ez.
  - rewrite lookup_delete_eq. cbn.
    rewrite <- (rev_involutive ys), Ez. reflexivity.
  - rewrite lookup_insert_eq. cbn [default].
    rewrite <- Ez. apply rev_involutive.
Qed.

Lemma pop_n_queued n r q :
  client r = true ->
  snd (pop_n n r q) =
    map Some (firstn n (queued r q)) ++ repeat None (n - length (queued r q)) /\
  client (fst (pop_n n r q)) = true /\
  queued (fst (pop_n n r q)) q = skipn n (queued r q).
Proof.
  revert r. induction n as [|n IH]; intros r Hr.
  - cbn. rewrite firstn_0. auto.
  - cbn [pop_n]. destruct (queued r q) as [|y ys] eqn:E.
    + rewrite (pop_empty r q E).
      destruct (IH r Hr) as (H1 & H2 & H3). rewrite E in H1, H3.
      destruct (pop_n n r q) as [r2 rest]. cbn [fst snd] in *.
      rewrite H1. rewrite firstn_nil, skipn_nil in *. cbn.
      rewrite Nat.sub_0_r. auto.
    + destruct (pop_oldest r q y ys Hr E) as (P1 & P2 & P3).
      destruct (pop_from_queue r q) as [r1 item]. cbn [fst snd] in *.
      destruct (IH r1 P2) as (H1 & H2 & H3). rewrite P3 in H1, H3.
      destruct (pop_n n r1 q) as [r2 rest]. cbn [fst snd] in *.
      rewrite H1, P1. cbn. auto.
Qed.

(** X2: the queue is first in, first out.  With a client, pushing items
    makes the length grow by their number, and [n] calls of
    [pop_from_queue] after that return the oldest [n] items, the oldest
    first, then [None] once the queue is empty, and leave the rest. *)
Theorem queue_first_in_first_out r q items n :
  client r = true ->
  get_queue_length (push_all r q items) q =
    get_queue_length r q + Z.of_nat (length items) /\
  snd (pop_n n (push_all r q items) q) =
    map Some (firstn n (queued r q ++ items))
    ++ repeat None (n - length (queued r q ++ items)) /\
  queued (fst (pop_n n (push_all r q items) q)) q =
    skipn n (queued r q ++ items).
Proof.
  intros Hr.
  assert (Hc : client (push_all r q items) = true)
    by (rewrite push_all_client; exact Hr).
  destruct (pop_n_queued n (push_all r q items) q Hc) as (H1 & _ & H3).
  rewrite (queued_push_all r q items Hr) in H1, H3.
  split; [|split; assumption].
  unfold get_queue_length. rewrite Hc, Hr.
  pose proof (queued_push_all r q items Hr) as E.
  apply (f_equal (@length _)) in E. unfold queued in E.
  rewrite length_app, !length_rev in E. lia.
Qed.

(** X2 at two items pushed on an empty queue and popped three times. *)
Lemma queue_first_in_first_out_witness :
  snd (pop_n 3 (push_all connected (L "download_queue") [(1, 10); (2, 20)])
             (L "download_queue"))
  = [Some (1, 10); Some (2, 20); None].
Proof.
  exact (proj1 (proj2 (queue_first_in_first_out
                         connected (L "download_queue") [(1, 10); (2, 20)] 3
                         eq_refl))).
Defined.

End RedisFacts.

(** ** The keys of the service *)

Module KeyFacts.
Import PyStr RedisManager DownloadService TextTerms.

Lemma digit_val_char d : 0 <= d < 10 -> digit_val (digit_char d) = d.
Proof.
  intros H.
  assert (d = 0 \/ d = 1 \/ d = 2 \/ d = 3 \/ d = 4 \/ d = 5 \/ d = 6
          \/ d = 7 \/ d = 8 \/ d = 9) as Hd by lia.
  repeat (destruct Hd as [-> | Hd]; [reflexivity|]). subst d. reflexivity.
Qed.

Lemma digits_from_value fuel n acc :
  0 <= n <= Z.of_nat fuel ->
  exists ds, digits_from fuel n acc = ds ++ acc /\ value_of ds = n.
Proof.
  revert n acc. induction fuel as [|fuel IH]; intros n acc Hn.
  - assert (n = 0) as -> by lia. exists [digit_char 0]. split; reflexivity.
  - cbn [digits_from]. destruct (n / 10 =? 0) eqn:E.
    + apply Z.eqb_eq in E. exists [digit_char (n mod 10)].
      split; [reflexivity|]. unfold value_of. cbn [fold_left].
      rewrite digit_val_char by (apply Z.mod_pos_bound; lia).
      pose proof (Z.div_mod n 10). lia.
    + apply Z.eqb_neq in E.
      destruct (IH (n / 10) (digit_char (n mod 10) :: acc)) as (ds & E1 & E2).
      { pose proof (Z.div_mod n 10). pose proof (Z.mod_pos_bound n 10).
        assert (0 <= n / 10) by (apply Z.div_pos; lia). lia. }
      exists (ds ++ [digit_char (n mod 10)]). split.
      * rewrite E1, <- app_assoc. reflexivity.
      * unfold value_of in *. rewrite fold_left_app. cbn [fold_left].
        rewrite E2, digit_val_char by (apply Z.mod_pos_bound; lia).
        pose proof (Z.div_mod n 10). lia.
Qed.

Lemma of_nonneg_value n : 0 <= n -> value_of (of_nonneg n) = n.
Proof.
  intros Hn. unfold of_nonneg.
  destruct (digits_from_value (Z.to_nat n) n []) as (ds & E1 & E2); [lia|].
  rewrite E1, app_nil_r. exact E2.
Qed.

Lemma of_nonneg_no_sign n s : of_nonneg n <> "-"%char :: s.
Proof.
  unfold of_nonneg.
  destruct (PyFloatFacts.digits_from_head (Z.to_nat n) n []) as (c & r & -> & Hc).
  intros [= -> _]. discriminate Hc.
Qed.

(** [str] is injective on the integers. *)
Lemma of_int_inj n m : of_int n = of_int m -> n = m.
Proof.
  unfold of_int.
  destruct (n <? 0) eqn:En, (m <? 0) eqn:Em; intros E;
    try apply Z.ltb_lt in En; try apply Z.ltb_ge in En;
    try apply Z.ltb_lt in Em; try apply Z.ltb_ge in Em.
  - injection E as E. apply (f_equal value_of) in E.
    rewrite !of_nonneg_value in E by lia. lia.
  - symmetry in E. destruct (of_nonneg_no_sign _ _ E).
  - destruct (of_nonneg_no_sign _ _ E).
  - apply (f_equal value_of) in E. rewrite !of_nonneg_value in E by lia.
    exact E.
Qed.

Lemma status_key_inj i j : status_key i = status_key j -> i = j.
Proof. intros E. apply app_inv_head in E. apply of_int_inj, E. Qed.

Lemma speed_key_inj i j : speed_key i = speed_key j -> i = j.
Proof. intros E. apply app_inv_head in E. apply of_int_inj, E. Qed.

Lemma status_key_not_speed_key i j : status_key i <> speed_key j.
Proof. unfold status_key, speed_key. cbn. discriminate. Qed.

(** X3: the keys identify the job.  Two status keys, or two speed keys,
    are equal only for the same download id, and no status key is a speed
    key. *)
Theorem keys_identify_the_job i j :
  (status_key i = status_key j <-> i = j) /\
  (speed_key i = speed_key j <-> i = j) /\
  status_key i <> speed_key j.
Proof.
  split; [|split].
  - split; [apply status_key_inj | intros ->; reflexivity].
  - split; [apply speed_key_inj | intros ->; reflexivity].
  - apply status_key_not_speed_key.
Qed.

End KeyFacts.

(** ** Properties of the store of the service *)

Module StoreFacts.
Import PyStr RedisManager RedisClient Subprocess DownloadService.
Import DownloadServiceRun DownloadServiceQueries.
Import ServiceTerms StoreTerms ExampleTerms.
Import DownloadServiceRunFacts RedisFacts KeyFacts.

Lemma set_all_lists r cs : lists (set_all r cs) = lists r.
Proof.
  revert r. induction cs as [|c cs IH]; intros r; [reflexivity|].
  cbn [set_all fold_left]. fold (set_all (fst (set r c)) cs). rewrite IH.
  unfold set. destruct (client r), (0 <? ttl (expire c)); reflexivity.
Qed.

Lemma set_all_no_client r cs : client r = false -> set_all r cs = r.
Proof.
  intros Hr. induction cs as [|c cs IH]; [reflexivity|].
  cbn [set_all fold_left]. unfold set at 2. rewrite Hr. exact IH.
Qed.

(** A key no call writes reads as before. *)
Lemma get_set_all_other r cs k :
  Forall (fun c => key c <> k) cs -> get (set_all r cs) k = get r k.
Proof.
  revert r. induction cs as [|c cs IH]; intros r H; [reflexivity|].
  inversion H as [|? ? Hc Hcs]; subst.
  cbn [set_all fold_left]. fold (set_all (fst (set r c)) cs).
  rewrite IH by exact Hcs. unfold set, get.
  destruct (client r) eqn:E; cbn [fst client kv]; [|rewrite E; reflexivity].
  destruct (0 <? ttl (expire c)); cbn [fst client kv]; rewrite ?E;
    [|reflexivity].
  rewrite lookup_insert_ne by exact Hc. reflexivity.
Qed.

Lemma step_no_client now s e :
  client (store s) = false -> store (step now s e) = store s.
Proof.
  intros Hs. destruct e as [i | i p | i line | i code]; cbn [step].
  - cbn [store]. unfold queue_download, push_to_queue. rewrite Hs. reflexivity.
  - reflexivity.
  - destruct (active_downloads s !! i); [|reflexivity].
    cbn [store]. apply set_all_no_client, Hs.
  - destruct (active_downloads s !! i); [|reflexivity].
    cbn [store]. apply set_all_no_client, Hs.
Qed.

Lemma run_from_no_client now s es :
  client (store s) = false -> store (run_from now s es) = store s.
Proof.
  revert s. induction es as [|e es IH]; intros s Hs; [reflexivity|].
  cbn [run_from fold_left]. fold (run_from now (step now s e) es).
  rewrite IH; rewrite step_no_client by exact Hs; [reflexivity | exact Hs].
Qed.

Lemma step_client now s e : client (store (step now s e)) = client (store s).
Proof.
  destruct e as [i | i p | i line | i code]; cbn [step].
  - cbn [store]. unfold queue_download. cbn [fst]. apply push_client.
  - reflexivity.
  - destruct (active_downloads s !! i); [|reflexivity].
    cbn [store]. apply set_all_client.
  - destruct (active_downloads s !! i); [|reflexivity].
    cbn [store]. apply set_all_client.
Qed.

Lemma step_queued now s e :
  client (store s) = true ->
  queued (store (step now s e)) download_queue =
  queued (store s) download_queue
  ++ match e with QueueDownload i => [(i, now)] | _ => [] end.
Proof.
  intros Hs. destruct e as [i | i p | i line | i code]; cbn [step].
  - cbn [store]. unfold queue_download. cbn [fst].
    apply queued_push, Hs.
  - rewrite app_nil_r. reflexivity.
  - rewrite app_nil_r. destruct (active_downloads s !! i); [|reflexivity].
    cbn [store]. unfold queued. rewrite set_all_lists. reflexivity.
  - rewrite app_nil_r. destruct (active_downloads s !! i); [|reflexivity].
    cbn [store]. unfold queued. rewrite set_all_lists. reflexivity.
Qed.

(** X4: the manager the engines use is created when the module is
    imported, before any connection exists, and [init_redis] binds the
    global name only.  So the manager has no client however often
    [init_redis] runs, also once it has connected and [get_redis] returns
    the connection. *)
Theorem manager_is_created_without_client attempts :
  redis_manager_client (after_startup attempts) = false /\
  get_redis (after_startup (attempts ++ [true])) = true.
Proof.
  split.
  - unfold after_startup.
    assert (H : forall g, redis_manager_client
                (fold_left (fun g c => init_redis c g) attempts g)
              = redis_manager_client g).
    { induction attempts as [|c cs IH]; intros g; [reflexivity|].
      cbn [fold_left]. rewrite IH. reflexivity. }
    rewrite H. reflexivity.
  - unfold after_startup. rewrite fold_left_app. reflexivity.
Qed.

(** X5: a service whose manager has no client keeps nothing.  Whatever
    happens, the store stays as it was, [get_download_progress] returns
    [None] for every job and [get_queue_status] reports a queue of length
    0, while [queue_download] returns [True]. *)
Theorem without_client_nothing_is_kept now s es i :
  client (store s) = false ->
  store (run_from now s es) = store s /\
  get_download_progress (store (run_from now s es)) i = None /\
  queue_length (get_queue_status (run_from now s es)) = 0 /\
  snd (queue_download now (store (run_from now s es)) i) = true.
Proof.
  intros Hs. rewrite (run_from_no_client now s es Hs).
  split; [reflexivity|]. split; [|split; [|reflexivity]].
  - unfold get_download_progress, get. rewrite Hs. reflexivity.
  - unfold get_queue_status. cbn [queue_length].
    rewrite (run_from_no_client now s es Hs).
    unfold get_queue_length. rewrite Hs. reflexivity.
Qed.

(** X5 at a job that is queued, runs and completes. *)
Lemma without_client_nothing_is_kept_witness :
  store (run_from 0 {| active_downloads := ∅; store := no_client |} a_session)
    = no_client /\
  get_download_progress
    (store (run_from 0 {| active_downloads := ∅; store := no_client |}
                     a_session)) 1 = None /\
  queue_length
    (get_queue_status
       (run_from 0 {| active_downloads := ∅; store := no_client |} a_session))
    = 0 /\
  snd (queue_download 0
         (store (run_from 0 {| active_downloads := ∅; store := no_client |}
                          a_session)) 1) = true.
Proof.
  apply (without_client_nothing_is_kept
           0 {| active_downloads := ∅; store := no_client |} a_session 1).
  reflexivity.
Defined.

(** X6: the service never takes a job off its queue.  With a client,
    after any events the queue holds what it held before followed by the
    ids handed to [queue_download], in that order, and the queue length
    that [get_queue_status] reports has grown by their number. *)
Theorem queue_is_never_consumed now s es :
  client (store s) = true ->
  map fst (queued (store (run_from now s es)) download_queue) =
    map fst (queued (store s) download_queue) ++ queued_ids es /\
  queue_length (get_queue_status (run_from now s es)) =
    queue_length (get_queue_status s) + Z.of_nat (length (queued_ids es)).
Proof.
  intros Hs.
  assert (H : map fst (queued (store (run_from now s es)) download_queue) =
              map fst (queued (store s) download_queue) ++ queued_ids es /\
              client (store (run_from now s es)) = true).
  { revert s Hs. induction es as [|e es IH]; intros s Hs.
    - cbn. rewrite app_nil_r. auto.
    - cbn [run_from fold_left]. fold (run_from now (step now s e) es).
      destruct (IH (step now s e)) as [E C];
        [rewrite step_client; exact Hs|].
      split; [|exact C]. rewrite E, (step_queued now s e Hs), map_app.
      rewrite <- app_assoc. f_equal.
      destruct e; reflexivity. }
  destruct H as [E C]. split; [exact E|].
  unfold get_queue_status. cbn [queue_length]. unfold get_queue_length.
  rewrite C, Hs. apply (f_equal (@length _)) in E.
  rewrite length_app, !length_map in E. unfold queued in E.
  rewrite !length_rev in E. lia.
Qed.

(** X6 at a job that is queued, runs and completes, on a service whose
    manager is connected. *)
Lemma queue_is_never_consumed_witness :
  map fst (queued (store (run_from 0 with_server a_session)) download_queue) =
    map fst (queued (store with_server) download_queue)
    ++ queued_ids a_session /\
  queue_length (get_queue_status (run_from 0 with_server a_session)) =
    queue_length (get_queue_status with_server)
    + Z.of_nat (length (queued_ids a_session)).
Proof.
  apply (queue_is_never_consumed 0 with_server a_session).
  reflexivity.
Defined.

End StoreFacts.

(** ** What a reader of the progress sees *)

Module ReaderFacts.
Import PyStr RedisManager RedisClient Subprocess DownloadService.
Import DownloadServiceRun DownloadServiceQueries.
Import ServiceTerms StoreTerms ReaderTerms ExampleTerms.
Import DownloadServiceRunFacts RedisFacts KeyFacts StoreFacts.

(** The calls of a run that ends: calls of the parser, then one status
    call. *)
Lemma execute_calls fuel now i r t :
  _execute_download fuel now i r = Some t ->
  exists before st prog err,
    calls t = before ++ _update_download_status now i st prog err /\
    terminal st /\
    (forall c, In c before -> parser_call now i c).
Proof.
  intros H. unfold _execute_download in H.
  destruct (spawn_error r) as [msg|].
  - injection H as <-.
    exists [], (L "failed"), (Some zero), (Some (exc_str (OSError msg))).
    split; [reflexivity|]. split; [right; left; reflexivity | intros c []].
  - destruct (read_output now i (output r) (cancel_after r) (read_error r))
      as [cs e] eqn:Er.
    assert (Hcs : forall c, In c cs -> parser_call now i c).
    { intros c Hc.
      apply (read_calls now i (output r) (cancel_after r) (read_error r)).
      rewrite Er. exact Hc. }
    rewrite read_output_eq in Er. injection Er as _ <-.
    destruct (reading_ends _ _ _) as [e|] eqn:Ee.
    + apply reading_ends_cases in Ee as [-> | [m ->]].
      * unfold handler in H.
        destruct (match returncode (proc r) with
                  | Some _ => _ | None => _ end) as [p'|]; [|discriminate].
        injection H as <-. exists cs, (L "cancelled"), (Some zero), None.
        split; [reflexivity|]. split; [right; right; reflexivity | exact Hcs].
      * injection H as <-.
        exists cs, (L "failed"), (Some zero), (Some (exc_str (ValueError m))).
        split; [reflexivity|]. split; [right; left; reflexivity | exact Hcs].
    + destruct (wait fuel (proc r)) as [p'|]; [|discriminate].
      injection H as <-. cbn [calls].
      destruct (match returncode p' with Some c => c =? 0 | None => false end).
      * exists cs, (L "completed"), (Some hundred), None.
        split; [reflexivity|]. split; [left; reflexivity | exact Hcs].
      * exists cs, (L "failed"), (Some zero), None.
        split; [reflexivity|]. split; [right; left; reflexivity | exact Hcs].
Qed.

Lemma parser_call_key now i c :
  parser_call now i c ->
  (key c = status_key i /\ exists sn, val c = VStatus sn) \/
  (key c = speed_key i /\ exists s, val c = VSpeed s now).
Proof.
  intros [[p [<- | []]] | [s [<- | []]]]; cbn; eauto.
Qed.

Lemma status_call_key now i st prog err c :
  In c (_update_download_status now i st prog err) ->
  key c = status_key i /\ exists sn, val c = VStatus sn /\ status sn = st.
Proof. intros [<- | []]. cbn. eauto. Qed.

(** X8: a run of one job writes under that job's two keys only, so what
    [get_download_progress] returns for any other job is the same after
    the run as before. *)
Theorem run_leaves_other_jobs_alone fuel now i j run t r :
  i <> j ->
  _execute_download fuel now i run = Some t ->
  get_download_progress (set_all r (calls t)) j = get_download_progress r j.
Proof.
  intros Hij H.
  destruct (execute_calls fuel now i run t H)
    as (before & st & prog & err & Ec & _ & Hbefore).
  assert (Hkeys : forall c, In c (calls t) ->
            key c = status_key i \/ key c = speed_key i).
  { intros c Hc. rewrite Ec in Hc. apply in_app_or in Hc as [Hc | Hc].
    - destruct (parser_call_key now i c (Hbefore c Hc)) as [[E _] | [E _]]; auto.
    - left. apply (status_call_key now i st prog err c Hc). }
  unfold get_download_progress.
  rewrite !get_set_all_other; [reflexivity | |];
    apply List.Forall_forall; intros c Hc E;
    destruct (Hkeys c Hc) as [K | K]; rewrite K in E;
    first [ apply status_key_inj in E; exact (Hij E)
          | apply speed_key_inj in E; exact (Hij E)
          | exact (status_key_not_speed_key _ _ E)
          | symmetry in E; exact (status_key_not_speed_key _ _ E) ].
Qed.

(** X8 at a run of job 1 and the report of job 2. *)
Lemma run_leaves_other_jobs_alone_witness :
  exists t,
    _execute_download 5 0 1 with_speed = Some t /\
    get_download_progress (set_all connected (calls t)) 2 =
    get_download_progress connected 2.
Proof.
  eexists. split; [vm_compute; reflexivity|].
  apply (run_leaves_other_jobs_alone 5 0 1 2 with_speed).
  - discriminate.
  - vm_compute. reflexivity.
Defined.

End ReaderFacts.

(** ** What a run never publishes *)

Module PublishedFacts.
Import PyStr RedisManager Subprocess DownloadService DownloadServiceRun.
Import ServiceTerms ReaderTerms ExampleTerms.
Import ParserFacts DownloadServiceRunFacts ReaderFacts.

Lemma published_speed_app a b :
  published_speed (a ++ b) = published_speed a ++ published_speed b.
Proof. unfold published_speed. apply flat_map_app. Qed.

Lemma parse_speed_truthy now i line v :
  In v (published_speed (fst (_parse_progress now i line))) ->
  PyFloat.truthy v = true.
Proof.
  rewrite parse_progress_eq. cbn [fst]. rewrite published_speed_app.
  intros H. apply in_app_or in H as [H | H].
  - destruct (_ && _); [|destruct H].
    destruct (first_percent_token _); destruct H.
  - destruct (_ && _); [|destruct H].
    destruct (_extract_speed line) as [[s|]|]; try destruct H.
    destruct (PyFloat.truthy s) eqn:E; [|destruct H].
    destruct H as [<- | []]. exact E.
Qed.

(** X9: a run never publishes a speed of zero.  Every speed sample among
    the calls of [_execute_download] is a float that Python takes for
    true, so a reader keeps the last speed that was not zero while the
    tool reports 0 bytes per second. *)
Theorem no_zero_speed_is_published fuel now i run t v :
  _execute_download fuel now i run = Some t ->
  In v (published_speed (calls t)) ->
  PyFloat.truthy v = true.
Proof.
  intros H Hv. unfold _execute_download in H.
  destruct (spawn_error run) as [msg|].
  { injection H as <-. destruct Hv. }
  rewrite read_output_eq in H.
  assert (Hread : forall lines w,
            In w (published_speed
                    (flat_map (fun line => fst (_parse_progress now i (strip line)))
                              lines)) ->
            PyFloat.truthy w = true).
  { intros lines w Hw. induction lines as [|line lines IH]; [destruct Hw|].
    cbn [flat_map] in Hw. rewrite published_speed_app in Hw.
    apply in_app_or in Hw as [Hw | Hw]; [|exact (IH Hw)].
    exact (parse_speed_truthy now i _ w Hw). }
  destruct (reading_ends _ _ _) as [e|] eqn:Ee.
  - apply reading_ends_cases in Ee as [-> | [m ->]].
    + unfold handler in H.
      destruct (match returncode (proc run) with
                | Some _ => _ | None => _ end) as [p'|]; [|discriminate].
      injection H as <-. cbn [calls] in Hv. rewrite published_speed_app in Hv.
      apply in_app_or in Hv as [Hv | []]. exact (Hread _ v Hv).
    + injection H as <-. cbn [calls] in Hv. rewrite published_speed_app in Hv.
      apply in_app_or in Hv as [Hv | []]. exact (Hread _ v Hv).
  - destruct (wait fuel (proc run)) as [p'|]; [|discriminate].
    injection H as <-. cbn [calls] in Hv. rewrite published_speed_app in Hv.
    apply in_app_or in Hv as [Hv | Hv]; [exact (Hread _ v Hv)|].
    destruct (match returncode p' with Some c => c =? 0 | None => false end);
      destruct Hv.
Qed.

(** X9 at a tool that reports 1.5 MiB/s. *)
Lemma no_zero_speed_is_published_witness :
  PyFloat.truthy (PFin (1572864 # 1)) = true.
Proof.
  apply (no_zero_speed_is_published
           5 0 1 with_speed
           (default {| calls := []; handle := None; result := Returned false |}
                    (_execute_download 5 0 1 with_speed))
           (PFin (1572864 # 1))).
  - vm_compute. reflexivity.
  - vm_compute. left. reflexivity.
Defined.

End PublishedFacts.

(** ** Jobs of the queue-backed service *)

Module ServiceJobs.
Import PyStr RedisManager Subprocess DownloadService.
Import DownloadServiceRun DownloadServiceQueries.
Import ServiceTerms StoreTerms ReaderTerms ExampleTerms.
Import DownloadServiceRunFacts RedisFacts KeyFacts StoreFacts ReaderFacts.

(** X10: when [process_download] returns or is cancelled, the job has no
    entry among the active downloads and every other entry is as before;
    for a configuration without [url] it returns [False] and makes no
    call on Redis and starts no process. *)
Theorem process_download_drops_its_entry fuel now i c r a a' t :
  process_download fuel now i c r a = Some (a', t) ->
  a' !! i = None /\
  (forall j, j <> i -> a' !! j = a !! j) /\
  (url c = None ->
   calls t = [] /\ handle t = None /\ result t = Returned false).
Proof.
  unfold process_download, _build_download_command. intros H.
  destruct (url c) as [u|].
  - destruct (_execute_download fuel now i r) as [t0|]; [|discriminate].
    injection H as <- <-. split; [apply lookup_delete_eq|].
    split; [|discriminate].
    intros j Hj. apply lookup_delete_ne. congruence.
  - injection H as <- <-. split; [apply lookup_delete_eq|].
    split; [|auto].
    intros j Hj. apply lookup_delete_ne. congruence.
Qed.

(** X10 at scenario B and a tool that exits with code 0. *)
Lemma process_download_drops_its_entry_witness :
  exists a' t,
    process_download 5 0 1 CommonTerms.scenario_b with_speed ∅ = Some (a', t) /\
    a' !! 1 = None /\
    (forall j, j <> 1 -> a' !! j = (∅ : active) !! j) /\
    (url CommonTerms.scenario_b = None ->
     calls t = [] /\ handle t = None /\ result t = Returned false).
Proof.
  eexists _, _. split; [vm_compute; reflexivity|].
  apply (process_download_drops_its_entry
           5 0 1 CommonTerms.scenario_b with_speed ∅).
  vm_compute. reflexivity.
Defined.



(** X12: [cancel_download] of the service sends no signal when nothing
    runs.  For a job that is not active it returns [False] at once and
    changes nothing; for a job whose process has exited already it returns
    without waiting, with the process as it was, and publishes the
    cancelled snapshot with progress 0.0. *)
Theorem cancel_sends_no_signal_when_nothing_runs fuel now i a :
  (a !! i = None ->
   cancel_download fuel now i a = Some (a, [], None, false)) /\
  (forall p, a !! i = Some p -> is_Some (returncode p) ->
   exists cs,
     cancel_download fuel now i a = Some (delete i a, cs, Some p, false) /\
     published_progress cs = [] /\
     forall r, client r = true ->
       exists sn, get (set_all r cs) (status_key i) = Some (VStatus sn) /\
                  status sn = L "cancelled" /\ progress sn = Some zero).
Proof.
  unfold cancel_download. split.
  - intros ->. reflexivity.
  - intros p -> [c Hc]. unfold handler. rewrite Hc. cbn [calls handle app].
    eexists. split; [reflexivity|]. split; [reflexivity|].
    intros r Hr. unfold _update_download_status.
    match goal with
    | |- context [set_all r [?c]] =>
        pose proof (get_last_call r [] c Hr eq_refl) as G
    end.
    cbn [key val app] in G. rewrite G. eexists. split; [reflexivity|].
    split; reflexivity.
Qed.


End ServiceJobs.

(** ** The endpoints *)

Module EndpointFacts.
Import PyStr RedisManager Subprocess DownloadService.
Import DownloadServiceRun DownloadsApi DownloadsEndpoints.
Import ServiceTerms StoreTerms ExampleTerms.
Import DownloadServiceRunFacts RedisFacts StoreFacts.



(** X14: the cancel endpoint waits for the process.  For a record that
    can be cancelled and whose process runs, ignores the terminate signal
    and does not exit on its own, the request has not returned after any
    number of ticks, and the record is not marked cancelled. *)
Theorem cancel_request_waits_for_the_process fuel now now' a table i d p :
  table !! i = Some d -> cancellable (status d) = true ->
  a !! i = Some p ->
  returncode p = None -> exits_in p = None -> on_sigterm p = None ->
  cancel_download fuel now now' a table i = None.
Proof.
  intros Ht Hc Ha Hr He Hsig.
  unfold cancel_download, DownloadServiceRun.cancel_download.
  rewrite Ht, Hc, Ha. unfold handler. rewrite Hr.
  rewrite wait_never; [reflexivity | exact Hr |].
  unfold terminate. cbn [exits_in]. rewrite Hsig. exact He.
Qed.

(** X14 at a tool that ignores the signal, watched for 1000 ticks. *)
Lemma cancel_request_waits_for_the_process_witness :
  cancel_download 1000 0 0 {[ 7 := stubborn ]}
    {[ 7 := a_download 7 DOWNLOADING ]} 7 = None.
Proof.
  apply (cancel_request_waits_for_the_process
           1000 0 0 {[ 7 := stubborn ]} {[ 7 := a_download 7 DOWNLOADING ]} 7
           (a_download 7 DOWNLOADING) stubborn);
    first [reflexivity | apply lookup_singleton_eq].
Defined.

End EndpointFacts.

(** ** The two command builders compared *)

Module BuildersCompared.
Import PyStr BuilderTerms SplitFacts.

(** For a directory given by one name both ways of joining give the
    name, a slash and the file name. *)
Lemma path_join_simple d name :
  simple_dir d ->
  DownloadService.path_join d name = d ++ L "/" ++ name /\
  AdvancedYouTubeDownloader.os_path_join d name = d ++ L "/" ++ name.
Proof.
  intros (Hne & Hs & Hdot). split.
  - unfold DownloadService.path_join, DownloadService.path_root, DownloadService.path_parts, split_on.
    rewrite (split_on_none "/" [] d Hs). cbn [rev app List.filter].
    destruct d as [|x d]; [congruence|].
    assert (Hx : Ascii.eqb "/" x = false).
    { apply Ascii.eqb_neq. intros <-. apply Hs. left. reflexivity. }
    assert (E : eqb (x :: d) (L ".") = false)
      by (apply PyStrFacts.eqb_neq; exact Hdot).
    rewrite E.
    cbn [startswith L list_ascii_of_string]. rewrite Hx. cbn [andb].
    cbn. reflexivity.
  - unfold AdvancedYouTubeDownloader.os_path_join. destruct d as [|x d]; [congruence|].
    assert (E : endswith (x :: d) (L "/") = false).
    { unfold endswith. destruct (rev (x :: d)) as [|y r] eqn:Er.
      - reflexivity.
      - change (rev (L "/")) with ["/"%char]. cbn [startswith].
        assert (Hy : In y (x :: d)).
        { apply in_rev. rewrite Er. left. reflexivity. }
        destruct (Ascii.eqb "/" y) eqn:Ey; [|reflexivity].
        apply Ascii.eqb_eq in Ey. subst y. destruct (Hs Hy). }
    rewrite E. reflexivity.
Qed.

Lemma time_range_same c job :
  DownloadService.start_time c = AdvancedYouTubeDownloader.start_time job -> DownloadService.end_time c = AdvancedYouTubeDownloader.end_time job ->
  DownloadService.time_range c = AdvancedYouTubeDownloader.time_range job.
Proof.
  unfold DownloadService.time_range, AdvancedYouTubeDownloader.time_range. intros -> ->.
  change DownloadService.true_s with AdvancedYouTubeDownloader.true_s.
  destruct (AdvancedYouTubeDownloader.true_s (AdvancedYouTubeDownloader.start_time job)), (AdvancedYouTubeDownloader.true_s (AdvancedYouTubeDownloader.end_time job));
    reflexivity.
Qed.

(** X17: the two builders build the same command.  For a configuration
    of the service and a job of the in-process downloader that carry the
    same request, with an output directory given by one relative name and
    no rate limit, [_build_download_command] returns the argument vector
    that [build_command] returns. *)
Theorem builders_build_the_same_command float_str c job :
  same_request c job ->
  simple_dir (AdvancedYouTubeDownloader.output_dir job) ->
  AdvancedYouTubeDownloader.true_f (AdvancedYouTubeDownloader.speed job) = false ->
  DownloadService._build_download_command c = inl (AdvancedYouTubeDownloader.build_command float_str job).
Proof.
  intros (Hurl & Hdir & Hao & Hq & Hfps & Hea & Haf & Hf & Hsub & Hl & Hauto
          & Hth & Hmd & Hst & Het & Hps & Hpe) Hsimple Hspeed.
  unfold DownloadService._build_download_command, AdvancedYouTubeDownloader.build_command.
  rewrite Hurl, Hdir.
  destruct (path_join_simple (AdvancedYouTubeDownloader.output_dir job) (L "%(title)s.%(ext)s") Hsimple)
    as [-> ->].
  unfold AdvancedYouTubeDownloader.speed_limit. rewrite Hspeed.
  rewrite (time_range_same c job Hst Het).
  unfold DownloadService.format_selection, AdvancedYouTubeDownloader.format_selection, DownloadService.audio_extraction,
    AdvancedYouTubeDownloader.audio_extraction, DownloadService.video_format, AdvancedYouTubeDownloader.remux, DownloadService.subtitles,
    AdvancedYouTubeDownloader.subtitle_options, DownloadService.thumbnail_metadata, AdvancedYouTubeDownloader.thumbnail_metadata,
    DownloadService.playlist_range, AdvancedYouTubeDownloader.playlist_range.
  rewrite Hao, Hq, Hfps, Hea, Haf, Hf, Hsub, Hl, Hauto, Hth, Hmd, Hps, Hpe.
  change DownloadService.true_i with AdvancedYouTubeDownloader.true_i. change DownloadService.format_str with AdvancedYouTubeDownloader.format_str.
  change DownloadService.additional_options with AdvancedYouTubeDownloader.additional_options.
  change DownloadService.yt_dlp_path with (L "yt-dlp").
  rewrite <- !app_assoc. reflexivity.
Qed.

(** X17 at scenario B. *)
Lemma builders_build_the_same_command_witness :
  DownloadService._build_download_command CommonTerms.scenario_b =
  inl (AdvancedYouTubeDownloader.build_command (fun _ => []) scenario_b_job).
Proof.
  apply (builders_build_the_same_command (fun _ => [])
           CommonTerms.scenario_b scenario_b_job).
  - repeat split.
  - repeat split; [discriminate | | discriminate].
    vm_compute. intuition discriminate.
  - reflexivity.
Defined.

End BuildersCompared.

(** ** [strip], [split] and [in] *)

Module StripFacts.
Import PyStr TextTerms.

Lemma lstrip_decomp s : exists sp, spaces sp /\ s = sp ++ lstrip s.
Proof.
  induction s as [|c s (sp & Hsp & E)].
  - exists []. split; [constructor | reflexivity].
  - cbn [lstrip]. destruct (is_space c) eqn:Ec.
    + exists (c :: sp). split; [constructor; assumption|].
      cbn. f_equal. exact E.
    + exists []. split; [constructor | reflexivity].
Qed.

Lemma strip_decomp s :
  exists sp1 sp2, spaces sp1 /\ spaces sp2 /\ s = sp1 ++ strip s ++ sp2.
Proof.
  destruct (lstrip_decomp s) as (sp1 & H1 & E1).
  destruct (lstrip_decomp (rev (lstrip s))) as (sp2 & H2 & E2).
  exists sp1, (rev sp2). split; [exact H1|]. split.
  - apply Forall_rev. exact H2.
  - unfold strip. rewrite <- rev_app_distr, <- E2, rev_involutive. exact E1.
Qed.

Lemma split_from_spaces sp : spaces sp -> split_from [] sp = [].
Proof.
  induction 1 as [|c sp Hc _ IH]; [reflexivity|].
  cbn [split_from]. rewrite Hc. exact IH.
Qed.

Lemma split_from_lead sp s :
  spaces sp -> split_from [] (sp ++ s) = split_from [] s.
Proof.
  induction 1 as [|c sp Hc _ IH]; [reflexivity|].
  cbn [split_from app]. rewrite Hc. exact IH.
Qed.

Lemma split_from_trail cur s sp :
  spaces sp -> split_from cur (s ++ sp) = split_from cur s.
Proof.
  intros Hsp. revert cur. induction s as [|c s IH]; intros cur.
  - cbn [app]. destruct Hsp as [|x sp Hx Hsp]; [reflexivity|].
    cbn [split_from]. rewrite Hx, (split_from_spaces sp Hsp).
    destruct cur; reflexivity.
  - cbn [split_from app]. rewrite !IH. reflexivity.
Qed.

Lemma split_strip s : split (strip s) = split s.
Proof.
  destruct (strip_decomp s) as (sp1 & sp2 & H1 & H2 & E).
  unfold split. rewrite E at 2.
  rewrite split_from_lead, split_from_trail by assumption. reflexivity.
Qed.

Lemma startswith_trail tag s sp :
  no_space tag -> spaces sp -> startswith (s ++ sp) tag = startswith s tag.
Proof.
  intros Ht Hsp. revert s. induction Ht as [|a tag Ha _ IH]; intros s.
  - destruct s; reflexivity.
  - destruct s as [|x s]; cbn [app startswith].
    + destruct Hsp as [|c sp Hc _]; [reflexivity|]. cbn [startswith].
      destruct (Ascii.eqb a c) eqn:E; [|reflexivity].
      apply Ascii.eqb_eq in E. congruence.
    + rewrite IH. reflexivity.
Qed.

Lemma contains_spaces a tag sp :
  is_space a = false -> spaces sp -> contains (a :: tag) sp = false.
Proof.
  intros Ha. induction 1 as [|c sp Hc _ IH]; [reflexivity|].
  cbn [contains startswith]. rewrite IH.
  destruct (Ascii.eqb a c) eqn:E; [|reflexivity].
  apply Ascii.eqb_eq in E. congruence.
Qed.

Lemma contains_lead a tag sp s :
  is_space a = false -> spaces sp ->
  contains (a :: tag) (sp ++ s) = contains (a :: tag) s.
Proof.
  intros Ha. induction 1 as [|c sp Hc _ IH]; [reflexivity|].
  cbn [contains startswith app]. rewrite IH.
  destruct (Ascii.eqb a c) eqn:E; [|reflexivity].
  apply Ascii.eqb_eq in E. congruence.
Qed.

Lemma contains_trail a tag s sp :
  no_space (a :: tag) -> spaces sp ->
  contains (a :: tag) (s ++ sp) = contains (a :: tag) s.
Proof.
  intros Ht Hsp. induction s as [|x s IH].
  - cbn [app]. rewrite contains_spaces; [reflexivity | | exact Hsp].
    inversion Ht; assumption.
  - change ((x :: s) ++ sp) with (x :: (s ++ sp)).
    cbn [contains]. rewrite IH.
    change (x :: (s ++ sp)) with ((x :: s) ++ sp).
    rewrite (startswith_trail (a :: tag) (x :: s) sp Ht Hsp). reflexivity.
Qed.

Lemma contains_strip a tag s :
  no_space (a :: tag) -> contains (a :: tag) (strip s) = contains (a :: tag) s.
Proof.
  intros Ht. destruct (strip_decomp s) as (sp1 & sp2 & H1 & H2 & E).
  rewrite E at 2. rewrite contains_lead, contains_trail; auto.
  inversion Ht; assumption.
Qed.

End StripFacts.

(** ** The two progress parsers compared *)

Module EnginesCompared.
Import PyStr RedisManager DownloadService DownloadServiceRun.
Import ServiceTerms RowTerms TextTerms StripFacts.
Import DownloadServiceRunFacts.

Lemma first_percent_token_of parts p :
  AdvancedYouTubeDownloader.first_percent parts = Some p ->
  first_percent_token parts = Some p.
Proof.
  induction parts as [|part rest IH]; [discriminate|].
  cbn [AdvancedYouTubeDownloader.first_percent first_percent_token].
  unfold percent_token. destruct (endswith part (L "%")).
  - intros ->. reflexivity.
  - exact IH.
Qed.

Lemma published_one_line now i line :
  published_progress (fst (read_output now i [line] None None)) =
  match reported line with
  | Some p => [p]
  | None => []
  end.
Proof.
  rewrite read_output_eq. cbn [fst lines_read].
  rewrite QueueBackedRuns.published_progress_flat. unfold reports.
  cbn [flat_map]. apply app_nil_r.
Qed.

Lemma tag_no_space : no_space (L "[download]").
Proof. repeat constructor. Qed.

Lemma first_percent_cases parts p :
  first_percent_token parts = Some p ->
  AdvancedYouTubeDownloader.first_percent parts = Some p \/
  (AdvancedYouTubeDownloader.first_percent parts = None /\
   exists part, In part parts /\ bad_percent_part part).
Proof.
  induction parts as [|part rest IH]; [discriminate|].
  cbn [AdvancedYouTubeDownloader.first_percent first_percent_token].
  unfold percent_token. destruct (endswith part (L "%")) eqn:Ee.
  - destruct (PyFloat.of_str (remove_char "%" part)) as [q|] eqn:Eq.
    + intros [= ->]. left. reflexivity.
    + intros _. right. split; [reflexivity|].
      exists part. split; [left; reflexivity | split; assumption].
  - intros H. destruct (IH H) as [E | (E & part' & Hin & Hbad)];
      [left; exact E|].
    right. split; [exact E|]. exists part'. split; [right; exact Hin | exact Hbad].
Qed.

Lemma line_update_eq line :
  AdvancedYouTubeDownloader.line_update line =
  if contains (L "[download]") line && contains (L "%") line
  then match AdvancedYouTubeDownloader.first_percent (split line) with
       | Some p => [progress_update p]
       | None => []
       end
  else [].
Proof. reflexivity. Qed.

Lemma reported_eq line :
  reported line =
  if contains (L "[download]") line
  then first_percent_token (split line)
  else None.
Proof.
  unfold reported.
  change (L "[download]") with ("["%char :: L "download]").
  rewrite (contains_strip "["%char (L "download]") line tag_no_space).
  rewrite split_strip. reflexivity.
Qed.

(** X18: the two engines on one line of output.  Whenever the in-process
    downloader records a percentage for a line, the queue-backed service
    publishes the same percentage for it.  Whenever the service publishes
    a percentage, the in-process downloader records the same one, or
    records nothing, and then the line has a part that ends with a percent
    sign and is no number, which ends its search. *)
Theorem engines_agree_on_the_percentage now i line p :
  (AdvancedYouTubeDownloader.line_update line = [progress_update p] ->
   published_progress (fst (read_output now i [line] None None)) = [p]) /\
  (published_progress (fst (read_output now i [line] None None)) = [p] ->
   AdvancedYouTubeDownloader.line_update line = [progress_update p] \/
   (AdvancedYouTubeDownloader.line_update line = [] /\
    exists part, In part (split line) /\ bad_percent_part part)).
Proof.
  rewrite published_one_line, reported_eq, line_update_eq.
  destruct (contains (L "[download]") line) eqn:Et; cbn [andb].
  2: { split; discriminate. }
  split.
  - destruct (contains (L "%") line); [|discriminate].
    destruct (AdvancedYouTubeDownloader.first_percent (split line)) as [q|] eqn:Eq;
      [|discriminate].
    intros [= ->]. rewrite (first_percent_token_of _ _ Eq). reflexivity.
  - destruct (first_percent_token (split line)) as [q|] eqn:Eq; [|discriminate].
    intros [= ->].
    assert (Hc : contains (L "%") line = true).
    { apply ParserFacts.first_percent_token_Some in Eq
        as (before & part & after & E & Hp & _).
      apply (ParserFacts.percent_token_in_line line part p); [|exact Hp].
      rewrite E. apply in_elt. }
    rewrite Hc.
    destruct (first_percent_cases _ _ Eq) as [-> | (-> & Hbad)]; auto.
Qed.

(** X18 at a progress line of the tool. *)
Lemma engines_agree_on_the_percentage_witness :
  published_progress
    (fst (read_output 0 1 [L "[download]  50.0% of 10.00MiB"] None None))
  = [PFin 50].
Proof.
  apply (proj1 (engines_agree_on_the_percentage
                  0 1 (L "[download]  50.0% of 10.00MiB") (PFin 50))).
  vm_compute. reflexivity.
Defined.

End EnginesCompared.

(** ** Runs of the in-process downloader *)

Module InProcessRuns.
Import PyStr AdvancedYouTubeDownloader RowTerms.

Lemma apply_updates_app a b r :
  apply_updates (a ++ b) r = apply_updates b (apply_updates a r).
Proof. apply fold_left_app. Qed.

Lemma line_update_cases line :
  line_update line = [] \/ exists p, line_update line = [progress_update p].
Proof.
  unfold line_update. destruct (_ && _); [|left; reflexivity].
  destruct (first_percent (split line)) as [p|]; [right; eauto | left; reflexivity].
Qed.

(** Calls that record percentages change the progress only. *)
Lemma apply_line_updates lines r :
  apply_updates (flat_map line_update lines) r =
  {| row_status := row_status r;
     row_progress :=
       match recorded lines with
       | [] => row_progress r
       | p :: ps => sql_real (List.last ps p)
       end;
     row_error_message := row_error_message r;
     row_completed_at := row_completed_at r |}.
Proof.
  revert r. induction lines as [|line lines IH]; intros r.
  - destruct r; reflexivity.
  - cbn [flat_map]. rewrite apply_updates_app, IH.
    unfold recorded. cbn [flat_map]. fold (recorded lines).
    destruct (line_update_cases line) as [-> | [p ->]].
    + reflexivity.
    + cbn [flat_map progress_update set_progress app apply_updates fold_left
           update_row set_status set_error_message set_completed_at
           row_status row_progress row_error_message row_completed_at default].
      f_equal.
      destruct (recorded lines) as [|q qs]; [reflexivity|].
      f_equal. apply (ListFacts.last_cons qs q p).
Qed.

(** What the loop over the output reads. *)
Lemma read_lines_seen r :
  exists e,
    read_lines (output r) (read_error r) =
      (flat_map line_update (lines_seen r), map strip (lines_seen r), e) /\
    (e = None <->
     forall j message,
       read_error r = Some (j, message) -> (length (output r) <= j)%nat).
Proof.
  unfold lines_seen. destruct (read_error r) as [[j m]|].
  - destruct (Nat.lt_ge_cases j (length (output r))) as [Hlt | Hge].
    + exists (Some m). rewrite (PoolFacts.read_lines_fails _ j m Hlt).
      split; [reflexivity|]. split; [discriminate|].
      intros H. specialize (H _ _ eq_refl). lia.
    + exists None.
      rewrite PoolFacts.read_lines_all by (intros j' m' [= <- <-]; exact Hge).
      rewrite firstn_all2 by exact Hge.
      split; [reflexivity|]. split; [|reflexivity].
      intros _ j' m' [= <- <-]. exact Hge.
  - exists None. rewrite PoolFacts.read_lines_all by discriminate.
    split; [reflexivity|]. split; [discriminate | reflexivity].
Qed.

(** X19: what a run of [download_with_progress] leaves in the row of its
    job.  [completed_at] is set, whether the run succeeds or fails.  A run
    that returns [True] had no error, read every line of the output and
    met exit code 0, and leaves status completed and progress 100.  A run
    that returns [False] leaves status failed and an error message, and
    the progress is not reset: it is the last percentage recorded on the
    lines read, [NULL] when that is NaN, 0 when none was recorded, and
    the value the row had when the command could not be built. *)
Theorem run_settles_the_row now r row0 :
  row_completed_at (apply_updates (fst (download_with_progress now r)) row0)
    = Some now /\
  (snd (download_with_progress now r) = true ->
   build_error r = None /\ spawn_error r = None /\ returncode r = 0 /\
   (forall j message,
       read_error r = Some (j, message) -> (length (output r) <= j)%nat) /\
   row_status (apply_updates (fst (download_with_progress now r)) row0)
     = L "completed" /\
   row_progress (apply_updates (fst (download_with_progress now r)) row0)
     = Some (PFin 100)) /\
  (snd (download_with_progress now r) = false ->
   row_status (apply_updates (fst (download_with_progress now r)) row0)
     = L "failed" /\
   is_Some (row_error_message
              (apply_updates (fst (download_with_progress now r)) row0)) /\
   row_progress (apply_updates (fst (download_with_progress now r)) row0) =
     match build_error r, spawn_error r with
     | Some _, _ => row_progress row0
     | None, Some _ => Some (PFin 0)
     | None, None => sql_real (List.last (recorded (lines_seen r)) (PFin 0))
     end).
Proof.
  unfold download_with_progress.
  destruct (build_error r) as [msg|].
  { cbn. split; [reflexivity|]. split; [discriminate|]. eauto. }
  destruct (spawn_error r) as [msg|].
  { cbn. split; [reflexivity|]. split; [discriminate|]. eauto. }
  destruct (read_lines_seen r) as (e & -> & He).
  assert (Hlast : forall ps : list pyfloat,
            match ps with
            | [] => Some (PFin 0)
            | p :: ps' => sql_real (List.last ps' p)
            end = sql_real (List.last ps (PFin 0))).
  { intros [|p ps']; [reflexivity|].
    f_equal. apply (ListFacts.last_cons ps' p (PFin 0)). }
  destruct e as [msg|].
  - cbn [fst snd].
    change (?u :: ?l ++ ?v) with ([u] ++ l ++ v).
    rewrite !apply_updates_app, apply_line_updates.
    cbn. split; [reflexivity|]. split; [discriminate|].
    intros _. split; [reflexivity|]. split; [eauto|]. apply Hlast.
  - destruct (returncode r =? 0) eqn:Ec; cbn [fst snd].
    + change (?u :: ?l ++ ?v) with ([u] ++ l ++ v).
      rewrite !apply_updates_app, apply_line_updates.
      cbn. split; [reflexivity|]. split; [|discriminate].
      intros _. apply Z.eqb_eq in Ec.
      repeat (split; [reflexivity || assumption|]).
      split; [apply He; reflexivity|]. split; reflexivity.
    + change (?u :: ?l ++ ?v) with ([u] ++ l ++ v).
      rewrite !apply_updates_app, apply_line_updates.
      cbn. split; [reflexivity|]. split; [discriminate|].
      intros _. split; [reflexivity|]. split; [eauto|]. apply Hlast.
Qed.

(** X19 at a tool that reports 50 percent, then not a number, and exits
    with code 1: the row is failed and its progress is [NULL]. *)
Lemma run_settles_the_row_witness :
  row_status (apply_updates (fst (download_with_progress 9 nan_then_fails))
                pending_row) = L "failed" /\
  row_progress (apply_updates (fst (download_with_progress 9 nan_then_fails))
                  pending_row) = None /\
  row_completed_at
    (apply_updates (fst (download_with_progress 9 nan_then_fails))
       pending_row) = Some 9.
Proof.
  destruct (run_settles_the_row 9 nan_then_fails pending_row)
    as (Hc & _ & Hf).
  destruct (Hf eq_refl) as (Hs & _ & Hp).
  split; [exact Hs|]. split; [|exact Hc].
  rewrite Hp. vm_compute. reflexivity.
Defined.

End InProcessRuns.

(** ** The ids of the in-process downloader *)

Module PoolIds.
Import PyStr AdvancedYouTubeDownloader PoolTerms.

Section Ids.
Variable max_workers : nat.

Lemma ids_init : ids_invariant init.
Proof.
  unfold ids_invariant, started, waiting, in_hand. cbn.
  split; [lia|]. split; [reflexivity|]. split; [constructor|].
  split; [constructor|]. split; [|split].
  - intros j. rewrite lookup_empty. split; [intros [x Hx]; discriminate Hx | lia].
  - intros j [[] | []].
  - reflexivity.
Qed.

Lemma waiting_length d :
  lastrowid d = started d + Z.of_nat (length (waiting d)).
Proof. unfold started. lia. Qed.

Lemma ids_step d d' :
  ids_invariant d -> step max_workers d d' -> ids_invariant d'.
Proof.
  intros (H0 & Hw & Hr & Hnd & Hdb & Hact & Hk) Hstep.
  pose proof (waiting_length d) as HL.
  destruct Hstep as [d job Hjob | d job jid rest Hq
                    | d job jid rest now r Hq Hfree
                    | d ws1 jid u us ws2 Hrun | d ws1 jid ws2 Hrun].
  - (* add_download *)
    assert (Ew : waiting
              {| download_queue := download_queue d ++ [(job, lastrowid d + 1)];
                 work_queue := work_queue d; running := running d;
                 active_downloads := active_downloads d;
                 db := <[lastrowid d + 1 :=
                          {| row_status := status job;
                             row_progress := sql_real (progress job);
                             row_error_message := error_message job;
                             row_completed_at := completed_at job |}]> (db d);
                 lastrowid := lastrowid d + 1 |}
              = waiting d ++ [lastrowid d + 1]).
    { unfold waiting. cbn [work_queue download_queue].
      rewrite app_assoc, map_app. reflexivity. }
    unfold ids_invariant, started, in_hand. rewrite Ew.
    cbn [lastrowid running db active_downloads work_queue download_queue].
    rewrite length_app. cbn [length].
    replace (lastrowid d + 1 - Z.of_nat (length (waiting d) + 1))
      with (started d) by lia.
    split; [exact H0|]. split.
    { replace (length (waiting d) + 1)%nat with (S (length (waiting d))) by lia.
      rewrite seqZ_S, <- Hw. f_equal. f_equal. lia. }
    split; [exact Hr|]. split; [exact Hnd|]. split; [|split].
    + intros j. rewrite lookup_insert_is_Some, Hdb. lia.
    + exact Hact.
    + intros E. rewrite length_app. cbn [length]. specialize (Hk E). lia.
  - (* _process_queue *)
    assert (Ew : forall a,
              waiting
                {| download_queue := rest;
                   work_queue := work_queue d ++ [(job, jid)];
                   running := running d; active_downloads := a;
                   db := db d; lastrowid := lastrowid d |}
              = waiting d).
    { intros a. unfold waiting. cbn [work_queue download_queue].
      rewrite Hq, <- app_assoc. reflexivity. }
    unfold ids_invariant, started, in_hand. cbn zeta. rewrite Ew.
    cbn [lastrowid running db active_downloads work_queue download_queue].
    split; [exact H0|]. split; [exact Hw|]. split; [exact Hr|].
    split; [exact Hnd|]. split; [exact Hdb|].
    assert (Hin : forall j,
              In j (map snd (work_queue d ++ [(job, jid)])) \/
              In j (map job_id (running d)) ->
              j ∈ filter (fun j =>
                     done {| download_queue := rest;
                             work_queue := work_queue d ++ [(job, jid)];
                             running := running d;
                             active_downloads := {[jid]} ∪ active_downloads d;
                             db := db d; lastrowid := lastrowid d |} j = false)
                    ({[jid]} ∪ active_downloads d)).
    { intros j Hj. apply elem_of_filter. split.
      - unfold done. cbn [running work_queue].
        apply negb_false_iff, orb_true_iff.
        destruct Hj as [Hj | Hj].
        + right. apply existsb_exists. apply in_map_iff in Hj as (q & <- & Hq').
          exists q. split; [exact Hq' | apply Z.eqb_refl].
        + left. apply existsb_exists. apply in_map_iff in Hj as (w & <- & Hw').
          exists w. split; [exact Hw' | apply Z.eqb_refl].
      - rewrite map_app in Hj. cbn [map snd] in Hj.
        destruct Hj as [Hj | Hj].
        + apply in_app_or in Hj as [Hj | [<- | []]].
          * apply elem_of_union_r, Hact. left. exact Hj.
          * apply elem_of_union_l, elem_of_singleton. reflexivity.
        + apply elem_of_union_r, Hact. right. exact Hj. }
    split; [exact Hin|].
    intros E. exfalso.
    apply (not_elem_of_empty (C := gset Z) jid). rewrite <- E. apply Hin.
    left. rewrite map_app. apply in_or_app. right. left. reflexivity.
  - (* a thread starts a job *)
    assert (Ew : waiting d = jid :: waiting
              {| download_queue := download_queue d; work_queue := rest;
                 running := running d ++
                   [ {| job_id := jid;
                        todo := fst (download_with_progress now r) |} ];
                 active_downloads := active_downloads d;
                 db := db d; lastrowid := lastrowid d |}).
    { unfold waiting. cbn [work_queue download_queue]. rewrite Hq. reflexivity. }
    set (d' := {| download_queue := download_queue d; work_queue := rest;
                  running := _; active_downloads := _; db := _;
                  lastrowid := _ |}) in *.
    assert (El : length (waiting d) = S (length (waiting d')))
      by (rewrite Ew; reflexivity).
    rewrite El in Hw. rewrite seqZ_cons in Hw by lia.
    rewrite Ew in Hw. injection Hw as Hjid Hw'.
    assert (Es : started d' = started d + 1).
    { unfold started. change (lastrowid d') with (lastrowid d). lia. }
    unfold ids_invariant. rewrite Es.
    split; [lia|]. split.
    { rewrite Hw' at 1. f_equal; lia. }
    assert (Eh : in_hand d' = in_hand d ++ [jid]).
    { unfold in_hand, d'. cbn [running]. rewrite map_app. reflexivity. }
    rewrite Eh. split.
    { apply Forall_app. split.
      - eapply Forall_impl; [exact Hr|]. cbn. intros; lia.
      - constructor; [lia | constructor]. }
    split.
    { apply NoDup_app. split; [exact Hnd|]. split; [|apply NoDup_singleton].
      intros j Hj Hj'. apply list_elem_of_singleton in Hj'. subst j.
      rewrite Forall_forall in Hr. specialize (Hr _ Hj). lia. }
    split; [exact Hdb|]. split.
    + intros j Hj. apply Hact. change (work_queue d') with rest in Hj.
      rewrite Hq. cbn [map snd]. destruct Hj as [Hj | Hj].
      * left. right. exact Hj.
      * apply in_app_or in Hj as [Hj | [<- | []]]; [right; exact Hj|].
        left. left. reflexivity.
    + exact Hk.
  - (* a worker calls update_job *)
    set (d' := {| download_queue := download_queue d;
                  work_queue := work_queue d; running := _;
                  active_downloads := _; db := _; lastrowid := _ |}).
    assert (Eh : in_hand d' = in_hand d).
    { unfold in_hand, d'. cbn [running]. rewrite Hrun, !map_app. reflexivity. }
    unfold ids_invariant. rewrite Eh.
    change (started d') with (started d). change (waiting d') with (waiting d).
    split; [exact H0|]. split; [exact Hw|]. split; [exact Hr|].
    split; [exact Hnd|]. split; [|split; [exact Hact | exact Hk]].
    intros j. change (lastrowid d') with (lastrowid d).
    rewrite <- Hdb. unfold d', update_job. cbn [db].
    destruct (decide (j = jid)) as [-> | Hne].
    + rewrite lookup_alter_eq, fmap_is_Some. reflexivity.
    + rewrite lookup_alter_ne by congruence. reflexivity.
  - (* a worker returns *)
    set (d' := {| download_queue := download_queue d;
                  work_queue := work_queue d; running := _;
                  active_downloads := _; db := _; lastrowid := _ |}).
    assert (Eh : in_hand d = map job_id ws1 ++ jid :: map job_id ws2).
    { unfold in_hand. rewrite Hrun, map_app. reflexivity. }
    assert (Eh' : in_hand d' = map job_id ws1 ++ map job_id ws2).
    { unfold in_hand, d'. cbn [running]. apply map_app. }
    unfold ids_invariant. rewrite Eh'. rewrite Eh in Hr, Hnd, Hact.
    change (started d') with (started d). change (waiting d') with (waiting d).
    split; [exact H0|]. split; [exact Hw|].
    apply Forall_app in Hr as [Hr1 Hr2]. inversion Hr2 as [|? ? _ Hr2']; subst.
    split; [apply Forall_app; split; assumption|].
    split.
    { apply NoDup_app in Hnd as (N1 & N2 & N3).
      apply NoDup_cons in N3 as [_ N3].
      apply NoDup_app. split; [exact N1|]. split; [|exact N3].
      intros j Hj Hj'. apply (N2 j Hj). right. exact Hj'. }
    split; [exact Hdb|]. split; [|exact Hk].
    intros j Hj. apply Hact. destruct Hj as [Hj | Hj]; [left; exact Hj|].
    right. apply in_app_or in Hj as [Hj | Hj]; apply in_or_app; auto.
    right. right. exact Hj.
Qed.

Lemma reachable_ids d : reachable max_workers d -> ids_invariant d.
Proof.
  induction 1 as [|d d' _ IH Hstep]; [apply ids_init|].
  eapply ids_step; eassumption.
Qed.

End Ids.
End PoolIds.

Module PoolOrder.
Import PyStr AdvancedYouTubeDownloader PoolTerms PoolIds DownloaderTerms.

(** X20: jobs are started in the order they were added.  At every
    reachable state the jobs that wait, those handed to the pool before
    those on the queue, have the ids [started + 1] to [lastrowid] in
    increasing order, and every job a thread has taken has an id of at
    most [started]. *)
Theorem jobs_start_in_order_of_arrival max_workers d :
  reachable max_workers d ->
  0 <= started d /\
  waiting d = seqZ (started d + 1) (Z.of_nat (length (waiting d))) /\
  Forall (fun j => 1 <= j <= started d) (in_hand d).
Proof.
  intros H. destruct (reachable_ids max_workers d H) as (H0 & Hw & Hr & _).
  auto.
Qed.

(** X20 at a pool of four threads with one job downloading. *)
Lemma jobs_start_in_order_of_arrival_witness :
  0 <= started one_downloading /\
  waiting one_downloading =
    seqZ (started one_downloading + 1)
         (Z.of_nat (length (waiting one_downloading))) /\
  Forall (fun j => 1 <= j <= started one_downloading) (in_hand one_downloading).
Proof.
  apply (jobs_start_in_order_of_arrival 4 one_downloading).
  exact InProcessPool.one_downloading_reachable.
Defined.

Lemma in_flight_NoDup d :
  ids_invariant d -> NoDup (in_hand d ++ waiting d).
Proof.
  intros (H0 & Hw & Hr & Hnd & _).
  apply NoDup_app. split; [exact Hnd|]. split.
  - intros j Hj Hj'. rewrite Forall_forall in Hr. specialize (Hr j Hj).
    rewrite Hw in Hj'. apply elem_of_seqZ in Hj'. lia.
  - rewrite Hw. apply NoDup_seqZ.
Qed.

(** X21: no job is taken twice and none is without its row.  At every
    reachable state the ids of the jobs in the threads and of the jobs
    that wait are pairwise distinct, each of them has a row in the table,
    and the table has a row exactly for the ids 1 to [lastrowid]: an
    [update_job] call of a worker always finds its row. *)
Theorem every_job_in_flight_is_one_row max_workers d :
  reachable max_workers d ->
  NoDup (in_hand d ++ waiting d) /\
  (forall j, In j (in_hand d ++ waiting d) -> is_Some (db d !! j)) /\
  (forall j, is_Some (db d !! j) <-> 1 <= j <= lastrowid d).
Proof.
  intros H. pose proof (reachable_ids max_workers d H) as Hi.
  split; [apply in_flight_NoDup, Hi|].
  destruct Hi as (H0 & Hw & Hr & Hnd & Hdb & _).
  split; [|exact Hdb].
  intros j Hj. apply Hdb. apply in_app_or in Hj as [Hj | Hj].
  - rewrite Forall_forall in Hr. apply list_elem_of_In in Hj.
    specialize (Hr j Hj). unfold started in *. lia.
  - rewrite Hw in Hj. apply list_elem_of_In, elem_of_seqZ in Hj.
    unfold started in *. lia.
Qed.

(** X21 at a pool of four threads with one job downloading. *)
Lemma every_job_in_flight_is_one_row_witness :
  NoDup (in_hand one_downloading ++ waiting one_downloading) /\
  (forall j, In j (in_hand one_downloading ++ waiting one_downloading) ->
             is_Some (db one_downloading !! j)) /\
  (forall j, is_Some (db one_downloading !! j) <->
             1 <= j <= lastrowid one_downloading).
Proof.
  apply (every_job_in_flight_is_one_row 4 one_downloading).
  exact InProcessPool.one_downloading_reachable.
Defined.

End PoolOrder.

(** ** The playlist script *)

Module PlaylistFacts.
Import PyStr DownloadPlaylist PlaylistTerms TextTerms SplitFacts.

Lemma fps_filter_no_slash f : no_slash (fps_filter f).
Proof.
  unfold fps_filter. destruct (true_i f); [|intros []].
  repeat apply no_slash_app; try apply of_int_no_slash;
    unfold no_slash; cbn; intuition discriminate.
Qed.

Lemma format_string_join q ext f :
  format_string q ext f = join (L "/") (alternatives q ext (fps_filter f)).
Proof.
  unfold format_string, alternatives, L.
  cbn [join list_ascii_of_string]. rewrite <- !app_assoc. cbn [app].
  reflexivity.
Qed.

(** X23: the format selector of the playlist script is a chain of six
    alternatives.  For a resolution and a container without a slash, the
    selector splits at its slashes into: best video within the height
    bound with the frame-rate filter and the container, with best m4a
    audio; the same without the container; without the frame-rate filter
    and with the container; without both; the best single file within the
    height bound with the frame-rate filter; and without it.  When no
    frame rate is given, or 0, the first and third, the second and fourth
    and the last two alternatives coincide. *)
Theorem playlist_selector_is_a_chain_of_six q ext f :
  no_slash q -> no_slash ext ->
  split_on "/" (format_string q ext f) = alternatives q ext (fps_filter f) /\
  (true_i f = false ->
   exists a b c, alternatives q ext (fps_filter f) = [a; b; a; b; c; c]).
Proof.
  intros Hq He. split.
  - rewrite format_string_join. apply (split_on_join "/"); [discriminate|].
    pose proof (fps_filter_no_slash f) as Hf.
    unfold alternatives.
    repeat (constructor;
            [repeat apply no_slash_app; try assumption;
             apply literal_no_slash; reflexivity|]).
    constructor.
  - intros Hf. unfold alternatives, fps_filter. rewrite Hf.
    eexists _, _, _. cbn [app]. rewrite !app_nil_r. reflexivity.
Qed.

(** X23 at 1080 pixels, mp4 and 60 frames per second. *)
Lemma playlist_selector_is_a_chain_of_six_witness :
  split_on "/" (format_string (L "1080") (L "mp4") (Some 60)) =
  alternatives (L "1080") (L "mp4") (L "[fps=60]").
Proof.
  apply (playlist_selector_is_a_chain_of_six (L "1080") (L "mp4") (Some 60));
    unfold no_slash; cbn; intuition discriminate.
Defined.

Lemma tally_count ignore_errors futures s f :
  (fst (tally ignore_errors futures s f) + snd (tally ignore_errors futures s f)
   <= s + f + length futures)%nat.
Proof.
  revert s f. induction futures as [|[[|]|r] rest IH]; intros s f;
    cbn [tally length].
  - cbn. lia.
  - specialize (IH (S s) f). lia.
  - specialize (IH s (S f)). lia.
  - destruct ignore_errors; [specialize (IH s (S f)); lia | cbn; lia].
Qed.

Lemma download_video_ignoring r :
  download_video true r =
  inl (match r with Exited 0 => true | _ => false end).
Proof. destruct r as [[| |]|]; reflexivity. Qed.

Lemma tally_ignoring runs s f :
  tally true (map (download_video true) runs) s f =
  ((s + successes runs)%nat, (f + (length runs - successes runs))%nat).
Proof.
  revert s f. induction runs as [|r runs IH]; intros s f.
  - cbn. f_equal; lia.
  - cbn [map]. rewrite download_video_ignoring. unfold successes in *.
    cbn [List.filter].
    pose proof (filter_length_le
                  (fun r => match r with Exited 0 => true | _ => false end) runs).
    destruct (match r with Exited 0 => true | _ => false end);
      cbn [tally length]; rewrite IH; f_equal; lia.
Qed.

Lemma tally_halting runs s f :
  tally false (map (download_video false) runs) s f =
  ((s + leading_successes runs)%nat,
   if (leading_successes runs <? length runs)%nat then S f else f).
Proof.
  revert s f. induction runs as [|r runs IH]; intros s f.
  - cbn. f_equal; lia.
  - destruct r as [[| |]|]; cbn [map download_video tally leading_successes].
    + rewrite IH. cbn [length].
      replace (S (leading_successes runs) <? S (length runs))%nat
        with (leading_successes runs <? length runs)%nat by reflexivity.
      f_equal. lia.
    + f_equal. lia.
    + f_equal. lia.
    + f_equal. lia.
Qed.

(** X24: the tally of a session of the playlist script.  The two counts
    together never exceed the number of videos.  With [--ignore-errors]
    every video is counted: the successes are the runs that exit with
    code 0 and the failures all the others.  Without it the loop stops at
    the first run that does not exit with code 0: the successes are the
    runs before it, and at most one failure is counted. *)
Theorem session_tally ignore_errors runs :
  (fst (session ignore_errors runs) + snd (session ignore_errors runs)
   <= length runs)%nat /\
  (ignore_errors = true ->
   session ignore_errors runs =
     (successes runs, (length runs - successes runs)%nat)) /\
  (ignore_errors = false ->
   session ignore_errors runs =
     (leading_successes runs,
      if (leading_successes runs <? length runs)%nat then 1%nat else 0%nat)).
Proof.
  unfold session. split; [|split].
  - pose proof (tally_count ignore_errors
                  (map (download_video ignore_errors) runs) 0 0) as H.
    rewrite length_map in H. exact H.
  - intros ->. rewrite tally_ignoring. reflexivity.
  - intros ->. rewrite tally_halting. reflexivity.
Qed.

End PlaylistFacts.
